(** * wyze_server.py: a shallow embedding of the Wyze camera proxy

    The development follows [packages/wyze-cameras/server/wyze_server.py]:
    Python text and JSON values first, then the pure helpers
    ([_hash_password], [_name_uri], the relay-URL pattern), then the
    process state with the vendor as an oracle, the session helpers
    ([_validate], [_refresh_token]), the device cache ([fetch_cameras]),
    the vendor calls and the Flask routes.  Theorems come last. *)

From Stdlib Require Import List ZArith NArith Bool String Ascii Lia QArith Lqa.
From Stdlib Require Import DecimalString.
Import ListNotations.

Local Open Scope Z_scope.
#[local] Set Warnings "-register-all".

(* ------------------------------------------------------------------ *)
(** ** Python text *)

(** A Python [str] is a sequence of Unicode code points. *)
Definition pystr := list N.

(** An ASCII literal of the source as a [pystr]. *)
Definition u (s : string) : pystr := map N_of_ascii (list_ascii_of_string s).

Definition pystr_eqb (a b : pystr) : bool :=
  if list_eq_dec N.eq_dec a b then true else false.

(** What CPython's Unicode tables say beyond ASCII.  The tables are part
    of the interpreter, not of the repository: they are a parameter of
    the model.  Lower-casing is positional (a capital sigma lowers by its
    neighbours), so [uni_lower] sees the text before and after. *)
Record unicode_db := {
  uni_isalnum : N -> bool;
  uni_isdecimal : N -> bool;
  uni_lower : pystr -> N -> pystr -> pystr;
  uni_upper : N -> pystr
}.

Module PyStr.

Definition is_ascii (c : N) : bool := (c <? 128)%N.

(** [str.isspace] on one code point, the set [str.strip()] removes. *)
Definition isspace (c : N) : bool :=
  ((9 <=? c) && (c <=? 13) || (28 <=? c) && (c <=? 32)
   || (c =? 133) || (c =? 160) || (c =? 5760)
   || (8192 <=? c) && (c <=? 8202)
   || (c =? 8232) || (c =? 8233) || (c =? 8239) || (c =? 8287)
   || (c =? 12288))%N.

Fixpoint lstrip (s : pystr) : pystr :=
  match s with
  | c :: rest => if isspace c then lstrip rest else s
  | [] => []
  end.

Definition rstrip (s : pystr) : pystr := rev (lstrip (rev s)).

(** [s.strip()] *)
Definition strip (s : pystr) : pystr := rstrip (lstrip s).

(** [s.replace(" ", "-")] *)
Definition replace_space_hyphen (s : pystr) : pystr :=
  map (fun c => if (c =? 32)%N then 45%N else c) s.

Definition ascii_lower (c : N) : N :=
  if ((65 <=? c) && (c <=? 90))%N then (c + 32)%N else c.

Definition ascii_upper (c : N) : N :=
  if ((97 <=? c) && (c <=? 122))%N then (c - 32)%N else c.

Section WithTables.
Variable U : unicode_db.

Fixpoint lower_from (before s : pystr) : pystr :=
  match s with
  | [] => []
  | c :: rest =>
      (if is_ascii c then [ascii_lower c] else uni_lower U before c rest)
        ++ lower_from (before ++ [c]) rest
  end.

(** [s.lower()] *)
Definition lower (s : pystr) : pystr := lower_from [] s.

(** [s.upper()] *)
Definition upper (s : pystr) : pystr :=
  flat_map (fun c => if is_ascii c then [ascii_upper c] else uni_upper U c) s.

(** [\w] of [re] on a [str] pattern: alphanumeric or underscore. *)
Definition is_word (c : N) : bool :=
  if is_ascii c
  then ((48 <=? c) && (c <=? 57) || (65 <=? c) && (c <=? 90)
        || (97 <=? c) && (c <=? 122) || (c =? 95))%N
  else uni_isalnum U c.

(** [\d] of [re] on a [str] pattern: a decimal digit. *)
Definition is_digit (c : N) : bool :=
  if is_ascii c then ((48 <=? c) && (c <=? 57))%N else uni_isdecimal U c.
End WithTables.

Fixpoint startswith (s prefix : pystr) : bool :=
  match prefix, s with
  | [], _ => true
  | p :: prefix', c :: s' => (p =? c)%N && startswith s' prefix'
  | _ :: _, [] => false
  end.

(** [s.encode("ascii")]: the bytes, or [None] for [UnicodeEncodeError]. *)
Definition encode_ascii (s : pystr) : option (list Z) :=
  if forallb is_ascii s then Some (map Z.of_N s) else None.

(** [s.encode("ascii", "ignore").decode()] *)
Definition encode_ascii_ignore (s : pystr) : pystr := filter is_ascii s.

(** [str(n)] for an integer. *)
Definition of_Z (n : Z) : pystr := u (NilZero.string_of_int (Z.to_int n)).

End PyStr.

(* ------------------------------------------------------------------ *)
(** ** hashlib.md5 *)

Module MD5.

Definition w32 (x : Z) : Z := x mod 2 ^ 32.

Definition rotl32 (x c : Z) : Z :=
  w32 (Z.lor (Z.shiftl x c) (Z.shiftr x (32 - c))).

Definition not32 (x : Z) : Z := Z.lxor x 4294967295.

Definition shifts : list Z :=
  [7; 12; 17; 22; 7; 12; 17; 22; 7; 12; 17; 22; 7; 12; 17; 22;
   5; 9; 14; 20; 5; 9; 14; 20; 5; 9; 14; 20; 5; 9; 14; 20;
   4; 11; 16; 23; 4; 11; 16; 23; 4; 11; 16; 23; 4; 11; 16; 23;
   6; 10; 15; 21; 6; 10; 15; 21; 6; 10; 15; 21; 6; 10; 15; 21].

Definition sines : list Z :=
  [0xd76aa478; 0xe8c7b756; 0x242070db; 0xc1bdceee;
   0xf57c0faf; 0x4787c62a; 0xa8304613; 0xfd469501;
   0x698098d8; 0x8b44f7af; 0xffff5bb1; 0x895cd7be;
   0x6b901122; 0xfd987193; 0xa679438e; 0x49b40821;
   0xf61e2562; 0xc040b340; 0x265e5a51; 0xe9b6c7aa;
   0xd62f105d; 0x02441453; 0xd8a1e681; 0xe7d3fbc8;
   0x21e1cde6; 0xc33707d6; 0xf4d50d87; 0x455a14ed;
   0xa9e3e905; 0xfcefa3f8; 0x676f02d9; 0x8d2a4c8a;
   0xfffa3942; 0x8771f681; 0x6d9d6122; 0xfde5380c;
   0xa4beea44; 0x4bdecfa9; 0xf6bb4b60; 0xbebfbc70;
   0x289b7ec6; 0xeaa127fa; 0xd4ef3085; 0x04881d05;
   0xd9d4d039; 0xe6db99e5; 0x1fa27cf8; 0xc4ac5665;
   0xf4292244; 0x432aff97; 0xab9423a7; 0xfc93a039;
   0x655b59c3; 0x8f0ccc92; 0xffeff47d; 0x85845dd1;
   0x6fa87e4f; 0xfe2ce6e0; 0xa3014314; 0x4e0811a1;
   0xf7537e82; 0xbd3af235; 0x2ad7d2bb; 0xeb86d391].

(** Little-endian bytes of a word, and back. *)
Fixpoint le_bytes (n : nat) (x : Z) : list Z :=
  match n with
  | O => []
  | S n' => x mod 256 :: le_bytes n' (x / 256)
  end.

Fixpoint le_word (bs : list Z) : Z :=
  match bs with
  | [] => 0
  | b :: bs' => b + 256 * le_word bs'
  end.

(** The message, a 1 bit, zeros up to 56 mod 64, the bit length. *)
Definition pad (msg : list Z) : list Z :=
  let len := Z.of_nat (List.length msg) in
  let zeros := Z.to_nat ((55 - len) mod 64) in
  msg ++ [128] ++ repeat 0 zeros ++ le_bytes 8 ((8 * len) mod 2 ^ 64).

Fixpoint words (n : nat) (block : list Z) : list Z :=
  match n with
  | O => []
  | S n' => le_word (firstn 4 block) :: words n' (skipn 4 block)
  end.

Definition step (m : list Z) (st : Z * Z * Z * Z) (i : Z) : Z * Z * Z * Z :=
  let '(a, b, c, d) := st in
  let '(f, g) :=
    if i <? 16 then (Z.lor (Z.land b c) (Z.land (not32 b) d), i)
    else if i <? 32 then (Z.lor (Z.land d b) (Z.land (not32 d) c), (5 * i + 1) mod 16)
    else if i <? 48 then (Z.lxor (Z.lxor b c) d, (3 * i + 5) mod 16)
    else (Z.lxor c (Z.lor b (not32 d)), (7 * i) mod 16) in
  let f' := w32 (f + a + nth (Z.to_nat i) sines 0 + nth (Z.to_nat g) m 0) in
  (d, w32 (b + rotl32 f' (nth (Z.to_nat i) shifts 0)), b, c).

Definition block_rounds (st : Z * Z * Z * Z) (block : list Z) : Z * Z * Z * Z :=
  let m := words 16 block in
  let '(a, b, c, d) := st in
  let '(a', b', c', d') :=
    fold_left (step m) (map Z.of_nat (seq 0 64)) st in
  (w32 (a + a'), w32 (b + b'), w32 (c + c'), w32 (d + d')).

Fixpoint blocks (n : nat) (st : Z * Z * Z * Z) (bs : list Z) : Z * Z * Z * Z :=
  match n with
  | O => st
  | S n' => blocks n' (block_rounds st (firstn 64 bs)) (skipn 64 bs)
  end.

Definition digest (msg : list Z) : list Z :=
  let p := pad msg in
  let '(a, b, c, d) :=
    blocks (List.length p / 64)
      (0x67452301, 0xefcdab89, 0x98badcfe, 0x10325476) p in
  le_bytes 4 a ++ le_bytes 4 b ++ le_bytes 4 c ++ le_bytes 4 d.

Definition hex_digit (x : Z) : N :=
  if x <? 10 then Z.to_N (48 + x) else Z.to_N (87 + x).

(** [hashlib.md5(msg).hexdigest()] *)
Definition hexdigest (msg : list Z) : pystr :=
  flat_map (fun b => [hex_digit (b / 16); hex_digit (b mod 16)]) (digest msg).

End MD5.

(* ------------------------------------------------------------------ *)
(** ** JSON values, as [json.loads] and [resp.json()] build them *)

(** Numbers are the integers; a [dict] keeps its insertion order. *)
Inductive json :=
| JNull
| JBool (b : bool)
| JNum (n : Z)
| JStr (s : pystr)
| JArr (items : list json)
| JObj (fields : list (pystr * json)).

Inductive exn :=
| TokenRefreshed
| WyzeApiError (code : pystr) (msg : json)
| KeyError (key : pystr)
| TypeError
| AttributeError
| UnicodeEncodeError
| JSONDecodeError
| RequestException
| RecursionError
| OSError
| UnicodeDecodeError
| ValueError
| SystemExit (status : Z).

Inductive result (A : Type) :=
| Ok (a : A)
| Raise (e : exn).
Arguments Ok {A} a.
Arguments Raise {A} e.

Module Py.

(** [bool(v)] *)
Definition truthy (v : json) : bool :=
  match v with
  | JNull => false
  | JBool b => b
  | JNum n => negb (n =? 0)
  | JStr s => match s with [] => false | _ => true end
  | JArr l => match l with [] => false | _ => true end
  | JObj kv => match kv with [] => false | _ => true end
  end.

(** [a or b] *)
Definition or_ (a b : json) : json := if truthy a then a else b.

Fixpoint dict_get {A : Type} (k : pystr) (kv : list (pystr * A)) : option A :=
  match kv with
  | [] => None
  | (k', v) :: rest => if pystr_eqb k k' then Some v else dict_get k rest
  end.

(** [d[k] = v]: in place when the key exists, else at the end. *)
Fixpoint dict_set {A : Type} (k : pystr) (v : A) (kv : list (pystr * A))
  : list (pystr * A) :=
  match kv with
  | [] => [(k, v)]
  | (k', v') :: rest =>
      if pystr_eqb k k' then (k', v) :: rest else (k', v') :: dict_set k v rest
  end.

(** [del d[k]] *)
Fixpoint dict_del {A : Type} (k : pystr) (kv : list (pystr * A))
  : list (pystr * A) :=
  match kv with
  | [] => []
  | (k', v') :: rest =>
      if pystr_eqb k k' then dict_del k rest else (k', v') :: dict_del k rest
  end.

(** [d.update(e)] *)
Definition dict_update {A : Type} (kv new : list (pystr * A))
  : list (pystr * A) :=
  fold_left (fun acc p => dict_set (fst p) (snd p) acc) new kv.

(** [d.get(k, default)] *)
Definition get (d : json) (k : pystr) (default : json) : result json :=
  match d with
  | JObj kv => Ok (match dict_get k kv with Some v => v | None => default end)
  | _ => Raise AttributeError
  end.

(** [d[k]] with a text key *)
Definition index (d : json) (k : pystr) : result json :=
  match d with
  | JObj kv => match dict_get k kv with Some v => Ok v | None => Raise (KeyError k) end
  | _ => Raise TypeError
  end.

(** [v == s] for a text [s] *)
Definition eq_str (v : json) (s : pystr) : bool :=
  match v with JStr t => pystr_eqb t s | _ => false end.

(** [v == n] for an integer [n]; [True] and [False] are 1 and 0. *)
Definition eq_int (v : json) (n : Z) : bool :=
  match v with
  | JNum m => m =? n
  | JBool b => (if b then 1 else 0) =? n
  | _ => false
  end.

(** [for x in v]: the elements of a list, the keys of a dict, the
    characters of a text. *)
Definition iter (v : json) : result (list json) :=
  match v with
  | JArr l => Ok l
  | JObj kv => Ok (map (fun p => JStr (fst p)) kv)
  | JStr s => Ok (map (fun c => JStr [c]) s)
  | _ => Raise TypeError
  end.

(** Lists and dicts cannot be hashed. *)
Definition hashable (v : json) : bool :=
  match v with JArr _ | JObj _ => false | _ => true end.

Definition join (sep : pystr) (parts : list pystr) : pystr :=
  match parts with
  | [] => []
  | p :: ps => p ++ flat_map (fun q => sep ++ q) ps
  end.

(** [str(v)].  Inside a list or dict Python prints [repr]; the quoting
    of nested text is kept to plain single quotes here, which the source
    never inspects: it compares [str(code)] with digit strings only. *)
Fixpoint str (v : json) : pystr :=
  let repr (x : json) : pystr :=
    match x with
    | JStr s => u "'" ++ s ++ u "'"
    | _ => str x
    end in
  match v with
  | JNull => u "None"
  | JBool true => u "True"
  | JBool false => u "False"
  | JNum n => PyStr.of_Z n
  | JStr s => s
  | JArr l => u "[" ++ join (u ", ") (map repr l) ++ u "]"
  | JObj kv =>
      u "{" ++ join (u ", ")
        (map (fun p => u "'" ++ fst p ++ u "': " ++ repr (snd p)) kv) ++ u "}"
  end.

End Py.

(* ------------------------------------------------------------------ *)
(** ** Config *)

Definition APP_VERSION : pystr := u "3.1.0.6".
Definition IOS_VERSION : pystr := u "17.1.1".
Definition USER_AGENT : pystr :=
  u "Wyze/" ++ APP_VERSION ++ u " (iPhone; iOS " ++ IOS_VERSION ++ u "; Scale/3.00)".
Definition AUTH_API : pystr := u "https://auth-prod.api.wyze.com".
Definition WYZE_API : pystr := u "https://api.wyzecam.com/app".

(** [SC_SV]: the signing pair of each endpoint kind. *)
Definition SC_SV : list (pystr * (pystr * pystr)) :=
  [ (u "default",
      (u "9f275790cab94a72bd206c8876429f3c", u "e1fe392906d54888a9b99b88de4162d7"));
    (u "run_action",
      (u "01dd431d098546f9baf5233724fa2ee2", u "2c0edc06d4c5465b8c55af207144f0d9"));
    (u "get_device_Info",
      (u "01dd431d098546f9baf5233724fa2ee2", u "0bc2c3bedf6c4be688754c9ad42bbf2e"));
    (u "set_device_Info",
      (u "01dd431d098546f9baf5233724fa2ee2", u "e8e1db44128f4e31a2047a8f5f80b2bd")) ].

Definition MODEL_NAMES : list (pystr * pystr) :=
  [ (u "WYZEC1", u "V1"); (u "WYZEC1-JZ", u "V2"); (u "WYZE_CAKP2JFUS", u "V3");
    (u "HL_CAM4", u "V4"); (u "HL_CAM3P", u "V3 Pro"); (u "WYZECP1_JEF", u "Pan");
    (u "HL_PAN2", u "Pan V2"); (u "HL_PAN3", u "Pan V3"); (u "HL_PANP", u "Pan Pro");
    (u "HL_CFL2", u "Floodlight V2"); (u "WYZEDB3", u "Doorbell");
    (u "HL_DB2", u "Doorbell V2"); (u "GW_BE1", u "Doorbell Pro");
    (u "AN_RDB1", u "Doorbell Pro 2"); (u "GW_GC1", u "OG"); (u "GW_GC2", u "OG 3X");
    (u "WVOD1", u "Outdoor"); (u "HL_WCO2", u "Outdoor V2");
    (u "AN_RSCW", u "Battery Cam Pro"); (u "LD_CFP", u "Floodlight Pro") ].

Definition PAN_CAMS : list pystr :=
  [u "WYZECP1_JEF"; u "HL_PAN2"; u "HL_PAN3"; u "HL_PANP"].
Definition PRO_CAMS : list pystr :=
  [u "HL_CAM3P"; u "HL_PANP"; u "HL_CAM4"; u "HL_DB2"; u "HL_CFL2"].

Definition CACHE_TTL : Q := inject_Z 120.

(* ------------------------------------------------------------------ *)
(** ** Pure helpers *)

Section Pure.
Variable U : unicode_db.

(** The [for prefix in ("hashed:", "md5:")] loop of [_hash_password]. *)
Fixpoint marked_value (prefixes : list pystr) (encoded : pystr) : option pystr :=
  match prefixes with
  | [] => None
  | prefix :: others =>
      if PyStr.startswith (PyStr.lower U encoded) prefix
      then Some (skipn (List.length prefix) encoded)
      else marked_value others encoded
  end.

(** The [for _ in range(n)] loop of [_hash_password]. *)
Fixpoint md5_rounds (n : nat) (encoded : pystr) : result pystr :=
  match n with
  | O => Ok encoded
  | S n' =>
      match PyStr.encode_ascii encoded with
      | None => Raise UnicodeEncodeError
      | Some bytes => md5_rounds n' (MD5.hexdigest bytes)
      end
  end.

Definition _hash_password (password : pystr) : result pystr :=
  let encoded := PyStr.strip password in
  match marked_value [u "hashed:"; u "md5:"] encoded with
  | Some rest => Ok rest
  | None => md5_rounds 3 encoded
  end.

(** [re.sub(r"[^\-\w+]", "", s)] *)
Definition sub_non_uri (s : pystr) : pystr :=
  filter (fun c => (c =? 45)%N || PyStr.is_word U c || (c =? 43)%N) s.

Definition _name_uri (nickname mac : json) : result pystr :=
  match Py.or_ nickname mac with
  | JStr name =>
      let uri :=
        PyStr.lower U
          (sub_non_uri (PyStr.replace_space_hyphen (PyStr.strip name))) in
      Ok (PyStr.encode_ascii_ignore uri)
  | _ => Raise AttributeError
  end.

(** *** The relay pattern of [get_webrtc_signaling]
    Under [re.match]: a group [turns?:], four groups [\d+] with a hyphen
    after each of the first three, the literal [\.t-], then [[^:]+], then
    a last group made of a colon and "dot star" (the rest of the line).
    Every repetition is followed by a character outside its class, so
    the greedy match is the only one. *)

Fixpoint span (p : N -> bool) (s : pystr) : pystr * pystr :=
  match s with
  | c :: rest =>
      if p c then let '(a, b) := span p rest in (c :: a, b) else ([], s)
  | [] => ([], [])
  end.

(** A literal at the head of [s]; what follows it. *)
Definition literal (lit s : pystr) : option pystr :=
  if PyStr.startswith s lit then Some (skipn (List.length lit) s) else None.

(** [turns?:] *)
Definition scheme_of (s : pystr) : option (pystr * pystr) :=
  match literal (u "turns:") s with
  | Some rest => Some (u "turns:", rest)
  | None =>
      match literal (u "turn:") s with
      | Some rest => Some (u "turn:", rest)
      | None => None
      end
  end.

(** [(\d+)] and the literal after it *)
Definition digits_then (lit s : pystr) : option (pystr * pystr) :=
  let '(ds, rest) := span (PyStr.is_digit U) s in
  match ds with
  | [] => None
  | _ => match literal lit rest with
         | Some rest' => Some (ds, rest')
         | None => None
         end
  end.

(** [[^:]+] and the last group: the colon and what follows on its line *)
Definition host_tail (s : pystr) : option pystr :=
  let '(host, rest) := span (fun c => negb (c =? 58)%N) s in
  match host, rest with
  | _ :: _, colon :: after =>
      Some (colon :: fst (span (fun c => negb (c =? 10)%N) after))
  | _, _ => None
  end.

(** The six groups of a match. *)
Definition match_relay (urls : pystr)
  : option (pystr * pystr * pystr * pystr * pystr * pystr) :=
  match scheme_of urls with
  | None => None
  | Some (g1, r1) =>
  match digits_then (u "-") r1 with
  | None => None
  | Some (g2, r2) =>
  match digits_then (u "-") r2 with
  | None => None
  | Some (g3, r3) =>
  match digits_then (u "-") r3 with
  | None => None
  | Some (g4, r4) =>
  match digits_then (u ".t-") r4 with
  | None => None
  | Some (g5, r5) =>
  match host_tail r5 with
  | None => None
  | Some g6 => Some (g1, g2, g3, g4, g5, g6)
  end end end end end end.

(** [f"{m.group(1)}{m.group(2)}.{m.group(3)}.{m.group(4)}.{m.group(5)}{m.group(6)}"] *)
Definition dotted (m : pystr * pystr * pystr * pystr * pystr * pystr) : pystr :=
  let '(g1, g2, g3, g4, g5, g6) := m in
  g1 ++ g2 ++ u "." ++ g3 ++ u "." ++ g4 ++ u "." ++ g5 ++ g6.

(** [sub in s] for texts *)
Fixpoint contains (sub s : pystr) : bool :=
  PyStr.startswith s sub
  || match s with [] => false | _ :: rest => contains sub rest end.

(** The body of the [for s in ... servers] loop of
    [get_webrtc_signaling], on one descriptor. *)
Definition normalize_server (s : json) : result json :=
  match s with
  | JObj fields =>
      let fields1 :=
        match Py.dict_get (u "url") fields with
        | Some url => Py.dict_set (u "urls") url (Py.dict_del (u "url") fields)
        | None => fields
        end in
      let urls :=
        match Py.dict_get (u "urls") fields1 with
        | Some v => v
        | None => JStr []
        end in
      match urls with
      | JStr t =>
          match match_relay t with
          | Some m => Ok (JObj (Py.dict_set (u "urls") (JStr (dotted m)) fields1))
          | None => Ok (JObj fields1)
          end
      | _ => Raise TypeError
      end
  | JStr _ => Raise AttributeError
  | JArr items =>
      if existsb (fun x => Py.eq_str x (u "url")) items
      then Raise TypeError else Raise AttributeError
  | _ => Raise TypeError
  end.

End Pure.

(* ------------------------------------------------------------------ *)
(** ** The process and its surroundings *)

Inductive method := GET | POST.

Record request := {
  rq_method : method;
  rq_url : pystr;
  rq_headers : list (pystr * pystr);
  rq_json : option json
}.

(** What [requests] hands back: [body] is [resp.json()], absent when the
    body does not decode. *)
Record response := {
  status_code : Z;
  body : option json;
  content : list Z;
  content_type : option pystr
}.

Inductive reply :=
| ConnectionFailed
| Replied (r : response).

(** [TOKEN_FILE] as [_load_tokens] finds it: not there; there but not to
    be read (a directory, no permission: [exists] or [read_text] raises
    [OSError]); there with bytes that do not decode in the locale's
    encoding; there with text [json.loads] rejects; there with the text of
    a value. *)
Inductive file_state :=
| FileMissing
| FileUnreadable
| FileUndecodable
| FileCorrupt
| FileHolds (j : json).

(** What a [write_text] of the token file does: it writes the text, or it
    raises [OSError] and leaves the file as it was ([None]) or in some
    other state (truncated, partly written). *)
Inductive write_outcome :=
| Written
| WriteFails (damage : option file_state).

(** What a [print] does: it writes the line, or raises: the encoding of
    the standard output does not have a character ([UnicodeEncodeError]),
    the output is a broken pipe ([OSError]) or is closed ([ValueError]). *)
Inductive print_error :=
| NotEncodable
| BrokenPipe
| OutputClosed.

Inductive print_outcome :=
| Printed
| PrintFails (e : print_error).

Definition print_exn (e : print_error) : exn :=
  match e with
  | NotEncodable => UnicodeEncodeError
  | BrokenPipe => OSError
  | OutputClosed => ValueError
  end.

(** The module globals [_creds], [_cameras], [_cameras_ts], the token
    file, and the trace of what the process did to the outside: the
    requests it issued (oldest first), how often it read the clock, drew a
    UUID or wrote the token file, and the lines it printed. *)
Record world := {
  creds : json;
  cameras : list json;
  cameras_ts : Q;
  token_file : file_state;
  sent : list request;
  clock_reads : nat;
  uuids_drawn : nat;
  writes : nat;
  printed : list pystr
}.

(** The outside: the interpreter's Unicode tables, the remote servers
    (a reply for each request, given the requests before it), the clock
    ([time.time()] at its n-th reading, in seconds), [uuid.uuid4],
    [urllib.parse.unquote], the disk (what the n-th write of the token
    file does), the standard output (what printing a line does, given the
    lines printed before) and [int] on a text ([None]: [ValueError]). *)
Record env := {
  ucd : unicode_db;
  vendor : list request -> request -> reply;
  clock : nat -> Q;
  uuid4 : nat -> pystr;
  unquote : pystr -> pystr;
  disk : nat -> write_outcome;
  stdout : list pystr -> pystr -> print_outcome;
  int_of_text : pystr -> option Z
}.

Definition set_creds (c : json) (w : world) : world :=
  {| creds := c; cameras := cameras w; cameras_ts := cameras_ts w;
     token_file := token_file w; sent := sent w;
     clock_reads := clock_reads w; uuids_drawn := uuids_drawn w;
     writes := writes w; printed := printed w |}.

Definition set_cache (cams : list json) (ts : Q) (w : world) : world :=
  {| creds := creds w; cameras := cams; cameras_ts := ts;
     token_file := token_file w; sent := sent w;
     clock_reads := clock_reads w; uuids_drawn := uuids_drawn w;
     writes := writes w; printed := printed w |}.

Definition set_cameras_ts (ts : Q) (w : world) : world :=
  set_cache (cameras w) ts w.

Definition set_token_file (f : file_state) (w : world) : world :=
  {| creds := creds w; cameras := cameras w; cameras_ts := cameras_ts w;
     token_file := f; sent := sent w;
     clock_reads := clock_reads w; uuids_drawn := uuids_drawn w;
     writes := writes w; printed := printed w |}.

Definition log_request (rq : request) (w : world) : world :=
  {| creds := creds w; cameras := cameras w; cameras_ts := cameras_ts w;
     token_file := token_file w; sent := sent w ++ [rq];
     clock_reads := clock_reads w; uuids_drawn := uuids_drawn w;
     writes := writes w; printed := printed w |}.

Definition tick_clock (w : world) : world :=
  {| creds := creds w; cameras := cameras w; cameras_ts := cameras_ts w;
     token_file := token_file w; sent := sent w;
     clock_reads := S (clock_reads w); uuids_drawn := uuids_drawn w;
     writes := writes w; printed := printed w |}.

Definition tick_uuid (w : world) : world :=
  {| creds := creds w; cameras := cameras w; cameras_ts := cameras_ts w;
     token_file := token_file w; sent := sent w;
     clock_reads := clock_reads w; uuids_drawn := S (uuids_drawn w);
     writes := writes w; printed := printed w |}.

Definition tick_write (w : world) : world :=
  {| creds := creds w; cameras := cameras w; cameras_ts := cameras_ts w;
     token_file := token_file w; sent := sent w;
     clock_reads := clock_reads w; uuids_drawn := uuids_drawn w;
     writes := S (writes w); printed := printed w |}.

Definition log_line (line : pystr) (w : world) : world :=
  {| creds := creds w; cameras := cameras w; cameras_ts := cameras_ts w;
     token_file := token_file w; sent := sent w;
     clock_reads := clock_reads w; uuids_drawn := uuids_drawn w;
     writes := writes w; printed := printed w ++ [line] |}.

(** *** Computations: a state that survives a raised exception *)

Definition M (A : Type) : Type := world -> result A * world.

Definition ret {A} (a : A) : M A := fun w => (Ok a, w).

Definition bind {A B} (c : M A) (k : A -> M B) : M B :=
  fun w =>
    match c w with
    | (Ok a, w') => k a w'
    | (Raise e, w') => (Raise e, w')
    end.

Definition raise {A} (e : exn) : M A := fun w => (Raise e, w).

Definition lift {A} (r : result A) : M A := fun w => (r, w).

Definition gets {A} (f : world -> A) : M A := fun w => (Ok (f w), w).

Definition modify (f : world -> world) : M unit := fun w => (Ok tt, f w).

(** [try: c  except TokenRefreshed: handler] *)
Definition except_TokenRefreshed {A} (c handler : M A) : M A :=
  fun w =>
    match c w with
    | (Raise TokenRefreshed, w') => handler w'
    | other => other
    end.

(** [try: c  except Exception as e: handler(e)]; [SystemExit] is not an
    [Exception]. *)
Definition except_Exception {A} (c : M A) (handler : exn -> M A) : M A :=
  fun w =>
    match c w with
    | (Raise (SystemExit n), w') => (Raise (SystemExit n), w')
    | (Raise e, w') => handler e w'
    | other => other
    end.

Declare Scope m_scope.
Delimit Scope m_scope with M.
Notation "x <- c ;; k" := (bind c (fun x => k))
  (at level 61, c at next level, right associativity) : m_scope.
Notation "c ;;; k" := (bind c (fun _ => k))
  (at level 61, right associativity) : m_scope.

Definition rbind {A B} (r : result A) (k : A -> result B) : result B :=
  match r with
  | Ok a => k a
  | Raise e => Raise e
  end.

Declare Scope result_scope.
Delimit Scope result_scope with R.
Notation "x <-- c ;; k" := (rbind c (fun x => k))
  (at level 61, c at next level, right associativity) : result_scope.

(** [int(x)] of a float: towards zero. *)
Definition py_int (x : Q) : Z := Z.quot (Qnum x) (Zpos (Qden x)).

(** [d.get(k, default)] where evaluating [default] can raise: Python
    finds [d.get] first, then evaluates the argument. *)
Definition get_or (d : json) (k : pystr) (default : M json) : M json :=
  match d with
  | JObj kv =>
      bind default (fun dflt =>
        ret (match Py.dict_get k kv with Some v => v | None => dflt end))
  | _ => raise AttributeError
  end.

(** [d[k] = v] on the global [_creds]. *)
Definition creds_setitem (k : pystr) (v : json) : M unit :=
  fun w =>
    match creds w with
    | JObj kv => (Ok tt, set_creds (JObj (Py.dict_set k v kv)) w)
    | _ => (Raise TypeError, w)
    end.

Definition opt_truthy (o : option pystr) : bool :=
  match o with Some (_ :: _) => true | _ => false end.

Definition opt_text (o : option pystr) : pystr :=
  match o with Some s => s | None => [] end.

(* ------------------------------------------------------------------ *)
(** ** Wyze API helpers *)

Local Open Scope m_scope.

Section Server.
Variable E : env.

(** [time.time()] *)
Definition time_time : M Q :=
  fun w => (Ok (clock E (clock_reads w)), tick_clock w).

(** [requests.post(url, json=.., headers=..)] and [requests.get]: the
    request is recorded, then the outside answers or the call raises. *)
Definition requests_send (rq : request) : M response :=
  fun w =>
    match vendor E (sent w) rq with
    | ConnectionFailed => (Raise RequestException, log_request rq w)
    | Replied r => (Ok r, log_request rq w)
    end.

Definition requests_post (url : pystr) (payload : json)
    (headers : list (pystr * pystr)) : M response :=
  requests_send {| rq_method := POST; rq_url := url;
                   rq_headers := headers; rq_json := Some payload |}.

Definition requests_get (url : pystr) (headers : list (pystr * pystr))
  : M response :=
  requests_send {| rq_method := GET; rq_url := url;
                   rq_headers := headers; rq_json := None |}.

(** [resp.json()] *)
Definition resp_json (resp : response) : result json :=
  match body resp with
  | Some j => Ok j
  | None => Raise JSONDecodeError
  end.

Definition _headers (phone_id key_id api_key : option pystr)
  : list (pystr * pystr) :=
  if negb (opt_truthy phone_id) then
    [ (u "user-agent", USER_AGENT); (u "appversion", APP_VERSION);
      (u "env", u "prod") ]
  else if opt_truthy key_id && opt_truthy api_key then
    [ (u "apikey", opt_text api_key); (u "keyid", opt_text key_id);
      (u "user-agent", u "wyze-drift-server/1.0") ]
  else
    [ (u "x-api-key", u "WMXHYf79Nr5gIlt3r0r7p9Tcw5bvs6BB4U8O8nGJ");
      (u "phone-id", opt_text phone_id);
      (u "user-agent", u "wyze_ios_" ++ APP_VERSION) ].

Definition _payload (endpoint : pystr) : M (list (pystr * json)) :=
  let values :=
    match Py.dict_get endpoint SC_SV with
    | Some v => v
    | None =>
        (u "9f275790cab94a72bd206c8876429f3c", u "e1fe392906d54888a9b99b88de4162d7")
    end in
  now <- time_time ;;
  c <- gets creds ;;
  access_token <- lift (Py.index c (u "access_token")) ;;
  phone_id <- lift (Py.index c (u "phone_id")) ;;
  ret [ (u "sc", JStr (fst values)); (u "sv", JStr (snd values));
        (u "app_ver", JStr (u "com.hualai.WyzeCam___" ++ APP_VERSION));
        (u "app_version", JStr APP_VERSION);
        (u "app_name", JStr (u "com.hualai.WyzeCam"));
        (u "phone_system_type", JNum 1);
        (u "ts", JNum (py_int (now * 1000)));
        (u "access_token", access_token);
        (u "phone_id", phone_id) ].

(** [TOKEN_FILE.write_text(json.dumps(_creds, indent=2))] *)
Definition _save_tokens : M unit :=
  fun w =>
    match disk E (writes w) with
    | Written => (Ok tt, tick_write (set_token_file (FileHolds (creds w)) w))
    | WriteFails None => (Raise OSError, tick_write w)
    | WriteFails (Some f) => (Raise OSError, tick_write (set_token_file f w))
    end.

Definition _load_tokens : M bool :=
  fun w =>
    match token_file w with
    | FileMissing => (Ok false, w)
    | FileUnreadable => (Raise OSError, w)
    | FileUndecodable => (Raise UnicodeDecodeError, w)
    | FileCorrupt => (Raise JSONDecodeError, w)
    | FileHolds j => (Ok true, set_creds j w)
    end.

(** [_refresh_token], with the [_validate] it calls as an argument: the
    two functions call each other. *)
Definition refresh_token_with (validate : response -> M json) : M unit :=
  payload <- _payload (u "default") ;;
  c <- gets creds ;;
  refresh_token <- lift (Py.index c (u "refresh_token")) ;;
  let payload := Py.dict_set (u "refresh_token") refresh_token payload in
  resp <- requests_post (WYZE_API ++ u "/user/refresh_token")
            (JObj payload) (_headers None None None) ;;
  data <- validate resp ;;
  a <- get_or data (u "access_token")
         (c <- gets creds ;; lift (Py.index c (u "access_token"))) ;;
  creds_setitem (u "access_token") a ;;;
  r <- get_or data (u "refresh_token")
         (c <- gets creds ;; lift (Py.index c (u "refresh_token"))) ;;
  creds_setitem (u "refresh_token") r ;;;
  _save_tokens.

(** [_validate].  [depth] is the number of nested [_validate] frames the
    interpreter still allows; Python raises [RecursionError] beyond. *)
Fixpoint _validate (depth : nat) (resp : response) : M json :=
  match depth with
  | O => raise RecursionError
  | S depth' =>
      data <- lift (resp_json resp) ;;
      dflt <- lift (Py.get data (u "errorCode") (JNum 0)) ;;
      v <- lift (Py.get data (u "code") dflt) ;;
      let code := Py.str v in
      if pystr_eqb code (u "2001") then
        refresh_token_with (_validate depth') ;;;
        raise TokenRefreshed
      else if negb (pystr_eqb code (u "1") || pystr_eqb code (u "0")) then
        d <- lift (Py.get data (u "description") (JStr code)) ;;
        msg <- lift (Py.get data (u "msg") d) ;;
        raise (WyzeApiError code msg)
      else
        lift (Py.get data (u "data") data)
  end.

Definition _refresh_token (depth : nat) : M unit :=
  refresh_token_with (_validate depth).

Definition wyze_login (depth : nat) (email password api_key key_id : pystr)
  : M json :=
  phone_id <- (fun w => (Ok (uuid4 E (uuids_drawn w)), tick_uuid w)) ;;
  let headers := _headers (Some phone_id) (Some key_id) (Some api_key) in
  hashed <- lift (_hash_password (ucd E) password) ;;
  let payload :=
    JObj [ (u "email", JStr (PyStr.strip email)); (u "password", JStr hashed) ] in
  resp <- requests_post (AUTH_API ++ u "/api/user/login") payload headers ;;
  data <- _validate depth resp ;;
  match data with
  | JObj kv =>
      let data := JObj (Py.dict_set (u "phone_id") (JStr phone_id) kv) in
      modify (set_creds data) ;;;
      _save_tokens ;;;
      ret data
  | _ => raise TypeError
  end.

(** *** The device cache *)

Local Open Scope result_scope.

(** [MODEL_NAMES.get(model, model)] *)
Definition model_label (model : json) : result json :=
  if Py.hashable model then
    Ok match model with
       | JStr m => match Py.dict_get m MODEL_NAMES with
                   | Some label => JStr label
                   | None => model
                   end
       | _ => model
       end
  else Raise TypeError.

(** [model in PAN_CAMS], [model in PRO_CAMS] *)
Definition in_set (model : json) (set : list pystr) : result bool :=
  if Py.hashable model then Ok (existsb (Py.eq_str model) set)
  else Raise TypeError.

(** One turn of the [for dev in ...] loop of [fetch_cameras]: the record
    appended, or nothing on [continue]. *)
Definition camera_of (dev : json) : result (option json) :=
  product_type <-- Py.get dev (u "product_type") JNull ;;
  if negb (Py.eq_str product_type (u "Camera")) then Ok None else
  mac <-- Py.get dev (u "mac") JNull ;;
  model <-- Py.get dev (u "product_model") JNull ;;
  if negb (Py.truthy mac) || negb (Py.truthy model) then Ok None else
  params <-- Py.get dev (u "device_params") (JObj []) ;;
  thumbs <-- Py.get params (u "camera_thumbnails") (JObj []) ;;
  nickname <-- Py.get dev (u "nickname") mac ;;
  name_uri <-- _name_uri (ucd E) nickname mac ;;
  model_name <-- model_label model ;;
  firmware_ver <-- Py.get dev (u "firmware_ver") JNull ;;
  ip <-- Py.get params (u "ip") JNull ;;
  thumbnail <-- Py.get thumbs (u "thumbnails_url") JNull ;;
  is_pan <-- in_set model PAN_CAMS ;;
  is_2k <-- in_set model PRO_CAMS ;;
  conn <-- Py.get dev (u "device_conn_state") (JNum 0) ;;
  Ok (Some (JObj
    [ (u "mac", mac); (u "nickname", nickname); (u "name_uri", JStr name_uri);
      (u "model", model); (u "model_name", model_name);
      (u "firmware_ver", firmware_ver); (u "ip", ip);
      (u "thumbnail", thumbnail); (u "is_pan", JBool is_pan);
      (u "is_2k", JBool is_2k); (u "online", JBool (Py.eq_int conn 1)) ])).

Fixpoint cameras_of (devs : list json) : result (list json) :=
  match devs with
  | [] => Ok []
  | dev :: rest =>
      cam <-- camera_of dev ;;
      cams <-- cameras_of rest ;;
      Ok match cam with Some c => c :: cams | None => cams end
  end.

Local Close Scope result_scope.

(** The device-listing call of [fetch_cameras]. *)
Definition post_object_list (depth : nat) : M json :=
  payload <- _payload (u "default") ;;
  resp <- requests_post (WYZE_API ++ u "/v2/home_page/get_object_list")
            (JObj payload) (_headers None None None) ;;
  _validate depth resp.

Definition fetch_cameras (depth : nat) : M (list json) :=
  c <- gets creds ;;
  if negb (Py.truthy c) then ret [] else
  now <- time_time ;;
  cached <- gets cameras ;;
  ts <- gets cameras_ts ;;
  if match cached with [] => false | _ => true end
     && (if Qlt_le_dec (now - ts) CACHE_TTL then true else false)
  then ret cached else
  data <- except_TokenRefreshed (post_object_list depth) (post_object_list depth) ;;
  device_list <- lift (Py.get data (u "device_list") (JArr [])) ;;
  devs <- lift (Py.iter device_list) ;;
  cams <- lift (cameras_of devs) ;;
  modify (set_cache cams now) ;;;
  ret cams.

End Server.

(* ------------------------------------------------------------------ *)
(** ** Vendor calls *)

Section Calls.
Variable E : env.

Definition run_action (depth : nat) (mac model : json) (action : pystr)
  : M json :=
  base <- _payload E (u "run_action") ;;
  let payload :=
    Py.dict_update base
      [ (u "action_params", JObj []); (u "action_key", JStr action);
        (u "instance_id", mac); (u "provider_key", model);
        (u "custom_string", JStr []) ] in
  except_TokenRefreshed
    (resp <- requests_post E (WYZE_API ++ u "/v2/auto/run_action")
               (JObj payload) (_headers None None None) ;;
     _validate E depth resp)
    (fresh <- _payload E (u "run_action") ;;
     let payload := Py.dict_update payload fresh in
     resp <- requests_post E (WYZE_API ++ u "/v2/auto/run_action")
               (JObj payload) (_headers None None None) ;;
     _validate E depth resp).

Definition set_property (depth : nat) (mac model : json) (pid : pystr)
    (pvalue : json) : M json :=
  let params :=
    [ (u "pid", JStr (PyStr.upper (ucd E) pid)); (u "pvalue", JStr (Py.str pvalue));
      (u "device_mac", mac); (u "device_model", model) ] in
  base <- _payload E (u "set_device_Info") ;;
  let params := Py.dict_update params base in
  except_TokenRefreshed
    (resp <- requests_post E (WYZE_API ++ u "/v2/device/set_property")
               (JObj params) (_headers None None None) ;;
     _validate E depth resp)
    (fresh <- _payload E (u "set_device_Info") ;;
     let params := Py.dict_update params fresh in
     resp <- requests_post E (WYZE_API ++ u "/v2/device/set_property")
               (JObj params) (_headers None None None) ;;
     _validate E depth resp).

Definition get_device_info (depth : nat) (mac model : json) : M json :=
  let params := [ (u "device_mac", mac); (u "device_model", model) ] in
  base <- _payload E (u "get_device_Info") ;;
  let params := Py.dict_update params base in
  except_TokenRefreshed
    (resp <- requests_post E (WYZE_API ++ u "/v2/device/get_device_Info")
               (JObj params) (_headers None None None) ;;
     _validate E depth resp)
    (fresh <- _payload E (u "get_device_Info") ;;
     let params := Py.dict_update params fresh in
     resp <- requests_post E (WYZE_API ++ u "/v2/device/get_device_Info")
               (JObj params) (_headers None None None) ;;
     _validate E depth resp).

(** [f"Bearer {_creds['access_token']}"] *)
Definition bearer : M pystr :=
  c <- gets creds ;;
  token <- lift (Py.index c (u "access_token")) ;;
  ret (u "Bearer " ++ Py.str token).

Fixpoint normalize_servers (servers : list json) : result (list json) :=
  match servers with
  | [] => Ok []
  | s :: rest =>
      rbind (normalize_server (ucd E) s) (fun s' =>
      rbind (normalize_servers rest) (fun rest' => Ok (s' :: rest')))
  end.

(** [urllib.parse.unquote(v)]: it looks for a percent sign in [v], then
    reads [v.split] when there is none, and splits with a regexp when
    there is one. *)
Definition unquote_value (v : json) : result json :=
  match v with
  | JStr s => Ok (JStr (unquote E s))
  | JArr items =>
      if existsb (fun x => Py.eq_str x (u "%")) items
      then Raise TypeError else Raise AttributeError
  | JObj fields =>
      match Py.dict_get (u "%") fields with
      | Some _ => Raise TypeError
      | None => Raise AttributeError
      end
  | _ => Raise TypeError
  end.

Definition get_webrtc_signaling (depth : nat) (mac : json) : M json :=
  let headers :=
    Py.dict_set (u "content-type") (u "application/json") (_headers None None None) in
  auth <- bearer ;;
  let headers := Py.dict_set (u "authorization") auth headers in
  let url :=
    u "https://webrtc.api.wyze.com/signaling/device/" ++ Py.str mac
      ++ u "?use_trickle=true" in
  data <- except_TokenRefreshed
    (resp <- requests_get E url headers ;;
     _validate E depth resp)
    (auth <- bearer ;;
     let headers := Py.dict_set (u "authorization") auth headers in
     resp <- requests_get E url headers ;;
     _validate E depth resp) ;;
  results <- lift (Py.get data (u "results") (JObj [])) ;;
  servers <- lift (Py.get results (u "servers") (JArr [])) ;;
  items <- lift (Py.iter servers) ;;
  items' <- lift (normalize_servers items) ;;
  c <- gets creds ;;
  client_id <- lift (Py.index c (u "phone_id")) ;;
  results <- lift (Py.index data (u "results")) ;;
  signaling_url <- lift (Py.index results (u "signalingUrl")) ;;
  signaling_url <- lift (unquote_value signaling_url) ;;
  servers <- lift (Py.index results (u "servers")) ;;
  let servers :=
    match servers with
    | JArr _ => JArr items'
    | other => other
    end in
  ret (JObj [ (u "ClientId", client_id); (u "signalingUrl", signaling_url);
              (u "servers", servers) ]).

End Calls.

(* ------------------------------------------------------------------ *)
(** ** Flask app *)

(** What a route returns: [jsonify(body), status], the same for a body
    built from a caught exception ([{"error": str(e), **extra}]), or a
    raw [Response]. *)
Inductive flask_response :=
| Jsonify (status : Z) (payload : json)
| JsonifyError (status : Z) (e : exn) (extra : list (pystr * json))
| RawResponse (data : list Z) (ctype : pystr).

Section Routes.
Variable E : env.

(** The scan of [_find_camera]; [JNull] is [None]. *)
Fixpoint scan_cameras (name_uri : pystr) (cams : list json) : result json :=
  match cams with
  | [] => Ok JNull
  | cam :: rest =>
      rbind (Py.index cam (u "name_uri")) (fun v =>
        if Py.eq_str v name_uri then Ok cam else scan_cameras name_uri rest)
  end.

Definition _find_camera (depth : nat) (name_uri : pystr) : M json :=
  cams <- fetch_cameras E depth ;;
  lift (scan_cameras name_uri cams).

Definition api_cameras (depth : nat) : M flask_response :=
  cams <- fetch_cameras E depth ;;
  ret (Jsonify 200 (JArr cams)).

Definition not_found : flask_response :=
  Jsonify 404 (JObj [ (u "error", JStr (u "Camera not found")) ]).

Definition api_camera_detail (depth : nat) (name_uri : pystr)
  : M flask_response :=
  cam <- _find_camera depth name_uri ;;
  if negb (Py.truthy cam) then ret not_found
  else ret (Jsonify 200 cam).

Definition api_camera_info (depth : nat) (name_uri : pystr)
  : M flask_response :=
  cam <- _find_camera depth name_uri ;;
  if negb (Py.truthy cam) then ret not_found
  else
    except_Exception
      (mac <- lift (Py.index cam (u "mac")) ;;
       model <- lift (Py.index cam (u "model")) ;;
       info <- get_device_info E depth mac model ;;
       ret (Jsonify 200 info))
      (fun e => ret (JsonifyError 500 e [])).

Definition PROP_MAP : list (pystr * pystr) :=
  [ (u "status_light", u "P1"); (u "night_vision", u "P2");
    (u "motion_detection", u "P13"); (u "motion_tracking", u "P27") ].

Definition ACTIONS : list (pystr * pystr) :=
  [ (u "power_on", u "power_on"); (u "power_off", u "power_off");
    (u "turn_on", u "power_on"); (u "turn_off", u "power_off");
    (u "restart", u "restart") ].

Definition success (result : json) : flask_response :=
  Jsonify 200 (JObj [ (u "status", JStr (u "success")); (u "result", result) ]).

(** [value_arg] is [request.args.get("value")]. *)
Definition api_camera_action (depth : nat) (name_uri action : pystr)
    (value_arg : option pystr) : M flask_response :=
  cam <- _find_camera depth name_uri ;;
  if negb (Py.truthy cam) then ret not_found
  else
    match Py.dict_get action PROP_MAP with
    | Some pid =>
        let value := match value_arg with Some v => v | None => u "1" end in
        except_Exception
          (mac <- lift (Py.index cam (u "mac")) ;;
           model <- lift (Py.index cam (u "model")) ;;
           result <- set_property E depth mac model pid (JStr value) ;;
           ret (success result))
          (fun e => ret (JsonifyError 500 e []))
    | None =>
        let action_key :=
          match Py.dict_get action ACTIONS with
          | Some k => k
          | None => action
          end in
        except_Exception
          (mac <- lift (Py.index cam (u "mac")) ;;
           model <- lift (Py.index cam (u "model")) ;;
           result <- run_action E depth mac model action_key ;;
           ret (success result))
          (fun e => ret (JsonifyError 500 e []))
    end.

Definition api_refresh (depth : nat) : M flask_response :=
  modify (set_cameras_ts 0) ;;;
  cams <- fetch_cameras E depth ;;
  ret (Jsonify 200 (JArr cams)).

Definition api_signaling (depth : nat) (name_uri : pystr)
  : M flask_response :=
  cam <- _find_camera depth name_uri ;;
  if negb (Py.truthy cam) then
    ret (Jsonify 404 (JObj [ (u "error", JStr (u "Camera not found"));
                             (u "result", JStr (u "error")) ]))
  else
    except_Exception
      (mac <- lift (Py.index cam (u "mac")) ;;
       signal <- get_webrtc_signaling E depth mac ;;
       match signal with
       | JObj fields =>
           ret (Jsonify 200 (JObj
             (Py.dict_set (u "cam") (JStr name_uri)
                (Py.dict_set (u "result") (JStr (u "ok")) fields))))
       | _ => raise TypeError
       end)
      (fun e =>
         ret (JsonifyError 500 e
                [ (u "result", JStr (u "error")); (u "cam", JStr name_uri) ])).

(** One [try: requests.get(cam["thumbnail"], timeout=5) ... except
    Exception: pass] block of [api_thumbnail]: the response returned
    from inside it, if any. *)
Definition proxy_thumbnail (cam : json) : M (option flask_response) :=
  except_Exception
    (url <- lift (Py.index cam (u "thumbnail")) ;;
     resp <- match url with
             | JStr s => requests_get E s []
             | _ => raise TypeError
             end ;;
     if status_code resp =? 200 then
       ret (Some (RawResponse (content resp)
                    match content_type resp with
                    | Some t => t
                    | None => u "image/jpeg"
                    end))
     else ret None)
    (fun _ => ret None).

(** [not cam or not cam.get("thumbnail")] *)
Definition lacks_thumbnail (cam : json) : result bool :=
  if negb (Py.truthy cam) then Ok true
  else rbind (Py.get cam (u "thumbnail") JNull) (fun t => Ok (negb (Py.truthy t))).

Definition api_thumbnail (depth : nat) (name_uri : pystr)
  : M flask_response :=
  cam <- _find_camera depth name_uri ;;
  missing <- lift (lacks_thumbnail cam) ;;
  if missing then
    ret (Jsonify 404 (JObj [ (u "error", JStr (u "No thumbnail")) ]))
  else
    first <- proxy_thumbnail cam ;;
    match first with
    | Some r => ret r
    | None =>
        modify (set_cameras_ts 0) ;;;
        cams <- fetch_cameras E depth ;;
        cam <- lift (scan_cameras name_uri cams) ;;
        missing <- lift (lacks_thumbnail cam) ;;
        second <- (if missing then ret None else proxy_thumbnail cam) ;;
        match second with
        | Some r => ret r
        | None =>
            ret (Jsonify 404 (JObj [ (u "error", JStr (u "Thumbnail unavailable")) ]))
        end
    end.

Definition health : M flask_response :=
  c <- gets creds ;;
  cams <- gets cameras ;;
  ret (Jsonify 200 (JObj
    [ (u "status", JStr (u "ok"));
      (u "authenticated", JBool match c with JNull => false | _ => true end);
      (u "cameras", JNum (Z.of_nat (List.length cams))) ])).

(** *** Main: what runs before [app.run] *)

(** [print(line)] *)
Definition py_print (line : pystr) : M unit :=
  fun w =>
    match stdout E (printed w) line with
    | Printed => (Ok tt, log_line line w)
    | PrintFails e => (Raise (print_exn e), w)
    end.

(** [f"[wyze-server] Found {len(cameras)} cameras"], with what follows *)
Definition found_line (cams : list json) (tail : pystr) : pystr :=
  u "[wyze-server] Found " ++ Py.str (JNum (Z.of_nat (List.length cams)))
    ++ u " cameras" ++ tail.

(** The line of one camera: nickname, model name, and a green or a black
    circle (U+1F7E2, U+26AB). *)
Definition camera_line (c : json) : result pystr :=
  rbind (Py.index c (u "nickname")) (fun nickname =>
  rbind (Py.index c (u "model_name")) (fun model_name =>
  rbind (Py.index c (u "online")) (fun online =>
  Ok (u "  - " ++ Py.str nickname ++ u " (" ++ Py.str model_name ++ u ") "
        ++ [if Py.truthy online then 128994%N else 9899%N])))).

Fixpoint print_cameras (cams : list json) : M unit :=
  match cams with
  | [] => ret tt
  | c :: rest =>
      line <- lift (camera_line c) ;;
      py_print line ;;;
      print_cameras rest
  end.

(** [os.environ.get("PORT", "5050")] *)
Definition port_text (port : option pystr) : pystr :=
  match port with Some s => s | None => u "5050" end.

(** The [if not _creds:] block. *)
Definition authenticate (depth : nat)
    (email password api_key api_id : option pystr) : M unit :=
  c <- gets creds ;;
  if negb (Py.truthy c) then
    if negb (opt_truthy email && opt_truthy password
             && opt_truthy api_key && opt_truthy api_id)
    then
      py_print (u "ERROR: Set WYZE_EMAIL, WYZE_PASSWORD, API_KEY, API_ID env vars") ;;;
      raise (SystemExit 1)
    else
      py_print (u "[wyze-server] Authenticating with Wyze...") ;;;
      wyze_login E depth (opt_text email) (opt_text password)
        (opt_text api_key) (opt_text api_id) ;;;
      cams <- fetch_cameras E depth ;;
      py_print (found_line cams (u ":")) ;;;
      print_cameras cams
  else ret tt.

(** The arguments are the environment variables [WYZE_EMAIL],
    [WYZE_PASSWORD], [API_KEY], [API_ID] and [PORT]. *)
Definition main (depth : nat)
    (email password api_key api_id port : option pystr) : M unit :=
  port_number <- lift match int_of_text E (port_text port) with
                      | Some n => Ok n
                      | None => Raise ValueError
                      end ;;
  loaded <- _load_tokens ;;
  (if loaded : bool then
     py_print (u "[wyze-server] Loaded cached tokens") ;;;
     except_Exception
       (cams <- fetch_cameras E depth ;;
        py_print (found_line cams []))
       (fun _ =>
          py_print (u "[wyze-server] Cached tokens expired, re-authenticating...") ;;;
          modify (set_creds JNull))
   else ret tt) ;;;
  authenticate depth email password api_key api_id ;;;
  py_print (u "[wyze-server] Starting on port " ++ Py.str (JNum port_number)).

End Routes.

(* ------------------------------------------------------------------ *)
(** ** Vocabulary of the statements *)

(** CPython's tables at the code points the examples use: KELVIN SIGN
    (U+212A) is a letter and lowers to [k]; LATIN SMALL LETTER E WITH
    ACUTE (U+00E9) is a letter, lowers to itself and rises to U+00C9.
    The other code points are left out: no class, case unchanged. *)
Definition ucd_sample : unicode_db := {|
  uni_isalnum := fun c => (c =? 8490)%N || (c =? 233)%N;
  uni_isdecimal := fun _ => false;
  uni_lower := fun _ c _ => if (c =? 8490)%N then [107%N] else [c];
  uni_upper := fun c => if (c =? 233)%N then [201%N] else [c]
|}.

(** The slug in the order the specification lists the steps: strip,
    spaces to hyphens, drop what is not alphanumeric, hyphen, underscore
    or plus, drop non-ASCII, lowercase. *)
Definition slug_as_listed (U : unicode_db) (name : pystr) : pystr :=
  PyStr.lower U
    (filter PyStr.is_ascii
       (sub_non_uri U (PyStr.replace_space_hyphen (PyStr.strip name)))).

(** No non-ASCII character of [s] lowers to text with an ASCII character
    in it ([before] is what precedes [s]). *)
Fixpoint lower_stays_non_ascii (U : unicode_db) (before s : pystr) : bool :=
  match s with
  | [] => true
  | c :: rest =>
      (PyStr.is_ascii c
       || forallb (fun x => negb (PyStr.is_ascii x)) (uni_lower U before c rest))
      && lower_stays_non_ascii U (before ++ [c]) rest
  end.

(** One digest round on a text of ASCII characters. *)
Definition md5_hex (s : pystr) : pystr := MD5.hexdigest (map Z.of_N s).

(** The password carries one of the markers [hashed:] and [md5:]. *)
Definition carries_marker (U : unicode_db) (password : pystr) : bool :=
  let encoded := PyStr.lower U (PyStr.strip password) in
  PyStr.startswith encoded (u "hashed:") || PyStr.startswith encoded (u "md5:").

(** A non-empty run of decimal digits. *)
Definition digit_run (U : unicode_db) (s : pystr) : bool :=
  match s with [] => false | _ => forallb (PyStr.is_digit U) s end.

(** What the signaling normalizer makes of one URL. *)
Definition normalized_url (U : unicode_db) (urls : pystr) : pystr :=
  match match_relay U urls with
  | Some m => dotted m
  | None => urls
  end.

(** How [_validate] reads a response: the expiry sentinel, a vendor error
    with its code and message, or the accepted payload. *)
Inductive verdict :=
| Expired
| Failed (code : pystr) (msg : json)
| Accepted (data : json).

Definition classify (resp : response) : result verdict :=
  (data <-- resp_json resp ;;
   dflt <-- Py.get data (u "errorCode") (JNum 0) ;;
   v <-- Py.get data (u "code") dflt ;;
   let code := Py.str v in
   if pystr_eqb code (u "2001") then Ok Expired
   else if negb (pystr_eqb code (u "1") || pystr_eqb code (u "0")) then
     d <-- Py.get data (u "description") (JStr code) ;;
     msg <-- Py.get data (u "msg") d ;;
     Ok (Failed code msg)
   else
     x <-- Py.get data (u "data") data ;;
     Ok (Accepted x))%R.

Definition refresh_url : pystr := WYZE_API ++ u "/user/refresh_token".
Definition listing_url : pystr := WYZE_API ++ u "/v2/home_page/get_object_list".

Definition is_refresh (rq : request) : bool := pystr_eqb (rq_url rq) refresh_url.
Definition is_listing (rq : request) : bool := pystr_eqb (rq_url rq) listing_url.

(** The outside answers the next requests, whatever they are, by the
    script: its k-th reply to the k-th request issued after [w]. *)
Definition replies_after (E : env) (w : world) (script : list reply) : Prop :=
  forall k rp new rq,
    nth_error script k = Some rp ->
    List.length new = k ->
    vendor E (sent w ++ new) rq = rp.

(** The cache of [w] is served at time [now]. *)
Definition cache_fresh (now : Q) (w : world) : bool :=
  match cameras w with [] => false | _ => true end
  && (if Qlt_le_dec (now - cameras_ts w) CACHE_TTL then true else false).

(** The module globals at import, with a token file in state [f]. *)
Definition at_import (f : file_state) : world := {|
  creds := JNull; cameras := []; cameras_ts := 0; token_file := f;
  sent := []; clock_reads := 0; uuids_drawn := 0; writes := 0; printed := []
|}.

(** A process that holds the credential [c]. *)
Definition logged_in (c : json) : world := set_creds c (at_import (FileHolds c)).

(** [int] on a non-empty text of ASCII digits. *)
Fixpoint digits_value (acc : Z) (s : pystr) : option Z :=
  match s with
  | [] => Some acc
  | c :: rest =>
      if ((48 <=? c) && (c <=? 57))%N
      then digits_value (10 * acc + (Z.of_N c - 48)) rest
      else None
  end.

Definition int_of_digits (s : pystr) : option Z :=
  match s with [] => None | _ => digits_value 0 s end.

(** An outside that answers by a fixed script, with a clock that starts at
    1000 s and advances a second per reading, a disk that takes every
    write and an output that takes every line.  [unquote] is the identity,
    which is right on text without a percent sign; [int] reads texts of
    ASCII digits. *)
Definition scripted (script : list reply) : env := {|
  ucd := ucd_sample;
  vendor := fun history _ => nth (List.length history) script ConnectionFailed;
  clock := fun n => inject_Z (1000 + Z.of_nat n);
  uuid4 := fun _ => u "00000000-0000-4000-8000-000000000000";
  unquote := fun s => s;
  disk := fun _ => Written;
  stdout := fun _ _ => Printed;
  int_of_text := int_of_digits
|}.

Definition json_response (j : json) : response :=
  {| status_code := 200; body := Some j; content := [];
     content_type := Some (u "application/json") |}.

(** A vendor response with code 1 and a payload; the expiry response. *)
Definition accepted_response (data : json) : response :=
  json_response (JObj [ (u "code", JStr (u "1")); (u "data", data) ]).
Definition expired_response : response :=
  json_response (JObj [ (u "code", JStr (u "2001")); (u "msg", JStr (u "AccessTokenError")) ]).

Definition accepted_reply (data : json) : reply := Replied (accepted_response data).
Definition expired_reply : reply := Replied expired_response.

Definition sample_creds : json :=
  JObj [ (u "access_token", JStr (u "at-0")); (u "refresh_token", JStr (u "rt-0"));
         (u "user_id", JStr (u "user-1")); (u "phone_id", JStr (u "phone-1")) ].

(** One issue of a request and the validation of its response. *)
Definition attempt (E : env) (depth : nat) (rq : request) : M json :=
  bind (requests_send E rq) (_validate E depth).

(** The normalization of a device-listing payload in [fetch_cameras]. *)
Definition cameras_from (E : env) (data : json) : result (list json) :=
  rbind (Py.get data (u "device_list") (JArr [])) (fun device_list =>
  rbind (Py.iter device_list) (fun devs => cameras_of E devs)).

(** The device listing with its retry, as [fetch_cameras] runs it. *)
Definition listing_with_retry (E : env) (depth : nat) : M json :=
  except_TokenRefreshed (post_object_list E depth) (post_object_list E depth).

(** The requests of a listing that returned: one listing request, or a
    listing request, one or more refresh requests and a second listing
    request. *)
Definition listing_trace (new : list request) : Prop :=
  (exists rq, new = [rq] /\ is_listing rq = true)
  \/ (exists rq1 rs rq2,
        new = rq1 :: rs ++ [rq2]
        /\ is_listing rq1 = true /\ is_listing rq2 = true
        /\ rs <> [] /\ forallb is_refresh rs = true).

(** The fields [_payload] builds at time [now] for a credential with the
    given access token and client device id. *)
Definition payload_fields (endpoint : pystr) (now : Q) (access_token phone_id : json)
  : list (pystr * json) :=
  let values :=
    match Py.dict_get endpoint SC_SV with
    | Some v => v
    | None =>
        (u "9f275790cab94a72bd206c8876429f3c", u "e1fe392906d54888a9b99b88de4162d7")
    end in
  [ (u "sc", JStr (fst values)); (u "sv", JStr (snd values));
    (u "app_ver", JStr (u "com.hualai.WyzeCam___" ++ APP_VERSION));
    (u "app_version", JStr APP_VERSION);
    (u "app_name", JStr (u "com.hualai.WyzeCam"));
    (u "phone_system_type", JNum 1);
    (u "ts", JNum (py_int (now * 1000)));
    (u "access_token", access_token);
    (u "phone_id", phone_id) ].

(** A camera as the vendor lists it, and a cache entry. *)
Definition sample_device : json :=
  JObj [ (u "product_type", JStr (u "Camera")); (u "mac", JStr (u "AB:12"));
         (u "product_model", JStr (u "HL_PAN3")); (u "nickname", JStr (u "Front Door!"));
         (u "device_conn_state", JNum 1) ].
Definition sample_camera : json :=
  JObj [ (u "mac", JStr (u "AB:12")); (u "nickname", JStr (u "Front Door!"));
         (u "name_uri", JStr (u "front-door")); (u "model", JStr (u "HL_PAN3"));
         (u "model_name", JStr (u "Pan V3")); (u "firmware_ver", JNull);
         (u "ip", JNull); (u "thumbnail", JNull); (u "is_pan", JBool true);
         (u "is_2k", JBool false); (u "online", JBool true) ].

(** A successful refresh response with a new token pair. *)
Definition refreshed_response (access_token refresh_token : string) : response :=
  accepted_response (JObj [ (u "access_token", JStr (u access_token));
                            (u "refresh_token", JStr (u refresh_token)) ]).
Definition refreshed_reply (access_token refresh_token : string) : reply :=
  Replied (refreshed_response access_token refresh_token).

(** The request [_refresh_token] issues at time [now] for a credential
    with these tokens and client device id. *)
Definition refresh_request (now : Q) (access_token phone_id refresh_token : json)
  : request :=
  {| rq_method := POST; rq_url := refresh_url;
     rq_headers := _headers None None None;
     rq_json := Some (JObj (Py.dict_set (u "refresh_token") refresh_token
                              (payload_fields (u "default") now access_token phone_id))) |}.

(** The credential after a refresh accepted with payload [fields]. *)
Definition refreshed_creds (fields kv : list (pystr * json))
    (old_access old_refresh : json) : list (pystr * json) :=
  let access :=
    match Py.dict_get (u "access_token") fields with
    | Some v => v
    | None => old_access
    end in
  let refresh :=
    match Py.dict_get (u "refresh_token") fields with
    | Some v => v
    | None => old_refresh
    end in
  Py.dict_set (u "refresh_token") refresh (Py.dict_set (u "access_token") access kv).

(** The process after that refresh. *)
Definition after_refresh (rq : request) (kv' : list (pystr * json)) (w : world)
  : world :=
  tick_write
    (set_token_file (FileHolds (JObj kv'))
       (set_creds (JObj kv') (log_request rq (tick_clock w)))).

(** The authenticated vendor calls of the module. *)
Inductive vendor_call :=
| ListDevices
| RunAction (mac model : json) (action : pystr)
| SetProperty (mac model : json) (pid : pystr) (pvalue : json)
| GetDeviceInfo (mac model : json)
| Signaling (mac : json).

(** The function of the source that performs the call. *)
Definition issue (E : env) (depth : nat) (call : vendor_call) : M unit :=
  match call with
  | ListDevices => bind (fetch_cameras E depth) (fun _ => ret tt)
  | RunAction mac model action =>
      bind (run_action E depth mac model action) (fun _ => ret tt)
  | SetProperty mac model pid pvalue =>
      bind (set_property E depth mac model pid pvalue) (fun _ => ret tt)
  | GetDeviceInfo mac model =>
      bind (get_device_info E depth mac model) (fun _ => ret tt)
  | Signaling mac => bind (get_webrtc_signaling E depth mac) (fun _ => ret tt)
  end.

(** The call reaches the vendor: a listing is issued only when the cache
    is not served. *)
Definition due (E : env) (call : vendor_call) (w : world) : Prop :=
  match call with
  | ListDevices => cache_fresh (clock E (clock_reads w)) w = false
  | _ => True
  end.

(** The request is made with this access token: in its payload, or in its
    [authorization] header when it has no payload. *)
Definition carries_token (rq : request) (token : json) : Prop :=
  match rq_json rq with
  | Some payload => Py.index payload (u "access_token") = Ok token
  | None =>
      Py.dict_get (u "authorization") (rq_headers rq)
      = Some (u "Bearer " ++ Py.str token)
  end.

(** [fields.get(k, old)] *)
Definition field_or (fields : list (pystr * json)) (k : pystr) (old : json) : json :=
  match Py.dict_get k fields with
  | Some v => v
  | None => old
  end.

(** The request a call makes at time [now] with a given access token and
    client device id. *)
Definition request_of (E : env) (call : vendor_call) (now : Q)
    (access_token phone_id : json) : request :=
  match call with
  | ListDevices =>
      {| rq_method := POST; rq_url := listing_url;
         rq_headers := _headers None None None;
         rq_json := Some (JObj (payload_fields (u "default") now access_token phone_id)) |}
  | RunAction mac model action =>
      {| rq_method := POST; rq_url := WYZE_API ++ u "/v2/auto/run_action";
         rq_headers := _headers None None None;
         rq_json :=
           Some (JObj (Py.dict_update
                         (payload_fields (u "run_action") now access_token phone_id)
                         [ (u "action_params", JObj []); (u "action_key", JStr action);
                           (u "instance_id", mac); (u "provider_key", model);
                           (u "custom_string", JStr []) ])) |}
  | SetProperty mac model pid pvalue =>
      {| rq_method := POST; rq_url := WYZE_API ++ u "/v2/device/set_property";
         rq_headers := _headers None None None;
         rq_json :=
           Some (JObj (Py.dict_update
                         [ (u "pid", JStr (PyStr.upper (ucd E) pid));
                           (u "pvalue", JStr (Py.str pvalue));
                           (u "device_mac", mac); (u "device_model", model) ]
                         (payload_fields (u "set_device_Info") now access_token phone_id))) |}
  | GetDeviceInfo mac model =>
      {| rq_method := POST; rq_url := WYZE_API ++ u "/v2/device/get_device_Info";
         rq_headers := _headers None None None;
         rq_json :=
           Some (JObj (Py.dict_update
                         [ (u "device_mac", mac); (u "device_model", model) ]
                         (payload_fields (u "get_device_Info") now access_token phone_id))) |}
  | Signaling mac =>
      {| rq_method := GET;
         rq_url := u "https://webrtc.api.wyze.com/signaling/device/" ++ Py.str mac
                     ++ u "?use_trickle=true";
         rq_headers :=
           Py.dict_set (u "authorization") (u "Bearer " ++ Py.str access_token)
             (Py.dict_set (u "content-type") (u "application/json")
                (_headers None None None));
         rq_json := None |}
  end.

(** The effect of a computation on the cache and on the trace. *)
Definition extends (rs : list request) (w w' : world) : Prop :=
  cameras w' = cameras w /\ cameras_ts w' = cameras_ts w
  /\ sent w' = sent w ++ rs.

(** What one [_validate] may add to the trace: refresh requests only;
    nothing when it returns; at least one when it raises
    [TokenRefreshed]. *)
Definition refresh_only {A} (w : world) (r : result A) (w' : world) : Prop :=
  exists rs,
    extends rs w w' /\ forallb is_refresh rs = true
    /\ (forall a, r = Ok a -> w' = w)
    /\ (r = Raise TokenRefreshed -> rs <> []).

(** A computation [c] that performs [call] from [w] sends the call, a
    refresh request and the call again with the refreshed token, then
    refresh requests only: none when the third reply [r3] is accepted, at
    least one, and an exception, when it is the expiry sentinel. *)
Definition refreshed_once {A} (E : env) (w : world) (tok pid rtok : json)
    (r3 : response) (fields : list (pystr * json)) (call : vendor_call)
    (c : M A) : Prop :=
  exists t1 tr t2 more,
    sent (snd (c w))
    = sent w ++ request_of E call t1 tok pid
               :: refresh_request tr tok pid rtok
               :: request_of E call t2 (field_or fields (u "access_token") tok) pid
               :: more
    /\ forallb is_refresh more = true
    /\ ((exists x, classify r3 = Ok (Accepted x)) -> more = [])
    /\ (classify r3 = Ok Expired ->
        more <> [] /\ exists e, fst (c w) = Raise e).

(** No camera of the list has the slug. *)
Definition matches_none (slug : pystr) (cams : list json) : Prop :=
  Forall (fun cam => exists v, Py.index cam (u "name_uri") = Ok v
                               /\ Py.eq_str v slug = false) cams.

(** A lowercase hexadecimal digit. *)
Definition is_hex_lower (c : N) : bool :=
  ((48 <=? c) && (c <=? 57) || (97 <=? c) && (c <=? 102))%N.

(** A character of a slug: a lowercase letter, a digit, a hyphen, an
    underscore or a plus. *)
Definition is_slug_char (c : N) : bool :=
  ((48 <=? c) && (c <=? 57) || (97 <=? c) && (c <=? 122)
   || (c =? 45) || (c =? 95) || (c =? 43))%N.

(** A descriptor as the signaling normalizer leaves it: a dict without the
    legacy [url] field, whose [urls] field, if any, is a text. *)
Definition normalized_descriptor (s : json) : Prop :=
  exists fields,
    s = JObj fields
    /\ Py.dict_get (u "url") fields = None
    /\ (forall v, Py.dict_get (u "urls") fields = Some v -> exists t, v = JStr t).

(** A record as [fetch_cameras] appends it: the eleven fields in order, a
    MAC address and a model that are not empty, an ASCII slug. *)
Definition cache_entry (cam : json) : Prop :=
  exists mac nickname slug model label firmware ip thumbnail is_pan is_2k online,
    cam = JObj
      [ (u "mac", mac); (u "nickname", nickname); (u "name_uri", JStr slug);
        (u "model", model); (u "model_name", label);
        (u "firmware_ver", firmware); (u "ip", ip);
        (u "thumbnail", thumbnail); (u "is_pan", JBool is_pan);
        (u "is_2k", JBool is_2k); (u "online", JBool online) ]
    /\ Py.truthy mac = true /\ Py.truthy model = true
    /\ forallb PyStr.is_ascii slug = true.

(** The cache holds such records only. *)
Definition cache_ok (w : world) : Prop := Forall cache_entry (cameras w).

(** An [Exception] of Python: anything but [SystemExit]. *)
Definition is_exception (e : exn) : Prop := forall n, e <> SystemExit n.

(** The token file holds the credential of the process. *)
Definition saved (w : world) : Prop := token_file w = FileHolds (creds w).

(** Between [w] and [w'] a write of the token file failed. *)
Definition write_failed (E : env) (w w' : world) : Prop :=
  exists n, (writes w <= n < writes w')%nat /\ disk E n <> Written.

(** What serving may do to the process: the credential keeps every field
    other than the two tokens, loses no field and stays truthy if it was;
    a token file that holds the credential still holds it, unless a write
    of the file failed in between; a well-formed cache stays well formed;
    no UUID is drawn; writes of the file are only counted up; nothing is
    printed; requests are only added to the trace. *)
Definition session_step (E : env) (w w' : world) : Prop :=
  (forall k, k <> u "access_token" -> k <> u "refresh_token" ->
     Py.index (creds w') k = Py.index (creds w) k)
  /\ (forall k v, Py.index (creds w) k = Ok v ->
        exists v', Py.index (creds w') k = Ok v')
  /\ (Py.truthy (creds w) = true -> Py.truthy (creds w') = true)
  /\ (saved w -> saved w' \/ write_failed E w w')
  /\ (cache_ok w -> cache_ok w')
  /\ uuids_drawn w' = uuids_drawn w
  /\ (writes w <= writes w')%nat
  /\ printed w' = printed w
  /\ exists rs, sent w' = sent w ++ rs.

(** A computation that reports every failed write: its runs only count
    the writes up, and a run during which a write failed raises
    [OSError]. *)
Definition reports_writes {A} (E : env) (c : M A) : Prop :=
  forall w r w', c w = (r, w') ->
    (writes w <= writes w')%nat
    /\ (write_failed E w w' -> r = Raise OSError).

(** The standard output takes every line. *)
Definition console_open (E : env) : Prop :=
  forall history line, stdout E history line = Printed.

(** A result whose exception, if any, is an [Exception]. *)
Definition raises_exceptions {A} (r : result A) : Prop :=
  forall e, r = Raise e -> is_exception e.

(** A computation whose every run is a step [P] and whose exceptions all
    satisfy [X]. *)
Definition obeys {A} (P : world -> world -> Prop) (X : exn -> Prop) (c : M A)
  : Prop :=
  forall w r w', c w = (r, w') -> P w w' /\ forall e, r = Raise e -> X e.

(** The view functions of the Flask app, with their arguments. *)
Inductive view :=
| ViewCameras
| ViewCameraDetail (name_uri : pystr)
| ViewCameraInfo (name_uri : pystr)
| ViewCameraAction (name_uri action : pystr) (value_arg : option pystr)
| ViewRefresh
| ViewSignaling (name_uri : pystr)
| ViewThumbnail (name_uri : pystr)
| ViewHealth.

Definition handle (E : env) (depth : nat) (v : view) : M flask_response :=
  match v with
  | ViewCameras => api_cameras E depth
  | ViewCameraDetail name_uri => api_camera_detail E depth name_uri
  | ViewCameraInfo name_uri => api_camera_info E depth name_uri
  | ViewCameraAction name_uri action value_arg =>
      api_camera_action E depth name_uri action value_arg
  | ViewRefresh => api_refresh E depth
  | ViewSignaling name_uri => api_signaling E depth name_uri
  | ViewThumbnail name_uri => api_thumbnail E depth name_uri
  | ViewHealth => health
  end.

(** The views served one after the other; an exception that escapes a
    view leaves the process as the view left it. *)
Fixpoint serve_all (E : env) (depth : nat) (views : list view) (w : world) : world :=
  match views with
  | [] => w
  | v :: rest => serve_all E depth rest (snd (handle E depth v w))
  end.

(** The views that look a device up and do nothing before. *)
Definition lookup_view (v : view) : Prop :=
  match v with
  | ViewCameras | ViewCameraDetail _ | ViewCameraInfo _
  | ViewCameraAction _ _ _ | ViewSignaling _ => True
  | _ => False
  end.

(** The requests of a trace that are token refreshes, and the others. *)
Definition refresh_requests (new : list request) : nat :=
  List.length (filter is_refresh new).
Definition own_requests (new : list request) : nat :=
  List.length (filter (fun rq => negb (is_refresh rq)) new).

(** From [w] to [w'] at most [own] requests other than refreshes and at
    most [refresh] refresh requests were sent. *)
Definition within (own refresh : nat) (w w' : world) : Prop :=
  exists new,
    sent w' = sent w ++ new
    /\ (own_requests new <= own)%nat /\ (refresh_requests new <= refresh)%nat.

(** Every run of [c] stays within these numbers. *)
Definition sends {A} (own refresh : nat) (c : M A) : Prop :=
  obeys (within own refresh) (fun _ => True) c.

(** An outside that answers every request with the expiry sentinel. *)
Definition always_expired (E : env) : Prop :=
  forall history rq,
    exists resp, vendor E history rq = Replied resp /\ classify resp = Ok Expired.

Definition expiring : env := {|
  ucd := ucd_sample;
  vendor := fun _ _ => expired_reply;
  clock := fun n => inject_Z (1000 + Z.of_nat n);
  uuid4 := fun _ => u "00000000-0000-4000-8000-000000000000";
  unquote := fun s => s;
  disk := fun _ => Written;
  stdout := fun _ _ => Printed;
  int_of_text := int_of_digits
|}.

(** A scripted outside whose disk is given. *)
Definition scripted_on (script : list reply) (d : nat -> write_outcome) : env := {|
  ucd := ucd_sample;
  vendor := fun history _ => nth (List.length history) script ConnectionFailed;
  clock := fun n => inject_Z (1000 + Z.of_nat n);
  uuid4 := fun _ => u "00000000-0000-4000-8000-000000000000";
  unquote := fun s => s;
  disk := d;
  stdout := fun _ _ => Printed;
  int_of_text := int_of_digits
|}.

(** The request of [wyze_login] for a hashed password and a client
    device id. *)
Definition login_request (email hashed api_key key_id phone_id : pystr) : request :=
  {| rq_method := POST; rq_url := AUTH_API ++ u "/api/user/login";
     rq_headers := _headers (Some phone_id) (Some key_id) (Some api_key);
     rq_json := Some (JObj [ (u "email", JStr (PyStr.strip email));
                             (u "password", JStr hashed) ]) |}.

(** The four variables of the login are set and not empty. *)
Definition login_variables (email password api_key api_id : option pystr) : bool :=
  opt_truthy email && opt_truthy password && opt_truthy api_key && opt_truthy api_id.

(** The slug a device-scoped view is called with. *)
Definition view_slug (v : view) : option pystr :=
  match v with
  | ViewCameraDetail s | ViewCameraInfo s | ViewCameraAction s _ _
  | ViewSignaling s | ViewThumbnail s => Some s
  | _ => None
  end.

(** The vendor call a view makes for the camera with this MAC address and
    model: [PROP_MAP] and [ACTIONS] decide between a property and an
    action. *)
Definition call_of (v : view) (mac model : json) : option vendor_call :=
  match v with
  | ViewCameraInfo _ => Some (GetDeviceInfo mac model)
  | ViewCameraAction _ action value_arg =>
      Some match Py.dict_get action PROP_MAP with
           | Some pid =>
               SetProperty mac model pid
                 (JStr match value_arg with Some v => v | None => u "1" end)
           | None =>
               RunAction mac model
                 match Py.dict_get action ACTIONS with
                 | Some k => k
                 | None => action
                 end
           end
  | ViewSignaling _ => Some (Signaling mac)
  | _ => None
  end.

(** A request to one of the two vendor APIs the token is meant for, and a
    bare GET: no header, no body. *)
Definition to_vendor (rq : request) : Prop :=
  PyStr.startswith (rq_url rq) (WYZE_API ++ u "/") = true
  \/ PyStr.startswith (rq_url rq) (u "https://webrtc.api.wyze.com/signaling/device/") = true.
Definition bare_get (rq : request) : Prop :=
  rq_method rq = GET /\ rq_headers rq = [] /\ rq_json rq = None.

(** Every request that a run of [c] adds to the trace satisfies [Q]. *)
Definition traces {A} (Q : request -> Prop) (c : M A) : Prop :=
  forall w r w', c w = (r, w') ->
    exists new, sent w' = sent w ++ new /\ Forall Q new.
(* ------------------------------------------------------------------ *)
(** * Theorems *)

(** ** Text and dictionary lemmas *)

Lemma pystr_eqb_eq a b : pystr_eqb a b = true <-> a = b.
Proof. unfold pystr_eqb. destruct (list_eq_dec N.eq_dec a b); split; congruence. Qed.

Lemma pystr_eqb_refl a : pystr_eqb a a = true.
Proof. apply pystr_eqb_eq. reflexivity. Qed.

Lemma pystr_eqb_neq a b : a <> b -> pystr_eqb a b = false.
Proof. unfold pystr_eqb. destruct (list_eq_dec N.eq_dec a b); congruence. Qed.

Lemma dict_get_set_same {A} k (v : A) d : Py.dict_get k (Py.dict_set k v d) = Some v.
Proof.
  induction d as [|[k' v'] d IH]; simpl.
  - rewrite pystr_eqb_refl. reflexivity.
  - destruct (pystr_eqb k k') eqn:Hk; simpl; rewrite Hk; [reflexivity | exact IH].
Qed.

Lemma dict_get_set_other {A} k k' (v : A) d :
  k <> k' -> Py.dict_get k' (Py.dict_set k v d) = Py.dict_get k' d.
Proof.
  intros Hne. induction d as [|[k0 v0] d IH]; simpl.
  - rewrite (pystr_eqb_neq k' k) by congruence. reflexivity.
  - destruct (pystr_eqb k k0) eqn:Hk; simpl.
    + apply pystr_eqb_eq in Hk. subst k0.
      rewrite (pystr_eqb_neq k' k) by congruence. reflexivity.
    + destruct (pystr_eqb k' k0); [reflexivity | exact IH].
Qed.

Lemma dict_set_same {A} k (v : A) d :
  Py.dict_get k d = Some v -> Py.dict_set k v d = d.
Proof.
  induction d as [|[k0 v0] d IH]; simpl; [discriminate|].
  destruct (pystr_eqb k k0) eqn:Hk.
  - intros [= ->]. reflexivity.
  - intros H. rewrite (IH H). reflexivity.
Qed.

Lemma dict_get_del_same {A} k (d : list (pystr * A)) :
  Py.dict_get k (Py.dict_del k d) = None.
Proof.
  induction d as [|[k0 v0] d IH]; simpl; [reflexivity|].
  destruct (pystr_eqb k k0) eqn:Hk; simpl; [exact IH|].
  rewrite Hk. exact IH.
Qed.


(** ** Slugs *)

Section SlugFacts.
Variable U : unicode_db.

Lemma ascii_lower_is_ascii c :
  PyStr.is_ascii c = true -> PyStr.is_ascii (PyStr.ascii_lower c) = true.
Proof.
  unfold PyStr.is_ascii, PyStr.ascii_lower. intros H.
  apply N.ltb_lt in H.
  destruct ((65 <=? c)%N && (c <=? 90)%N) eqn:Hc; apply N.ltb_lt; [|exact H].
  apply andb_prop in Hc. destruct Hc as [_ Hc]. apply N.leb_le in Hc. lia.
Qed.

Lemma lower_from_ascii s :
  forallb PyStr.is_ascii s = true ->
  forall before, PyStr.lower_from U before s = map PyStr.ascii_lower s.
Proof.
  induction s as [|c s IH]; simpl; intros H before; [reflexivity|].
  apply andb_prop in H. destruct H as [Hc Hs].
  rewrite Hc. simpl. f_equal. apply IH. exact Hs.
Qed.

Lemma filter_none (l : pystr) :
  forallb (fun x => negb (PyStr.is_ascii x)) l = true ->
  filter PyStr.is_ascii l = [].
Proof.
  induction l as [|x l IH]; simpl; intros H; [reflexivity|].
  apply andb_prop in H. destruct H as [Hx Hl].
  destruct (PyStr.is_ascii x); [discriminate | exact (IH Hl)].
Qed.

Lemma filter_lower s :
  forall before,
    lower_stays_non_ascii U before s = true ->
    filter PyStr.is_ascii (PyStr.lower_from U before s)
    = map PyStr.ascii_lower (filter PyStr.is_ascii s).
Proof.
  induction s as [|c s IH]; simpl; intros before H; [reflexivity|].
  apply andb_prop in H. destruct H as [Hc Hs].
  rewrite filter_app, (IH _ Hs).
  destruct (PyStr.is_ascii c) eqn:Ha; simpl.
  - rewrite (ascii_lower_is_ascii _ Ha). reflexivity.
  - simpl in Hc. rewrite (filter_none _ Hc). reflexivity.
Qed.

Lemma forallb_filter_id (l : pystr) :
  forallb PyStr.is_ascii (filter PyStr.is_ascii l) = true.
Proof.
  apply forallb_forall. intros x Hx. apply filter_In in Hx. tauto.
Qed.

Lemma slug_as_listed_eq name :
  slug_as_listed U name
  = map PyStr.ascii_lower
      (filter PyStr.is_ascii
         (sub_non_uri U (PyStr.replace_space_hyphen (PyStr.strip name)))).
Proof.
  unfold slug_as_listed, PyStr.lower.
  apply lower_from_ascii, forallb_filter_id.
Qed.

Lemma ascii_text_stays s before :
  forallb PyStr.is_ascii s = true -> lower_stays_non_ascii U before s = true.
Proof.
  revert before. induction s as [|c s IH]; simpl; intros before H; [reflexivity|].
  apply andb_prop in H. destruct H as [Hc Hs].
  rewrite Hc. simpl. apply IH. exact Hs.
Qed.
End SlugFacts.

(** C7 (as amended).  The slug depends on the display name alone, or on the
    MAC address when the name is absent or empty: it is the name stripped
    of surrounding whitespace, spaces turned into hyphens, characters other
    than alphanumerics, hyphen, underscore and plus removed, the result
    lowercased and then the non-ASCII characters removed.  The result is
    ASCII text; it is the outcome of the steps in the listed order (ASCII
    filter before lowercasing) whenever no kept non-ASCII character lowers
    to text holding an ASCII character; and the slug of "Front Door!" is
    "front-door". *)
Theorem name_uri_slug (U : unicode_db) (nickname mac : json) (name : pystr) :
  Py.or_ nickname mac = JStr name ->
  let kept := sub_non_uri U (PyStr.replace_space_hyphen (PyStr.strip name)) in
  _name_uri U nickname mac = Ok (filter PyStr.is_ascii (PyStr.lower U kept))
  /\ forallb PyStr.is_ascii (filter PyStr.is_ascii (PyStr.lower U kept)) = true
  /\ (lower_stays_non_ascii U [] kept = true ->
      _name_uri U nickname mac = Ok (slug_as_listed U name))
  /\ _name_uri U (JStr (u "Front Door!")) (JStr (u "AB:12")) = Ok (u "front-door")
  /\ _name_uri U JNull (JStr (u "AB:12")) = Ok (u "ab12").
Proof.
  intros Hname kept.
  assert (Hrun : _name_uri U nickname mac
                 = Ok (filter PyStr.is_ascii (PyStr.lower U kept))).
  { unfold _name_uri. rewrite Hname. reflexivity. }
  split; [exact Hrun|].
  split; [apply forallb_filter_id|].
  split; [|split; reflexivity].
  intros Hstay. rewrite Hrun, slug_as_listed_eq. f_equal.
  unfold PyStr.lower. apply filter_lower. exact Hstay.
Qed.

Lemma name_uri_slug_witness :
  _name_uri ucd_sample (JStr (u " Back Yard #2 ")) (JStr (u "AB:12"))
  = Ok (slug_as_listed ucd_sample (u " Back Yard #2 ")).
Proof.
  apply (proj1 (proj2 (proj2
           (name_uri_slug ucd_sample (JStr (u " Back Yard #2 ")) (JStr (u "AB:12"))
              (u " Back Yard #2 ") eq_refl)))).
  vm_compute. reflexivity.
Defined.

(** C7 (as stated) fails: KELVIN SIGN is not ASCII, the listed steps drop
    it, the code keeps its lowercase [k]. *)
Lemma name_uri_kelvin_sign :
  _name_uri ucd_sample (JStr [8490%N]) (JStr (u "AB:12")) = Ok (u "k")
  /\ slug_as_listed ucd_sample [8490%N] = []
  /\ _name_uri ucd_sample (JStr [8490%N]) (JStr (u "AB:12"))
     <> Ok (slug_as_listed ucd_sample [8490%N]).
Proof.
  split; [vm_compute; reflexivity|].
  split; [vm_compute; reflexivity|].
  vm_compute. discriminate.
Qed.

(** ** Password hashing *)

Example md5_empty :
  MD5.hexdigest [] = u "d41d8cd98f00b204e9800998ecf8427e".
Proof. vm_compute. reflexivity. Qed.

Example md5_abc :
  MD5.hexdigest [97; 98; 99] = u "900150983cd24fb0d6963f7d28e17f72".
Proof. vm_compute. reflexivity. Qed.

Example md5_two_blocks :
  md5_hex (u "12345678901234567890123456789012345678901234567890123456789012345678901234567890")
  = u "57edf4a22be3c955ac49da2e2107b67a".
Proof. vm_compute. reflexivity. Qed.

Lemma le_bytes_range n x b : In b (MD5.le_bytes n x) -> 0 <= b < 256.
Proof.
  revert x. induction n as [|n IH]; simpl; intros x H; [contradiction|].
  destruct H as [<- | H]; [apply Z.mod_pos_bound; lia | exact (IH _ H)].
Qed.

Lemma digest_range msg b : In b (MD5.digest msg) -> 0 <= b < 256.
Proof.
  unfold MD5.digest.
  destruct (MD5.blocks _ _ _) as [[[a0 b0] c0] d0].
  rewrite !in_app_iff.
  intros [H | [H | [H | H]]]; exact (le_bytes_range _ _ _ H).
Qed.

Lemma hex_digit_ascii x : 0 <= x < 16 -> PyStr.is_ascii (MD5.hex_digit x) = true.
Proof.
  intros Hx. unfold PyStr.is_ascii, MD5.hex_digit.
  apply N.ltb_lt. destruct (x <? 10); lia.
Qed.

Lemma hexdigest_ascii msg : forallb PyStr.is_ascii (MD5.hexdigest msg) = true.
Proof.
  apply forallb_forall. intros c Hc. unfold MD5.hexdigest in Hc.
  apply in_flat_map in Hc. destruct Hc as [b [Hb Hc]].
  apply digest_range in Hb.
  destruct Hc as [<- | [<- | []]]; apply hex_digit_ascii.
  - split; [apply Z.div_pos; lia | apply Z.div_lt_upper_bound; lia].
  - apply Z.mod_pos_bound. lia.
Qed.

Lemma encode_hexdigest msg :
  PyStr.encode_ascii (MD5.hexdigest msg) = Some (map Z.of_N (MD5.hexdigest msg)).
Proof. unfold PyStr.encode_ascii. rewrite hexdigest_ascii. reflexivity. Qed.

Lemma md5_rounds_three s :
  forallb PyStr.is_ascii s = true ->
  md5_rounds 3 s = Ok (md5_hex (md5_hex (md5_hex s))).
Proof.
  intros H. simpl. unfold PyStr.encode_ascii at 1. rewrite H.
  rewrite !encode_hexdigest. reflexivity.
Qed.

Lemma md5_rounds_non_ascii n s :
  forallb PyStr.is_ascii s = false -> md5_rounds (S n) s = Raise UnicodeEncodeError.
Proof. intros H. simpl. unfold PyStr.encode_ascii. rewrite H. reflexivity. Qed.

(** C8 (as amended).  Hashing is a function of the password.  A password
    that, stripped and lowercased, starts with [hashed:] or [md5:] yields
    what follows the marker in the stripped password, verbatim (so
    "hashed:abc" yields "abc"); any other password whose stripped text is
    ASCII yields three iterated MD5 hex digests of the stripped text; any
    other password with a non-ASCII character in its stripped text raises
    the encoding error and yields no digest. *)
Theorem hash_password_scheme (U : unicode_db) (password : pystr) :
  (carries_marker U password = true ->
   exists prefix,
     In prefix [u "hashed:"; u "md5:"]
     /\ PyStr.startswith (PyStr.lower U (PyStr.strip password)) prefix = true
     /\ _hash_password U password
        = Ok (skipn (List.length prefix) (PyStr.strip password)))
  /\ (carries_marker U password = false ->
      forallb PyStr.is_ascii (PyStr.strip password) = true ->
      _hash_password U password
      = Ok (md5_hex (md5_hex (md5_hex (PyStr.strip password)))))
  /\ (carries_marker U password = false ->
      forallb PyStr.is_ascii (PyStr.strip password) = false ->
      _hash_password U password = Raise UnicodeEncodeError)
  /\ _hash_password U (u "hashed:abc") = Ok (u "abc").
Proof.
  unfold carries_marker, _hash_password. simpl marked_value.
  destruct (PyStr.startswith (PyStr.lower U (PyStr.strip password)) (u "hashed:"))
    eqn:Hh; simpl orb.
  - split; [|split; [discriminate | split; [discriminate | reflexivity]]].
    intros _. exists (u "hashed:"). split; [left; reflexivity|].
    split; [exact Hh | reflexivity].
  - destruct (PyStr.startswith (PyStr.lower U (PyStr.strip password)) (u "md5:"))
      eqn:Hm.
    + split; [|split; [discriminate | split; [discriminate | reflexivity]]].
      intros _. exists (u "md5:"). split; [right; left; reflexivity|].
      split; [exact Hm | reflexivity].
    + split; [discriminate|].
      split; [intros _ Ha; apply md5_rounds_three; exact Ha|].
      split; [intros _ Ha; apply md5_rounds_non_ascii; exact Ha | reflexivity].
Qed.

Lemma hash_password_scheme_witness :
  _hash_password ucd_sample (u " secret ")
  = Ok (u "19ff59e135cce19e3493402cb3884628").
Proof.
  rewrite (proj1 (proj2 (hash_password_scheme ucd_sample (u " secret ")))
             eq_refl eq_refl).
  vm_compute. reflexivity.
Defined.

(** C8 (as stated) fails: a raw password with a non-ASCII letter gets no
    digest round, the encoding to ASCII raises. *)
Lemma hash_password_non_ascii :
  carries_marker ucd_sample [112%N; 233%N] = false
  /\ _hash_password ucd_sample [112%N; 233%N] = Raise UnicodeEncodeError
  /\ forall digest, _hash_password ucd_sample [112%N; 233%N] <> Ok digest.
Proof.
  split; [vm_compute; reflexivity|].
  split; [vm_compute; reflexivity|].
  intros digest. vm_compute. discriminate.
Qed.

(** ** Running computations *)

Lemma bind_inv {A B} (c : M A) (k : A -> M B) w r w' :
  bind c k w = (r, w') ->
  (exists a w1, c w = (Ok a, w1) /\ k a w1 = (r, w'))
  \/ (exists e, c w = (Raise e, w') /\ r = Raise e).
Proof.
  unfold bind. destruct (c w) as [[a|e] w1]; intros H.
  - left. exists a, w1. split; [reflexivity | exact H].
  - right. exists e. inversion H. subst. split; reflexivity.
Qed.

Lemma bind_ok {A B} (c : M A) (k : A -> M B) w a w1 :
  c w = (Ok a, w1) -> bind c k w = k a w1.
Proof. unfold bind. intros ->. reflexivity. Qed.

Lemma extends_refl w : extends [] w w.
Proof. unfold extends. rewrite app_nil_r. auto. Qed.

Lemma extends_trans rs1 rs2 w1 w2 w3 :
  extends rs1 w1 w2 -> extends rs2 w2 w3 -> extends (rs1 ++ rs2) w1 w3.
Proof.
  unfold extends. intros (Ha & Hb & Hc) (Ha' & Hb' & Hc').
  rewrite Ha', Ha, Hb', Hb, Hc', Hc, app_assoc. auto.
Qed.

Lemma extends_tick w : extends [] w (tick_clock w).
Proof. unfold extends. simpl. rewrite app_nil_r. auto. Qed.

Lemma extends_log rq w : extends [rq] w (log_request rq w).
Proof. unfold extends. simpl. auto. Qed.

Section SessionFacts.
Variable E : env.

Lemma validate_unfold d resp w :
  _validate E (S d) resp w
  = match classify resp with
    | Raise e => (Raise e, w)
    | Ok Expired =>
        bind (refresh_token_with E (_validate E d)) (fun _ => raise TokenRefreshed) w
    | Ok (Failed code msg) => (Raise (WyzeApiError code msg), w)
    | Ok (Accepted x) => (Ok x, w)
    end.
Proof.
  cbn [_validate]. unfold classify.
  unfold bind at 1, lift at 1.
  destruct (resp_json resp) as [data|e]; [|reflexivity]. cbn [rbind].
  unfold bind at 1, lift at 1.
  destruct (Py.get data (u "errorCode") (JNum 0)) as [dflt|e]; [|reflexivity].
  cbn [rbind]. unfold bind at 1, lift at 1.
  destruct (Py.get data (u "code") dflt) as [v|e]; [|reflexivity]. cbn [rbind].
  destruct (pystr_eqb (Py.str v) (u "2001")); [reflexivity|].
  destruct (negb _).
  - unfold bind at 1, lift at 1.
    destruct (Py.get data (u "description") (JStr (Py.str v))) as [dd|e];
      [|reflexivity].
    cbn [rbind]. unfold bind at 1, lift at 1.
    destruct (Py.get data (u "msg") dd) as [msg|e]; reflexivity.
  - unfold lift. destruct (Py.get data (u "data") data); reflexivity.
Qed.

Lemma index_not_refreshed d k : Py.index d k <> Raise TokenRefreshed.
Proof.
  destruct d; simpl; try discriminate.
  destruct (Py.dict_get k fields); discriminate.
Qed.

Lemma classify_not_refreshed resp : classify resp <> Raise TokenRefreshed.
Proof.
  unfold classify, resp_json.
  destruct (body resp) as [data|]; simpl; [|discriminate].
  destruct data; simpl; try discriminate.
  destruct (pystr_eqb _ (u "2001")); [discriminate|].
  destruct (negb _); discriminate.
Qed.

Lemma payload_not_refreshed endpoint w w' :
  _payload E endpoint w <> (Raise TokenRefreshed, w').
Proof.
  unfold _payload, bind, time_time, gets, lift, ret. simpl.
  pose proof (index_not_refreshed (creds w) (u "access_token")) as Ha.
  pose proof (index_not_refreshed (creds w) (u "phone_id")) as Hb.
  destruct (Py.index (creds w) (u "access_token")); [|congruence].
  destruct (Py.index (creds w) (u "phone_id")); congruence.
Qed.

Lemma payload_run endpoint w :
  exists r, _payload E endpoint w = (r, tick_clock w).
Proof.
  unfold _payload, bind, time_time, gets, lift, ret. simpl.
  destruct (Py.index (creds w) (u "access_token")); [|eauto].
  destruct (Py.index (creds w) (u "phone_id")); eauto.
Qed.

Lemma send_run rq w :
  requests_send E rq w
  = (match vendor E (sent w) rq with
     | ConnectionFailed => Raise RequestException
     | Replied r => Ok r
     end, log_request rq w).
Proof. unfold requests_send. destruct (vendor E (sent w) rq); reflexivity. Qed.



Lemma get_or_run d k (default : M json) w r w' :
  get_or d k default w = (r, w') ->
  (forall r0 w0, default w = (r0, w0) -> w0 = w) ->
  w' = w.
Proof.
  unfold get_or. destruct d; try (unfold raise; intros [= _ <-]; reflexivity).
  intros H Hd. apply bind_inv in H.
  destruct H as [(a & w1 & Ha & Hk) | (e & Ha & _)].
  - unfold ret in Hk. inversion Hk. subst. eapply Hd. exact Ha.
  - eapply Hd. exact Ha.
Qed.

Lemma creds_lookup_run k w r0 w0 :
  bind (gets creds) (fun c => lift (Py.index c k)) w = (r0, w0) -> w0 = w.
Proof.
  unfold bind, gets, lift. intros H. inversion H. reflexivity.
Qed.

Lemma creds_setitem_run k v w r w' :
  creds_setitem k v w = (r, w') -> extends [] w w'.
Proof.
  unfold creds_setitem. destruct (creds w); intros H; inversion H; subst;
    try apply extends_refl.
  unfold extends. simpl. rewrite app_nil_r. auto.
Qed.

(** After the refresh response is validated: the two assignments and the
    save. *)
Lemma refresh_tail_run data w r w' :
  bind (get_or data (u "access_token")
          (bind (gets creds) (fun c => lift (Py.index c (u "access_token")))))
    (fun a => bind (creds_setitem (u "access_token") a) (fun _ =>
       bind (get_or data (u "refresh_token")
               (bind (gets creds) (fun c => lift (Py.index c (u "refresh_token")))))
         (fun r => bind (creds_setitem (u "refresh_token") r) (fun _ =>
            _save_tokens E)))) w = (r, w') ->
  extends [] w w'.
Proof.
  intros H. apply bind_inv in H.
  destruct H as [(a & w1 & Ha & H) | (e & Ha & _)].
  2:{ apply get_or_run in Ha; [subst; apply extends_refl|].
      intros; eapply creds_lookup_run; eauto. }
  apply get_or_run in Ha; [subst w1|intros; eapply creds_lookup_run; eauto].
  apply bind_inv in H.
  destruct H as [(x & w2 & Hs & H) | (e & Hs & _)].
  2:{ eapply creds_setitem_run; eauto. }
  apply creds_setitem_run in Hs.
  apply bind_inv in H.
  destruct H as [(b & w3 & Hb & H) | (e & Hb & _)].
  2:{ apply get_or_run in Hb; [subst; exact Hs|].
      intros; eapply creds_lookup_run; eauto. }
  apply get_or_run in Hb; [subst w3|intros; eapply creds_lookup_run; eauto].
  apply bind_inv in H.
  destruct H as [(y & w4 & Hs2 & H) | (e & Hs2 & _)].
  2:{ apply creds_setitem_run in Hs2.
      apply (extends_trans [] [] _ _ _ Hs Hs2). }
  apply creds_setitem_run in Hs2.
  assert (Hx : extends [] w4 w').
  { unfold _save_tokens in H.
    destruct (disk E (writes w4)) as [|[f|]]; inversion H; subst;
      unfold extends; simpl; rewrite app_nil_r; auto. }
  apply (extends_trans [] [] _ _ _ Hs).
  apply (extends_trans [] [] _ _ _ Hs2 Hx).
Qed.

Lemma refresh_with_trace (validate : response -> M json) :
  (forall resp w r w', validate resp w = (r, w') -> refresh_only w r w') ->
  forall w r w',
    refresh_token_with E validate w = (r, w') ->
    exists rs,
      extends rs w w' /\ forallb is_refresh rs = true
      /\ (forall a, r = Ok a -> rs <> [])
      /\ (r = Raise TokenRefreshed -> rs <> []).
Proof.
  intros Hv w r w' H. unfold refresh_token_with in H.
  apply bind_inv in H.
  destruct (payload_run (u "default") w) as [rp Hp].
  destruct H as [(payload & w1 & Ha & H) | (e & Ha & ->)].
  2:{ assert (w' = tick_clock w) by congruence. subst w'.
      exists []. split; [apply extends_tick|]. split; [reflexivity|].
      split; [discriminate|].
      intros Heq. injection Heq as ->. exfalso.
      exact (payload_not_refreshed _ _ _ Ha). }
  rewrite Hp in Ha. inversion Ha. subst rp w1. clear Ha.
  apply bind_inv in H.
  destruct H as [(c & w1 & Ha & H) | (e & Ha & _)]; [|discriminate Ha].
  unfold gets in Ha. inversion Ha. subst c w1. clear Ha.
  apply bind_inv in H.
  destruct H as [(rt & w1 & Ha & H) | (e & Ha & ->)].
  2:{ unfold lift in Ha. injection Ha as Ha <-.
      exists []. split; [apply extends_tick|]. split; [reflexivity|].
      split; [discriminate|].
      intros Heq. injection Heq as ->. exfalso.
      exact (index_not_refreshed _ _ Ha). }
  unfold lift in Ha. inversion Ha. subst w1. clear Ha.
  apply bind_inv in H. unfold requests_post in H.
  set (rq := {| rq_method := POST; rq_url := WYZE_API ++ u "/user/refresh_token";
                rq_headers := _ ; rq_json := _ |}) in H.
  assert (Hrq : is_refresh rq = true) by apply pystr_eqb_refl.
  rewrite send_run in H.
  destruct H as [(resp & w1 & Ha & H) | (e & Ha & ->)].
  2:{ inversion Ha. subst. exists [rq].
      split; [apply (extends_trans [] [rq] _ _ _ (extends_tick w)), extends_log|].
      split; [cbn [forallb app]; rewrite Hrq; reflexivity|].
      split; [discriminate | discriminate]. }
  inversion Ha. subst w1. clear Ha.
  assert (Hsent : extends [rq] w (log_request rq (tick_clock w))).
  { apply (extends_trans [] [rq] _ _ _ (extends_tick w)), extends_log. }
  apply bind_inv in H.
  destruct H as [(data & w2 & Ha & H) | (e & Ha & ->)].
  - destruct (Hv _ _ _ _ Ha) as (rs & Hext & Hrs & Hok & _).
    rewrite (Hok data eq_refl) in H.
    apply refresh_tail_run in H.
    exists [rq]. split; [exact (extends_trans [rq] [] _ _ _ Hsent H)|].
    split; [cbn [forallb app]; rewrite Hrq; reflexivity|].
    split; discriminate.
  - destruct (Hv _ _ _ _ Ha) as (rs & Hext & Hrs & _ & _).
    exists ([rq] ++ rs). split; [exact (extends_trans _ _ _ _ _ Hsent Hext)|].
    split; [cbn [forallb app]; rewrite Hrq; exact Hrs|].
    split; discriminate.
Qed.

Lemma validate_trace depth :
  forall resp w r w', _validate E depth resp w = (r, w') -> refresh_only w r w'.
Proof.
  induction depth as [|d IH]; intros resp w r w' H.
  - simpl in H. unfold raise in H. inversion H. subst.
    exists []. split; [apply extends_refl|]. split; [reflexivity|].
    split; [discriminate | discriminate].
  - rewrite validate_unfold in H.
    destruct (classify resp) as [[|code msg|x]|e] eqn:Hc.
    + apply bind_inv in H.
      destruct H as [(a & w1 & Ha & H) | (e & Ha & ->)].
      * destruct (refresh_with_trace _ IH _ _ _ Ha) as (rs & Hext & Hrs & Hok & _).
        unfold raise in H. inversion H. subst.
        exists rs. split; [exact Hext|]. split; [exact Hrs|].
        split; [discriminate|]. intros _. exact (Hok a eq_refl).
      * destruct (refresh_with_trace _ IH _ _ _ Ha) as (rs & Hext & Hrs & _ & Hr).
        exists rs. split; [exact Hext|]. split; [exact Hrs|].
        split; [discriminate|].
        intros Heq. injection Heq as ->. apply Hr. reflexivity.
    + inversion H. subst. exists []. split; [apply extends_refl|].
      split; [reflexivity|]. split; discriminate.
    + inversion H. subst. exists []. split; [apply extends_refl|].
      split; [reflexivity|]. split; [reflexivity | discriminate].
    + inversion H. subst. exists []. split; [apply extends_refl|].
      split; [reflexivity|]. split; [discriminate|].
      intros Heq. injection Heq as ->.
      exfalso. exact (classify_not_refreshed resp Hc).
Qed.

End SessionFacts.

(** ** The relay pattern *)

Section RelayFacts.
Variable U : unicode_db.

Lemma startswith_app lit s : PyStr.startswith (lit ++ s) lit = true.
Proof.
  induction lit as [|c lit IH]; simpl; [destruct s; reflexivity|].
  rewrite N.eqb_refl. exact IH.
Qed.

Lemma skipn_app_exact {A} (a b : list A) : skipn (List.length a) (a ++ b) = b.
Proof. induction a as [|x a IH]; simpl; [reflexivity | exact IH]. Qed.

Lemma literal_app lit s : literal lit (lit ++ s) = Some s.
Proof. unfold literal. rewrite startswith_app, skipn_app_exact. reflexivity. Qed.

Lemma span_stop p a c rest :
  forallb p a = true -> p c = false -> span p (a ++ c :: rest) = (a, c :: rest).
Proof.
  intros Ha Hc. induction a as [|x a IH]; simpl.
  - rewrite Hc. reflexivity.
  - simpl in Ha. apply andb_prop in Ha. destruct Ha as [Hx Ha].
    rewrite Hx, (IH Ha). reflexivity.
Qed.

Lemma span_all p a : forallb p a = true -> span p a = (a, []).
Proof.
  intros Ha. induction a as [|x a IH]; simpl; [reflexivity|].
  simpl in Ha. apply andb_prop in Ha. destruct Ha as [Hx Ha].
  rewrite Hx, (IH Ha). reflexivity.
Qed.

Lemma digits_then_app ds c lit s :
  digit_run U ds = true -> PyStr.is_digit U c = false ->
  digits_then U (c :: lit) (ds ++ (c :: lit) ++ s) = Some (ds, s).
Proof.
  intros Hds Hc. unfold digits_then.
  destruct ds as [|x ds]; [discriminate|].
  unfold digit_run in Hds.
  change ((x :: ds) ++ (c :: lit) ++ s) with ((x :: ds) ++ c :: (lit ++ s)).
  rewrite (span_stop _ _ _ _ Hds Hc).
  change (c :: lit ++ s) with ((c :: lit) ++ s).
  rewrite literal_app. reflexivity.
Qed.

Lemma host_tail_app host rest :
  host <> [] ->
  forallb (fun c => negb (c =? 58)%N) host = true ->
  forallb (fun c => negb (c =? 10)%N) rest = true ->
  host_tail (host ++ u ":" ++ rest) = Some (u ":" ++ rest).
Proof.
  intros Hne Hhost Hrest. unfold host_tail.
  change (host ++ u ":" ++ rest) with (host ++ 58%N :: rest).
  rewrite (span_stop _ host 58%N rest Hhost eq_refl).
  destruct host as [|x host]; [congruence|].
  rewrite (span_all _ _ Hrest). reflexivity.
Qed.

Lemma match_relay_hyphened scheme a b c d host rest :
  scheme = u "turn:" \/ scheme = u "turns:" ->
  digit_run U a = true -> digit_run U b = true ->
  digit_run U c = true -> digit_run U d = true ->
  host <> [] ->
  forallb (fun x => negb (x =? 58)%N) host = true ->
  forallb (fun x => negb (x =? 10)%N) rest = true ->
  match_relay U
    (scheme ++ a ++ u "-" ++ b ++ u "-" ++ c ++ u "-" ++ d
       ++ u ".t-" ++ host ++ u ":" ++ rest)
  = Some (scheme, a, b, c, d, u ":" ++ rest).
Proof.
  intros Hs Ha Hb Hc Hd Hne Hhost Hrest.
  unfold match_relay.
  assert (Hscheme : forall s, scheme_of (scheme ++ s) = Some (scheme, s)).
  { intros s. unfold scheme_of. destruct Hs as [-> | ->].
    - change (literal (u "turns:") (u "turn:" ++ s)) with (@None pystr).
      rewrite literal_app. reflexivity.
    - rewrite literal_app. reflexivity. }
  rewrite Hscheme.
  rewrite (digits_then_app a 45%N [] _ Ha eq_refl).
  rewrite (digits_then_app b 45%N [] _ Hb eq_refl).
  rewrite (digits_then_app c 45%N [] _ Hc eq_refl).
  rewrite (digits_then_app d 46%N (u "t-") _ Hd eq_refl).
  rewrite (host_tail_app _ _ Hne Hhost Hrest).
  reflexivity.
Qed.

End RelayFacts.

(** C6 (as amended).  A URL made of [turn:] or [turns:], four non-empty
    runs of decimal digits joined by hyphens, [.t-], a non-empty host part
    without a colon, a colon and a rest without a line break is rewritten
    to the scheme, the four runs joined by dots, the colon and the rest;
    in particular [turn:54-201-33-198.t-xyz.kinesisvideo.example:443]
    becomes [turn:54.201.33.198:443].  A URL the pattern does not match is
    left as it is.  A descriptor's legacy [url] field is renamed to [urls]
    and its text normalized the same way. *)
Theorem relay_descriptor_normalized (U : unicode_db)
    (scheme a b c d host rest : pystr) :
  scheme = u "turn:" \/ scheme = u "turns:" ->
  digit_run U a = true -> digit_run U b = true ->
  digit_run U c = true -> digit_run U d = true ->
  host <> [] ->
  forallb (fun x => negb (x =? 58)%N) host = true ->
  forallb (fun x => negb (x =? 10)%N) rest = true ->
  normalized_url U
    (scheme ++ a ++ u "-" ++ b ++ u "-" ++ c ++ u "-" ++ d
       ++ u ".t-" ++ host ++ u ":" ++ rest)
  = scheme ++ a ++ u "." ++ b ++ u "." ++ c ++ u "." ++ d ++ u ":" ++ rest
  /\ normalized_url U (u "turn:54-201-33-198.t-xyz.kinesisvideo.example:443")
     = u "turn:54.201.33.198:443"
  /\ (forall urls, match_relay U urls = None -> normalized_url U urls = urls)
  /\ (forall fields urls,
        Py.dict_get (u "url") fields = None ->
        Py.dict_get (u "urls") fields = Some (JStr urls) ->
        normalize_server U (JObj fields)
        = Ok (JObj (Py.dict_set (u "urls") (JStr (normalized_url U urls)) fields))
        /\ (match_relay U urls = None ->
            normalize_server U (JObj fields) = Ok (JObj fields)))
  /\ (forall fields urls,
        Py.dict_get (u "url") fields = Some (JStr urls) ->
        exists fields',
          normalize_server U (JObj fields) = Ok (JObj fields')
          /\ Py.dict_get (u "url") fields' = None
          /\ Py.dict_get (u "urls") fields' = Some (JStr (normalized_url U urls))).
Proof.
  intros Hs Ha Hb Hc Hd Hne Hhost Hrest.
  split.
  { unfold normalized_url.
    rewrite (match_relay_hyphened U _ _ _ _ _ _ _ Hs Ha Hb Hc Hd Hne Hhost Hrest).
    reflexivity. }
  split; [reflexivity|].
  split; [intros urls Hm; unfold normalized_url; rewrite Hm; reflexivity|].
  split.
  - intros fields urls Hurl Hurls.
    assert (Hrun : normalize_server U (JObj fields)
                   = Ok (JObj (Py.dict_set (u "urls")
                                 (JStr (normalized_url U urls)) fields))).
    { unfold normalize_server, normalized_url. rewrite Hurl, Hurls.
      destruct (match_relay U urls); [reflexivity|].
      rewrite (dict_set_same _ _ _ Hurls). reflexivity. }
    split; [exact Hrun|].
    intros Hm. rewrite Hrun. unfold normalized_url. rewrite Hm.
    rewrite (dict_set_same _ _ _ Hurls). reflexivity.
  - intros fields urls Hurl.
    unfold normalize_server. rewrite Hurl, dict_get_set_same.
    fold (normalized_url U urls).
    assert (Hne' : u "urls" <> u "url") by discriminate.
    destruct (match_relay U urls) as [m|] eqn:Hm.
    + eexists. split; [reflexivity|]. split.
      * rewrite dict_get_set_other by exact Hne'.
        rewrite dict_get_set_other by exact Hne'.
        apply dict_get_del_same.
      * rewrite dict_get_set_same. unfold normalized_url. rewrite Hm. reflexivity.
    + eexists. split; [reflexivity|]. split.
      * rewrite dict_get_set_other by exact Hne'. apply dict_get_del_same.
      * rewrite dict_get_set_same. unfold normalized_url. rewrite Hm. reflexivity.
Qed.

Lemma relay_descriptor_normalized_witness :
  normalized_url ucd_sample (u "turns:10-0-12-7.t-ab12.kinesisvideo.example:5349?transport=tcp")
  = u "turns:10.0.12.7:5349?transport=tcp".
Proof.
  apply (proj1 (relay_descriptor_normalized ucd_sample
                  (u "turns:") (u "10") (u "0") (u "12") (u "7")
                  (u "ab12.kinesisvideo.example") (u "5349?transport=tcp")
                  (or_intror eq_refl) eq_refl eq_refl eq_refl eq_refl
                  ltac:(discriminate) eq_refl eq_refl)).
Defined.

(** C6 (as stated) fails: a relay URL whose host is four hyphened octets
    and a suffix that does not start with [t-] is left as it is. *)
Lemma relay_other_suffix_unchanged :
  u "turn:54-201-33-198.relay.example:443"
  = u "turn:" ++ u "54" ++ u "-" ++ u "201" ++ u "-" ++ u "33" ++ u "-" ++ u "198"
      ++ u "." ++ u "relay.example" ++ u ":443"
  /\ normalize_server ucd_sample
       (JObj [ (u "urls", JStr (u "turn:54-201-33-198.relay.example:443")) ])
     = Ok (JObj [ (u "urls", JStr (u "turn:54-201-33-198.relay.example:443")) ])
  /\ normalize_server ucd_sample
       (JObj [ (u "urls", JStr (u "turn:54-201-33-198.relay.example:443")) ])
     <> Ok (JObj [ (u "urls", JStr (u "turn:54.201.33.198:443")) ]).
Proof.
  split; [reflexivity|].
  split; [vm_compute; reflexivity|].
  vm_compute. discriminate.
Qed.

(** ** The device cache *)

Section CacheFacts.
Variable E : env.

Lemma extends_same rs w : extends rs w w -> rs = [].
Proof.
  intros (_ & _ & H). rewrite <- (app_nil_r (sent w)) in H at 1.
  apply app_inv_head in H. symmetry. exact H.
Qed.

Lemma attempt_trace depth rq w r w' :
  attempt E depth rq w = (r, w') ->
  exists rs,
    extends (rq :: rs) w w' /\ forallb is_refresh rs = true
    /\ (forall a, r = Ok a -> rs = [])
    /\ (r = Raise TokenRefreshed -> rs <> []).
Proof.
  unfold attempt. intros H. apply bind_inv in H. rewrite send_run in H.
  destruct H as [(resp & w1 & Ha & H) | (e & Ha & ->)].
  - injection Ha as _ <-.
    destruct (validate_trace E _ _ _ _ _ H) as (rs & Hext & Hrs & Hok & Hr).
    exists rs. split; [exact (extends_trans [rq] rs _ _ _ (extends_log rq w) Hext)|].
    split; [exact Hrs|]. split; [|exact Hr].
    intros a ->. rewrite (Hok a eq_refl) in Hext. exact (extends_same _ _ Hext).
  - injection Ha as Ha <-. exists [].
    split; [apply extends_log|]. split; [reflexivity|].
    split; [discriminate|].
    intros Heq. injection Heq as ->.
    destruct (vendor E (sent w) rq); discriminate.
Qed.

Lemma post_object_list_trace depth w r w' :
  post_object_list E depth w = (r, w') ->
  (exists rq rs,
     extends (rq :: rs) w w' /\ is_listing rq = true
     /\ forallb is_refresh rs = true
     /\ (forall a, r = Ok a -> rs = [])
     /\ (r = Raise TokenRefreshed -> rs <> []))
  \/ (extends [] w w' /\ (forall a, r <> Ok a) /\ r <> Raise TokenRefreshed).
Proof.
  unfold post_object_list. intros H. apply bind_inv in H.
  destruct (payload_run E (u "default") w) as [rp Hp].
  destruct H as [(payload & w1 & Ha & H) | (e & Ha & ->)].
  - assert (w1 = tick_clock w) by congruence. subst w1.
    left. unfold requests_post in H.
    match type of H with
    | bind (requests_send E ?q) _ _ = _ => set (rq := q) in H
    end.
    destruct (attempt_trace depth rq _ _ _ H) as (rs & Hext & Hrs & Hok & Hr).
    exists rq, rs.
    split; [exact (extends_trans [] _ _ _ _ (extends_tick w) Hext)|].
    split; [apply pystr_eqb_refl|]. auto.
  - assert (w' = tick_clock w) by congruence. subst w'.
    right. split; [apply extends_tick|]. split; [discriminate|].
    intros Heq. injection Heq as ->.
    exact (payload_not_refreshed E _ _ _ Ha).
Qed.

(** The cache is out of reach of the listing, and a listing that returns
    has one of the two traces. *)
Lemma listing_with_retry_trace depth w r w' :
  listing_with_retry E depth w = (r, w') ->
  exists new,
    extends new w w'
    /\ (forall a, r = Ok a -> listing_trace new).
Proof.
  unfold listing_with_retry, except_TokenRefreshed. intros H.
  destruct (post_object_list E depth w) as [r1 w1] eqn:H1.
  assert (Hcase : (r1 = Raise TokenRefreshed
                   /\ post_object_list E depth w1 = (r, w'))
                  \/ (r1 <> Raise TokenRefreshed /\ r1 = r /\ w1 = w')).
  { destruct r1 as [a|e]; [right; split; [discriminate|]; split; congruence|].
    destruct e; try (right; split; [discriminate|]; split; congruence).
    left. split; [reflexivity | exact H]. }
  clear H. apply post_object_list_trace in H1.
  destruct Hcase as [(-> & H2) | (Hn & -> & ->)].
  - destruct H1 as [(rq1 & rs1 & Hext1 & Hl1 & Hrs1 & _ & Hr1) | (_ & _ & Hn)];
      [|congruence].
    specialize (Hr1 eq_refl).
    apply post_object_list_trace in H2.
    destruct H2 as [(rq2 & rs2 & Hext2 & Hl2 & Hrs2 & Hok2 & _) | (Hext2 & Hn2 & _)].
    + exists ((rq1 :: rs1) ++ rq2 :: rs2).
      split; [exact (extends_trans _ _ _ _ _ Hext1 Hext2)|].
      intros a ->. rewrite (Hok2 a eq_refl). right.
      exists rq1, rs1, rq2. auto.
    + exists ((rq1 :: rs1) ++ []).
      split; [exact (extends_trans _ _ _ _ _ Hext1 Hext2)|].
      intros a ->. exfalso. exact (Hn2 a eq_refl).
  - destruct H1 as [(rq1 & rs1 & Hext1 & Hl1 & Hrs1 & Hok1 & _) | (Hext & Hno & _)].
    + exists (rq1 :: rs1). split; [exact Hext1|].
      intros a ->. rewrite (Hok1 a eq_refl). left. exists rq1. auto.
    + exists []. split; [exact Hext|].
      intros a ->. exfalso. exact (Hno a eq_refl).
Qed.

Lemma fetch_cameras_unfold depth w :
  fetch_cameras E depth w
  = if negb (Py.truthy (creds w)) then (Ok [], w)
    else
      let now := clock E (clock_reads w) in
      if cache_fresh now w then (Ok (cameras w), tick_clock w)
      else
        match listing_with_retry E depth (tick_clock w) with
        | (Raise e, w2) => (Raise e, w2)
        | (Ok data, w2) =>
            match cameras_from E data with
            | Raise e => (Raise e, w2)
            | Ok cams => (Ok cams, set_cache cams now w2)
            end
        end.
Proof.
  unfold fetch_cameras, cache_fresh.
  unfold bind at 1, gets at 1.
  destruct (negb (Py.truthy (creds w))); [reflexivity|].
  unfold bind at 1, time_time at 1.
  unfold bind at 1, gets at 1. unfold bind at 1, gets at 1.
  cbn [cameras cameras_ts tick_clock].
  destruct (match cameras w with [] => false | _ => true end
            && (if Qlt_le_dec (clock E (clock_reads w) - cameras_ts w) CACHE_TTL
                then true else false)); [reflexivity|].
  unfold bind at 1. fold (listing_with_retry E depth).
  destruct (listing_with_retry E depth (tick_clock w)) as [[data|e] w2];
    [|reflexivity].
  unfold cameras_from, bind, lift, modify, ret.
  destruct (Py.get data (u "device_list") (JArr [])) as [dl|e]; [|reflexivity].
  cbn [rbind]. destruct (Py.iter dl) as [devs|e]; [|reflexivity].
  cbn [rbind]. destruct (cameras_of E devs); reflexivity.
Qed.

Lemma cache_fresh_true (now : Q) w :
  cameras w <> [] -> (now - cameras_ts w < CACHE_TTL)%Q -> cache_fresh now w = true.
Proof.
  intros Hne Hlt. unfold cache_fresh.
  destruct (cameras w); [congruence|]. simpl.
  destruct (Qlt_le_dec (now - cameras_ts w) CACHE_TTL) as [_|Hle]; [reflexivity|].
  exfalso. exact (Qle_not_lt _ _ Hle Hlt).
Qed.

Lemma cache_fresh_false (now : Q) w :
  cameras w = [] \/ (CACHE_TTL <= now - cameras_ts w)%Q -> cache_fresh now w = false.
Proof.
  intros [He | Hle]; unfold cache_fresh.
  - rewrite He. reflexivity.
  - destruct (Qlt_le_dec (now - cameras_ts w) CACHE_TTL) as [Hlt|_].
    + exfalso. exact (Qle_not_lt _ _ Hle Hlt).
    + apply andb_false_r.
Qed.

End CacheFacts.

(** C9.  Without credentials [list()] returns the empty sequence, raises
    nothing and leaves the process as it was: no request is issued. *)
Theorem list_without_credentials (E : env) (depth : nat) (w : world) :
  Py.truthy (creds w) = false ->
  fetch_cameras E depth w = (Ok [], w).
Proof.
  intros H. rewrite fetch_cameras_unfold, H. reflexivity.
Qed.

Lemma list_without_credentials_witness :
  fetch_cameras (scripted []) 3 (at_import FileMissing)
  = (Ok [], at_import FileMissing).
Proof.
  apply (list_without_credentials (scripted []) 3 (at_import FileMissing)).
  reflexivity.
Defined.

(** C4.  Whenever [list()] raises, the cached entries and the fetch
    timestamp are what they were; and when a refresh is due (credentials
    present, cache empty or expired) and the device listing raises, that
    error is what [list()] raises: the stale entries are not returned. *)
Theorem failed_refresh_keeps_cache (E : env) (depth : nat) (w : world) :
  (forall e w',
     fetch_cameras E depth w = (Raise e, w') ->
     cameras w' = cameras w /\ cameras_ts w' = cameras_ts w)
  /\ (Py.truthy (creds w) = true ->
      cache_fresh (clock E (clock_reads w)) w = false ->
      forall e w2,
        listing_with_retry E depth (tick_clock w) = (Raise e, w2) ->
        fetch_cameras E depth w = (Raise e, w2)
        /\ cameras w2 = cameras w /\ cameras_ts w2 = cameras_ts w).
Proof.
  assert (Hframe : forall r w2,
            listing_with_retry E depth (tick_clock w) = (r, w2) ->
            cameras w2 = cameras w /\ cameras_ts w2 = cameras_ts w).
  { intros r w2 H. apply listing_with_retry_trace in H.
    destruct H as (new & (Hc & Ht & _) & _). simpl in Hc, Ht. auto. }
  split.
  - intros e w'. rewrite fetch_cameras_unfold.
    destruct (negb (Py.truthy (creds w))); [discriminate|]. cbv zeta.
    destruct (cache_fresh _ w); [discriminate|].
    destruct (listing_with_retry E depth (tick_clock w)) as [[data|e0] w2] eqn:Hl.
    + destruct (cameras_from E data); [discriminate|].
      intros [= _ <-]. exact (Hframe _ _ eq_refl).
    + intros [= _ <-]. exact (Hframe _ _ eq_refl).
  - intros Hc Hf e w2 Hl. rewrite fetch_cameras_unfold, Hc. cbv zeta.
    cbn [negb]. rewrite Hf, Hl. split; [reflexivity | exact (Hframe _ _ Hl)].
Qed.

Lemma failed_refresh_keeps_cache_witness :
  fetch_cameras (scripted []) 3 (set_cache [sample_camera] 0 (logged_in sample_creds))
  = (Raise RequestException,
     snd (listing_with_retry (scripted []) 3
            (tick_clock (set_cache [sample_camera] 0 (logged_in sample_creds)))))
  /\ cameras (snd (listing_with_retry (scripted []) 3
            (tick_clock (set_cache [sample_camera] 0 (logged_in sample_creds)))))
     = [sample_camera].
Proof.
  pose proof (proj2 (failed_refresh_keeps_cache (scripted []) 3
                (set_cache [sample_camera] 0 (logged_in sample_creds)))
                eq_refl eq_refl RequestException _ eq_refl) as H.
  split; [exact (proj1 H) | exact (proj1 (proj2 H))].
Defined.

Section ListFacts.
Variable E : env.

Lemma payload_ok endpoint w kv tok pid :
  creds w = JObj kv ->
  Py.dict_get (u "access_token") kv = Some tok ->
  Py.dict_get (u "phone_id") kv = Some pid ->
  _payload E endpoint w
  = (Ok (payload_fields endpoint (clock E (clock_reads w)) tok pid), tick_clock w).
Proof.
  intros Hc Ha Hp.
  unfold _payload, bind, time_time, gets, lift, ret. cbn [creds tick_clock].
  rewrite Hc. cbn [Py.index]. rewrite Ha, Hp. reflexivity.
Qed.

Lemma validate_accepted depth resp data w :
  (1 <= depth)%nat -> classify resp = Ok (Accepted data) ->
  _validate E depth resp w = (Ok data, w).
Proof.
  intros Hd Hc. destruct depth as [|d]; [lia|].
  rewrite validate_unfold, Hc. reflexivity.
Qed.

Lemma attempt_accepted depth rq resp data w :
  (1 <= depth)%nat ->
  vendor E (sent w) rq = Replied resp ->
  classify resp = Ok (Accepted data) ->
  attempt E depth rq w = (Ok data, log_request rq w).
Proof.
  intros Hd Hv Hc. unfold attempt, bind. rewrite send_run, Hv.
  apply validate_accepted; assumption.
Qed.

End ListFacts.

(** C3 (as amended).  With credentials present: when the cache has entries
    and its age is under 120 s, [list()] returns the cached entries and
    only reads the clock (no request, cache untouched); when the cache is
    empty or its age is 120 s or more, a [list()] that returns has issued
    one listing request, or a listing request, one or more refresh requests
    and a second listing request, has made the returned entries the cache
    and the time read at its start the fetch timestamp; and it does return,
    after exactly one listing request, when the vendor accepts that request
    with a payload that normalizes. *)
Theorem list_cache_ttl (E : env) (depth : nat) (w : world) :
  Py.truthy (creds w) = true ->
  let now := clock E (clock_reads w) in
  (cameras w <> [] -> (now - cameras_ts w < CACHE_TTL)%Q ->
   fetch_cameras E depth w = (Ok (cameras w), tick_clock w))
  /\ (cameras w = [] \/ (CACHE_TTL <= now - cameras_ts w)%Q ->
      forall cams w',
        fetch_cameras E depth w = (Ok cams, w') ->
        cameras w' = cams /\ cameras_ts w' = now
        /\ exists new, sent w' = sent w ++ new /\ listing_trace new)
  /\ (cameras w = [] \/ (CACHE_TTL <= now - cameras_ts w)%Q ->
      forall kv tok pid resp data cams,
        (1 <= depth)%nat ->
        creds w = JObj kv ->
        Py.dict_get (u "access_token") kv = Some tok ->
        Py.dict_get (u "phone_id") kv = Some pid ->
        (forall rq, vendor E (sent w) rq = Replied resp) ->
        classify resp = Ok (Accepted data) ->
        cameras_from E data = Ok cams ->
        exists rq,
          is_listing rq = true
          /\ fetch_cameras E depth w
             = (Ok cams, set_cache cams now (log_request rq (tick_clock (tick_clock w))))).
Proof.
  intros Hc now. subst now. split; [|split].
  - intros Hne Hlt. rewrite fetch_cameras_unfold, Hc. cbn [negb]. cbv zeta.
    rewrite (cache_fresh_true _ _ Hne Hlt). reflexivity.
  - intros Hstale cams w'. rewrite fetch_cameras_unfold, Hc. cbn [negb]. cbv zeta.
    rewrite (cache_fresh_false _ _ Hstale).
    destruct (listing_with_retry E depth (tick_clock w)) as [[data|e] w2] eqn:Hl;
      [|discriminate].
    destruct (cameras_from E data) as [cs|e]; [|discriminate].
    intros [= <- <-].
    apply listing_with_retry_trace in Hl.
    destruct Hl as (new & (_ & _ & Hs) & Hshape).
    split; [reflexivity|]. split; [reflexivity|].
    exists new. split; [exact Hs | exact (Hshape data eq_refl)].
  - intros Hstale kv tok pid resp data cams Hd Hkv Ha Hp Hv Hcl Hn.
    rewrite fetch_cameras_unfold, Hc. cbn [negb]. cbv zeta.
    rewrite (cache_fresh_false _ _ Hstale).
    unfold listing_with_retry, except_TokenRefreshed, post_object_list.
    rewrite (bind_ok _ _ _ _ _ (payload_ok E (u "default") (tick_clock w) kv tok pid Hkv Ha Hp)).
    cbv beta. unfold requests_post.
    match goal with
    | |- context [bind (requests_send E ?q) _ _] => set (rq := q)
    end.
    change (bind (requests_send E rq) (fun resp => _validate E depth resp))
      with (attempt E depth rq).
    rewrite (attempt_accepted E depth rq resp data (tick_clock (tick_clock w))
               Hd (Hv rq) Hcl).
    rewrite Hn. exists rq. split; [apply pystr_eqb_refl | reflexivity].
Qed.

Lemma list_cache_ttl_witness :
  fetch_cameras (scripted []) 3
    (set_cache [sample_camera] (inject_Z 900) (logged_in sample_creds))
  = (Ok [sample_camera],
     tick_clock (set_cache [sample_camera] (inject_Z 900) (logged_in sample_creds))).
Proof.
  apply (proj1 (list_cache_ttl (scripted []) 3
                  (set_cache [sample_camera] (inject_Z 900) (logged_in sample_creds))
                  eq_refl)).
  - discriminate.
  - vm_compute. reflexivity.
Defined.

(** C3 (as stated) fails: with an empty cache, a listing answered by the
    expiry sentinel, a refresh answered by the expiry sentinel, a second
    refresh that succeeds and a listing that succeeds, [list()] returns
    after two refresh requests, not at most one. *)
Lemma list_after_two_refreshes :
  let E := scripted [ expired_reply; expired_reply;
                      refreshed_reply "at-1" "rt-1";
                      accepted_reply (JObj [ (u "device_list", JArr [sample_device]) ]) ] in
  let w := logged_in sample_creds in
  cameras w = []
  /\ fst (fetch_cameras E 3 w) = Ok [sample_camera]
  /\ map rq_url (sent (snd (fetch_cameras E 3 w)))
     = [listing_url; refresh_url; refresh_url; listing_url]
  /\ List.length (filter is_refresh (sent (snd (fetch_cameras E 3 w)))) = 2%nat.
Proof.
  cbv zeta. split; [reflexivity|].
  split; [vm_compute; reflexivity|].
  split; vm_compute; reflexivity.
Qed.

(** ** Token refresh *)

Section RefreshFacts.
Variable E : env.

Lemma refresh_run validate w kv tok pid rtok resp fields :
  creds w = JObj kv ->
  Py.dict_get (u "access_token") kv = Some tok ->
  Py.dict_get (u "phone_id") kv = Some pid ->
  Py.dict_get (u "refresh_token") kv = Some rtok ->
  let rq := refresh_request (clock E (clock_reads w)) tok pid rtok in
  vendor E (sent w) rq = Replied resp ->
  validate resp (log_request rq (tick_clock w))
  = (Ok (JObj fields), log_request rq (tick_clock w)) ->
  refresh_token_with E validate w
  = match disk E (writes w) with
    | Written => (Ok tt, after_refresh rq (refreshed_creds fields kv tok rtok) w)
    | WriteFails damage =>
        (Raise OSError,
         tick_write
           (match damage with
            | Some f => set_token_file f
            | None => fun w0 => w0
            end (set_creds (JObj (refreshed_creds fields kv tok rtok))
                   (log_request rq (tick_clock w)))))
    end.
Proof.
  intros Hkv Ha Hp Hr rq Hv Hval.
  unfold refresh_token_with.
  rewrite (bind_ok _ _ _ _ _ (payload_ok E (u "default") w kv tok pid Hkv Ha Hp)).
  unfold bind at 1, gets at 1. cbn [creds tick_clock]. rewrite Hkv.
  unfold bind at 1, lift at 1. cbn [Py.index]. rewrite Hr.
  unfold requests_post.
  match goal with
  | |- context [requests_send E ?q] => change q with rq
  end.
  unfold bind at 1. rewrite send_run. cbn [sent tick_clock]. rewrite Hv.
  unfold bind at 1. rewrite Hval.
  unfold get_or, bind, gets, lift, ret, creds_setitem, _save_tokens.
  assert (Hne : u "access_token" <> u "refresh_token") by discriminate.
  repeat (progress (cbn [creds writes log_request tick_clock set_creds Py.index];
                    rewrite ?Hkv, ?Ha, ?(dict_get_set_other _ _ _ _ Hne), ?Hr)).
  destruct (disk E (writes w)) as [|[f|]]; reflexivity.
Qed.

Lemma refresh_ok_run validate w kv tok pid rtok resp fields :
  creds w = JObj kv ->
  Py.dict_get (u "access_token") kv = Some tok ->
  Py.dict_get (u "phone_id") kv = Some pid ->
  Py.dict_get (u "refresh_token") kv = Some rtok ->
  let rq := refresh_request (clock E (clock_reads w)) tok pid rtok in
  vendor E (sent w) rq = Replied resp ->
  validate resp (log_request rq (tick_clock w))
  = (Ok (JObj fields), log_request rq (tick_clock w)) ->
  disk E (writes w) = Written ->
  refresh_token_with E validate w
  = (Ok tt, after_refresh rq (refreshed_creds fields kv tok rtok) w).
Proof.
  intros Hkv Ha Hp Hr rq Hv Hval Hd.
  rewrite (refresh_run validate w kv tok pid rtok resp fields Hkv Ha Hp Hr Hv Hval), Hd.
  reflexivity.
Qed.

Lemma validate_ok_inv depth resp w data w' :
  _validate E depth resp w = (Ok data, w') ->
  w' = w /\ classify resp = Ok (Accepted data) /\ (1 <= depth)%nat.
Proof.
  destruct depth as [|d]; [discriminate|].
  rewrite validate_unfold.
  destruct (classify resp) as [[|code msg|x]|e]; try discriminate.
  - intros H. apply bind_inv in H.
    destruct H as [(a & w1 & _ & H) | (e & _ & H)]; discriminate.
  - intros [= -> ->]. split; [reflexivity|]. split; [reflexivity | lia].
Qed.

Lemma payload_ok_inv endpoint w p w1 :
  _payload E endpoint w = (Ok p, w1) ->
  exists kv tok pid,
    creds w = JObj kv
    /\ Py.dict_get (u "access_token") kv = Some tok
    /\ Py.dict_get (u "phone_id") kv = Some pid.
Proof.
  unfold _payload, bind, time_time, gets, lift, ret. cbn [creds tick_clock].
  destruct (creds w) as [| | | | |kv]; cbn [Py.index]; try discriminate.
  destruct (Py.dict_get (u "access_token") kv) as [tok|] eqn:Ha; [|discriminate].
  destruct (Py.dict_get (u "phone_id") kv) as [pid|] eqn:Hp; [|discriminate].
  intros _. exists kv, tok, pid. auto.
Qed.


End RefreshFacts.



Example refresh_keeps_omitted_token :
  creds (snd (_refresh_token
                (scripted [accepted_reply (JObj [ (u "access_token", JStr (u "at-1")) ])])
                2 (logged_in sample_creds)))
  = JObj [ (u "access_token", JStr (u "at-1")); (u "refresh_token", JStr (u "rt-0"));
           (u "user_id", JStr (u "user-1")); (u "phone_id", JStr (u "phone-1")) ].
Proof. vm_compute. reflexivity. Qed.

(** ** Refresh and retry *)

Section RetryFacts.
Variable E : env.

Lemma refreshed_access fields kv tok rtok :
  Py.dict_get (u "access_token") (refreshed_creds fields kv tok rtok)
  = Some (field_or fields (u "access_token") tok).
Proof.
  unfold refreshed_creds, field_or. cbv zeta.
  rewrite dict_get_set_other by discriminate. apply dict_get_set_same.
Qed.

Lemma refreshed_refresh fields kv tok rtok :
  Py.dict_get (u "refresh_token") (refreshed_creds fields kv tok rtok)
  = Some (field_or fields (u "refresh_token") rtok).
Proof. unfold refreshed_creds, field_or. cbv zeta. apply dict_get_set_same. Qed.

Lemma refreshed_phone fields kv tok rtok :
  Py.dict_get (u "phone_id") (refreshed_creds fields kv tok rtok)
  = Py.dict_get (u "phone_id") kv.
Proof.
  unfold refreshed_creds. cbv zeta.
  rewrite dict_get_set_other by discriminate.
  rewrite dict_get_set_other by discriminate. reflexivity.
Qed.

Lemma attempt_expired_refreshed depth rq1 w kv tok pid rtok r1 r2 fields :
  (2 <= depth)%nat ->
  creds w = JObj kv ->
  Py.dict_get (u "access_token") kv = Some tok ->
  Py.dict_get (u "phone_id") kv = Some pid ->
  Py.dict_get (u "refresh_token") kv = Some rtok ->
  vendor E (sent w) rq1 = Replied r1 ->
  classify r1 = Ok Expired ->
  vendor E (sent w ++ [rq1])
    (refresh_request (clock E (clock_reads w)) tok pid rtok) = Replied r2 ->
  classify r2 = Ok (Accepted (JObj fields)) ->
  disk E (writes w) = Written ->
  attempt E depth rq1 w
  = (Raise TokenRefreshed,
     after_refresh (refresh_request (clock E (clock_reads w)) tok pid rtok)
       (refreshed_creds fields kv tok rtok) (log_request rq1 w)).
Proof.
  intros Hd Hkv Ha Hp Hr Hv1 Hc1 Hv2 Hc2 Hdisk.
  destruct depth as [|d]; [lia|].
  unfold attempt, bind. rewrite send_run, Hv1, validate_unfold, Hc1.
  erewrite bind_ok; [reflexivity|].
  apply (refresh_ok_run E (_validate E d) (log_request rq1 w) kv tok pid rtok r2 fields
           Hkv Ha Hp Hr Hv2).
  - apply validate_accepted; [lia | exact Hc2].
  - exact Hdisk.
Qed.

Lemma attempt_expired_write_fails depth rq1 w kv tok pid rtok r1 r2 fields damage :
  (2 <= depth)%nat ->
  creds w = JObj kv ->
  Py.dict_get (u "access_token") kv = Some tok ->
  Py.dict_get (u "phone_id") kv = Some pid ->
  Py.dict_get (u "refresh_token") kv = Some rtok ->
  vendor E (sent w) rq1 = Replied r1 ->
  classify r1 = Ok Expired ->
  vendor E (sent w ++ [rq1])
    (refresh_request (clock E (clock_reads w)) tok pid rtok) = Replied r2 ->
  classify r2 = Ok (Accepted (JObj fields)) ->
  disk E (writes w) = WriteFails damage ->
  exists w',
    attempt E depth rq1 w = (Raise OSError, w')
    /\ sent w' = sent w ++ [rq1; refresh_request (clock E (clock_reads w)) tok pid rtok]
    /\ creds w' = JObj (refreshed_creds fields kv tok rtok).
Proof.
  intros Hd Hkv Ha Hp Hr Hv1 Hc1 Hv2 Hc2 Hdisk.
  destruct depth as [|d]; [lia|].
  unfold attempt, bind. rewrite send_run, Hv1, validate_unfold, Hc1.
  unfold bind.
  rewrite (refresh_run E (_validate E d) (log_request rq1 w) kv tok pid rtok r2 fields
             Hkv Ha Hp Hr Hv2 (validate_accepted E d r2 _ _ ltac:(lia) Hc2)).
  cbn [writes log_request]. rewrite Hdisk.
  eexists. split; [reflexivity|].
  destruct damage as [f|]; cbn [sent creds tick_write set_token_file set_creds log_request
                                 tick_clock clock_reads];
    rewrite <- app_assoc; split; reflexivity.
Qed.

Lemma retry_passes {A} (c h : M A) w w' :
  c w = (Raise OSError, w') -> except_TokenRefreshed c h w = (Raise OSError, w').
Proof. unfold except_TokenRefreshed. intros ->. reflexivity. Qed.

Lemma refresh_sends_request (validate : response -> M json) w kv tok pid rtok r w' :
  (forall resp w r w', validate resp w = (r, w') -> refresh_only w r w') ->
  creds w = JObj kv ->
  Py.dict_get (u "access_token") kv = Some tok ->
  Py.dict_get (u "phone_id") kv = Some pid ->
  Py.dict_get (u "refresh_token") kv = Some rtok ->
  refresh_token_with E validate w = (r, w') ->
  exists rs,
    sent w' = sent w ++ refresh_request (clock E (clock_reads w)) tok pid rtok :: rs
    /\ forallb is_refresh rs = true.
Proof.
  intros Hval Hkv Ha Hp Hr H.
  unfold refresh_token_with in H.
  rewrite (bind_ok _ _ _ _ _ (payload_ok E (u "default") w kv tok pid Hkv Ha Hp)) in H.
  unfold bind at 1, gets at 1 in H. cbn [creds tick_clock] in H. rewrite Hkv in H.
  unfold bind at 1, lift at 1 in H. cbn [Py.index] in H. rewrite Hr in H.
  unfold requests_post in H.
  set (rq := refresh_request (clock E (clock_reads w)) tok pid rtok).
  match type of H with
  | context [requests_send E ?q] => change q with rq in H
  end.
  apply bind_inv in H. rewrite send_run in H.
  destruct H as [(resp & w1 & Hs & H) | (e & Hs & _)].
  2:{ injection Hs as _ <-. exists []. split; reflexivity. }
  injection Hs as _ <-.
  apply bind_inv in H.
  destruct H as [(data & w2 & Hv & H) | (e & Hv & _)].
  - destruct (Hval _ _ _ _ Hv) as (rs & _ & _ & Hok & _).
    rewrite (Hok data eq_refl) in H. apply refresh_tail_run in H.
    destruct H as (_ & _ & Hs). exists []. split; [|reflexivity].
    rewrite Hs, app_nil_r. reflexivity.
  - destruct (Hval _ _ _ _ Hv) as (rs & (_ & _ & Hs) & Hrs & _).
    exists rs. split; [|exact Hrs].
    rewrite Hs. cbn [sent log_request tick_clock]. rewrite <- app_assoc. reflexivity.
Qed.

Lemma attempt_expired_again depth rq w kv tok pid rtok r3 r w' :
  (1 <= depth)%nat ->
  creds w = JObj kv ->
  Py.dict_get (u "access_token") kv = Some tok ->
  Py.dict_get (u "phone_id") kv = Some pid ->
  Py.dict_get (u "refresh_token") kv = Some rtok ->
  vendor E (sent w) rq = Replied r3 ->
  classify r3 = Ok Expired ->
  attempt E depth rq w = (r, w') ->
  (exists e, r = Raise e)
  /\ exists rs,
       sent w' = sent w ++ rq
                   :: refresh_request (clock E (clock_reads w)) tok pid rtok :: rs
       /\ forallb is_refresh rs = true.
Proof.
  intros Hd Hkv Ha Hp Hr Hv Hc H.
  destruct depth as [|d]; [lia|].
  unfold attempt, bind in H. rewrite send_run, Hv, validate_unfold, Hc in H.
  fold (@bind unit json) in H.
  assert (Hrefresh : forall rr ww,
            refresh_token_with E (_validate E d) (log_request rq w) = (rr, ww) ->
            exists rs,
              sent ww = sent w ++ rq
                          :: refresh_request (clock E (clock_reads w)) tok pid rtok :: rs
              /\ forallb is_refresh rs = true).
  { intros rr ww Hrun.
    destruct (refresh_sends_request (_validate E d) (log_request rq w) kv tok pid rtok
                rr ww (validate_trace E d) Hkv Ha Hp Hr Hrun) as (rs & Hs & Hrs).
    exists rs. split; [|exact Hrs].
    rewrite Hs. cbn [sent log_request clock_reads]. rewrite <- app_assoc. reflexivity. }
  unfold bind in H.
  destruct (refresh_token_with E (_validate E d) (log_request rq w)) as [[[]|e] ww]
    eqn:Hrun.
  - unfold raise in H. injection H as <- <-.
    split; [eauto | exact (Hrefresh _ _ eq_refl)].
  - injection H as <- <-. split; [eauto | exact (Hrefresh _ _ eq_refl)].
Qed.

(** The retry block of every call site: a first attempt answered by the
    expiry sentinel, a refresh that succeeds, a second attempt. *)
Lemma retry_block depth (first handler : M json) rq1 rq2 w0 wa wb
    kv tok pid rtok r1 r2 r3 fields :
  (2 <= depth)%nat ->
  creds wa = JObj kv ->
  Py.dict_get (u "access_token") kv = Some tok ->
  Py.dict_get (u "phone_id") kv = Some pid ->
  Py.dict_get (u "refresh_token") kv = Some rtok ->
  replies_after E wa [Replied r1; Replied r2; Replied r3] ->
  classify r1 = Ok Expired ->
  classify r2 = Ok (Accepted (JObj fields)) ->
  disk E (writes wa) = Written ->
  first w0 = attempt E depth rq1 wa ->
  handler (after_refresh (refresh_request (clock E (clock_reads wa)) tok pid rtok)
             (refreshed_creds fields kv tok rtok) (log_request rq1 wa))
  = attempt E depth rq2 wb ->
  sent wb = sent wa ++ [rq1; refresh_request (clock E (clock_reads wa)) tok pid rtok] ->
  creds wb = JObj (refreshed_creds fields kv tok rtok) ->
  exists more,
    sent (snd (except_TokenRefreshed first handler w0))
    = sent wa ++ rq1 :: refresh_request (clock E (clock_reads wa)) tok pid rtok
        :: rq2 :: more
    /\ forallb is_refresh more = true
    /\ (forall x, classify r3 = Ok (Accepted x) ->
          more = []
          /\ except_TokenRefreshed first handler w0 = (Ok x, log_request rq2 wb))
    /\ (classify r3 = Ok Expired ->
          more <> [] /\ exists e, fst (except_TokenRefreshed first handler w0) = Raise e).
Proof.
  intros Hd Hkv Ha Hp Hr Hrep Hc1 Hc2 Hdisk Hfirst Hhandler Hsent Hcreds.
  set (rqr := refresh_request (clock E (clock_reads wa)) tok pid rtok) in *.
  assert (Hv1 : vendor E (sent wa) rq1 = Replied r1).
  { rewrite <- (app_nil_r (sent wa)). exact (Hrep 0%nat _ [] rq1 eq_refl eq_refl). }
  assert (Hv2 : vendor E (sent wa ++ [rq1]) rqr = Replied r2).
  { exact (Hrep 1%nat _ [rq1] rqr eq_refl eq_refl). }
  assert (Hv3 : vendor E (sent wb) rq2 = Replied r3).
  { rewrite Hsent. exact (Hrep 2%nat _ [rq1; rqr] rq2 eq_refl eq_refl). }
  assert (Hrun : except_TokenRefreshed first handler w0 = attempt E depth rq2 wb).
  { unfold except_TokenRefreshed. rewrite Hfirst.
    rewrite (attempt_expired_refreshed depth rq1 wa kv tok pid rtok r1 r2 fields
               Hd Hkv Ha Hp Hr Hv1 Hc1 Hv2 Hc2 Hdisk).
    exact Hhandler. }
  rewrite Hrun.
  destruct (attempt E depth rq2 wb) as [r w'] eqn:H2. cbn [fst snd].
  destruct (attempt_trace E depth rq2 wb r w' H2) as (rs & (_ & _ & Hs) & Hrs & Hok & _).
  exists rs. split.
  { rewrite Hs, Hsent, <- app_assoc. reflexivity. }
  split; [exact Hrs|]. split.
  - intros x Hc3.
    rewrite (attempt_accepted E depth rq2 r3 x wb ltac:(lia) Hv3 Hc3) in H2.
    injection H2 as <- <-. split; [exact (Hok x eq_refl) | reflexivity].
  - intros Hc3.
    destruct (attempt_expired_again depth rq2 wb _ _ pid _ r3 r w' ltac:(lia) Hcreds
                (refreshed_access fields kv tok rtok)
                (eq_trans (refreshed_phone fields kv tok rtok) Hp)
                (refreshed_refresh fields kv tok rtok) Hv3 Hc3 H2)
      as (He & rs' & Hs' & _).
    split; [|exact He].
    intros ->. rewrite Hs in Hs'. apply app_inv_head in Hs'. discriminate.
Qed.

End RetryFacts.

Section CallFacts.
Variable E : env.

Lemma discard_sent {A} (c : M A) w :
  snd (bind c (fun _ => ret tt) w) = snd (c w).
Proof. unfold bind, ret. destruct (c w) as [[a|e] w']; reflexivity. Qed.

Lemma discard_raise {A} (c : M A) w :
  (exists e, fst (c w) = Raise e) ->
  exists e, fst (bind c (fun _ => ret tt) w) = Raise e.
Proof.
  unfold bind. destruct (c w) as [[a|e] w']; intros [e' H]; [discriminate|].
  exists e. reflexivity.
Qed.

Lemma request_carries_token call now tok pid :
  carries_token (request_of E call now tok pid) tok.
Proof. destruct call; reflexivity. Qed.

Lemma request_is_no_refresh call now tok pid :
  is_refresh (request_of E call now tok pid) = false.
Proof.
  destruct call; reflexivity.
Qed.

End CallFacts.

Section CallSites.
Variable E : env.
Variables (depth : nat) (w : world) (kv : list (pystr * json)).
Variables (tok pid rtok : json) (r1 r2 r3 : response) (fields : list (pystr * json)).
Hypothesis Hdepth : (2 <= depth)%nat.
Hypothesis Hkv : creds w = JObj kv.
Hypothesis Ha : Py.dict_get (u "access_token") kv = Some tok.
Hypothesis Hp : Py.dict_get (u "phone_id") kv = Some pid.
Hypothesis Hr : Py.dict_get (u "refresh_token") kv = Some rtok.
Hypothesis Hrep : replies_after E w [Replied r1; Replied r2; Replied r3].
Hypothesis Hc1 : classify r1 = Ok Expired.
Hypothesis Hc2 : classify r2 = Ok (Accepted (JObj fields)).
Hypothesis Hdisk : disk E (writes w) = Written.


Lemma retry_block_at (call : vendor_call) (first handler : M json) w0 wa wb t1 t2 :
  creds wa = creds w -> sent wa = sent w -> writes wa = writes w ->
  first w0 = attempt E depth (request_of E call t1 tok pid) wa ->
  handler (after_refresh (refresh_request (clock E (clock_reads wa)) tok pid rtok)
             (refreshed_creds fields kv tok rtok)
             (log_request (request_of E call t1 tok pid) wa))
  = attempt E depth
      (request_of E call t2 (field_or fields (u "access_token") tok) pid) wb ->
  sent wb = sent wa ++ [request_of E call t1 tok pid;
                        refresh_request (clock E (clock_reads wa)) tok pid rtok] ->
  creds wb = JObj (refreshed_creds fields kv tok rtok) ->
  exists more,
    sent (snd (except_TokenRefreshed first handler w0))
    = sent w ++ request_of E call t1 tok pid
               :: refresh_request (clock E (clock_reads wa)) tok pid rtok
               :: request_of E call t2 (field_or fields (u "access_token") tok) pid
               :: more
    /\ forallb is_refresh more = true
    /\ ((exists x, classify r3 = Ok (Accepted x)) -> more = [])
    /\ (classify r3 = Ok Expired ->
        more <> [] /\ exists e, fst (except_TokenRefreshed first handler w0) = Raise e)
    /\ (forall r w', except_TokenRefreshed first handler w0 = (r, w') ->
        exists rs, sent w' = sent wb ++ rs).
Proof.
  intros Hcr Hse Hwr Hfirst Hhandler Hsent Hcreds.
  assert (Hrep' : replies_after E wa [Replied r1; Replied r2; Replied r3]).
  { unfold replies_after. rewrite Hse. exact Hrep. }
  assert (Hdisk' : disk E (writes wa) = Written) by (rewrite Hwr; exact Hdisk).
  destruct (retry_block E depth first handler _ _ w0 wa wb kv tok pid rtok r1 r2 r3 fields
              Hdepth (eq_trans Hcr Hkv) Ha Hp Hr Hrep' Hc1 Hc2 Hdisk' Hfirst Hhandler
              Hsent Hcreds)
    as (more & Hs & Hrs & Hok & Hex).
  exists more. rewrite <- Hse. split; [exact Hs|]. split; [exact Hrs|].
  split; [intros [x Hx]; exact (proj1 (Hok x Hx))|].
  split; [exact Hex|].
  intros r w' Hrun. rewrite Hrun in Hs. cbn [snd] in Hs.
  exists (request_of E call t2 (field_or fields (u "access_token") tok) pid :: more).
  rewrite Hs, Hsent, <- app_assoc. reflexivity.
Qed.

(** The three POST calls share their shape: a payload built before the
    block, a payload built again in the handler. *)
Ltac post_site call endpoint :=
  rewrite (bind_ok _ _ _ _ _ (payload_ok E endpoint w kv tok pid Hkv Ha Hp));
  unfold requests_post;
  pose (wa := tick_clock w);
  pose (t1 := clock E (clock_reads w));
  pose (w1 := after_refresh (refresh_request (clock E (clock_reads wa)) tok pid rtok)
                (refreshed_creds fields kv tok rtok)
                (log_request (request_of E call t1 tok pid) wa));
  match goal with
  | |- context [except_TokenRefreshed ?f ?h (tick_clock w)] =>
      destruct (retry_block_at call f h wa wa (tick_clock w1) t1
                  (clock E (clock_reads w1)) eq_refl eq_refl eq_refl eq_refl)
        as (more & Hs & Hrs & Hok & Hex & _);
      [ rewrite (bind_ok _ _ _ _ _
          (payload_ok E endpoint w1 (refreshed_creds fields kv tok rtok)
             (field_or fields (u "access_token") tok) pid eq_refl
             (refreshed_access fields kv tok rtok)
             (eq_trans (refreshed_phone fields kv tok rtok) Hp)));
        reflexivity
      | cbn [sent tick_clock tick_write after_refresh set_token_file set_creds log_request w1 wa];
        rewrite <- app_assoc; reflexivity
      | reflexivity
      | do 3 eexists; exists more;
        split; [exact Hs|]; split; [exact Hrs|]; split; [exact Hok | exact Hex] ]
  end.

Lemma run_action_refreshed_once mac model action :
  refreshed_once E w tok pid rtok r3 fields (RunAction mac model action)
    (run_action E depth mac model action).
Proof.
  unfold refreshed_once, run_action.
  post_site (RunAction mac model action) (u "run_action").
Qed.

Lemma set_property_refreshed_once mac model prop pvalue :
  refreshed_once E w tok pid rtok r3 fields (SetProperty mac model prop pvalue)
    (set_property E depth mac model prop pvalue).
Proof.
  unfold refreshed_once, set_property.
  post_site (SetProperty mac model prop pvalue) (u "set_device_Info").
Qed.

Lemma get_device_info_refreshed_once mac model :
  refreshed_once E w tok pid rtok r3 fields (GetDeviceInfo mac model)
    (get_device_info E depth mac model).
Proof.
  unfold refreshed_once, get_device_info.
  post_site (GetDeviceInfo mac model) (u "get_device_Info").
Qed.

Lemma bind_quiet {A B} (c : M A) (k : A -> M B) w0 :
  (forall a wx r w', k a wx = (r, w') -> sent w' = sent wx) ->
  sent (snd (bind c k w0)) = sent (snd (c w0))
  /\ ((exists e, fst (c w0) = Raise e) -> exists e, fst (bind c k w0) = Raise e).
Proof.
  intros Hk. unfold bind. destruct (c w0) as [[a|e] wx].
  - split.
    + destruct (k a wx) as [r w'] eqn:Hrun. exact (Hk _ _ _ _ Hrun).
    + intros [e He]. discriminate.
  - split; [reflexivity|]. intros _. exists e. reflexivity.
Qed.

Lemma creds_truthy : Py.truthy (creds w) = true.
Proof. rewrite Hkv. destruct kv; [discriminate | reflexivity]. Qed.

Lemma list_devices_refreshed_once :
  cache_fresh (clock E (clock_reads w)) w = false ->
  refreshed_once E w tok pid rtok r3 fields ListDevices (fetch_cameras E depth).
Proof.
  intros Hdue. unfold refreshed_once.
  rewrite fetch_cameras_unfold, creds_truthy. cbn [negb]. cbv zeta. rewrite Hdue.
  unfold listing_with_retry.
  pose (wa := tick_clock (tick_clock w)).
  pose (t1 := clock E (clock_reads (tick_clock w))).
  pose (w1 := after_refresh (refresh_request (clock E (clock_reads wa)) tok pid rtok)
                (refreshed_creds fields kv tok rtok)
                (log_request (request_of E ListDevices t1 tok pid) wa)).
  destruct (retry_block_at ListDevices (post_object_list E depth)
              (post_object_list E depth) (tick_clock w) wa (tick_clock w1) t1
              (clock E (clock_reads w1)) eq_refl eq_refl eq_refl)
    as (more & Hs & Hrs & Hok & Hex & _).
  - unfold post_object_list.
    rewrite (bind_ok _ _ _ _ _
               (payload_ok E (u "default") (tick_clock w) kv tok pid Hkv Ha Hp)).
    reflexivity.
  - unfold post_object_list.
    rewrite (bind_ok _ _ _ _ _
      (payload_ok E (u "default") w1 (refreshed_creds fields kv tok rtok)
         (field_or fields (u "access_token") tok) pid eq_refl
         (refreshed_access fields kv tok rtok)
         (eq_trans (refreshed_phone fields kv tok rtok) Hp))).
    reflexivity.
  - cbn [sent tick_clock tick_write after_refresh set_token_file set_creds log_request w1 wa].
    rewrite <- app_assoc. reflexivity.
  - reflexivity.
  - destruct (except_TokenRefreshed (post_object_list E depth)
                (post_object_list E depth) (tick_clock w)) as [[data|e] w2].
    + do 3 eexists. exists more.
      split.
      { destruct (cameras_from E data); exact Hs. }
      split; [exact Hrs|]. split; [exact Hok|].
      intros Hc3. destruct (Hex Hc3) as (Hne & e & He). discriminate.
    + do 3 eexists. exists more.
      split; [exact Hs|]. split; [exact Hrs|]. split; [exact Hok|].
      intros Hc3. destruct (Hex Hc3) as (Hne & _).
      split; [exact Hne | exists e; reflexivity].
Qed.

Lemma bearer_ok w0 kv0 tok0 :
  creds w0 = JObj kv0 ->
  Py.dict_get (u "access_token") kv0 = Some tok0 ->
  bearer w0 = (Ok (u "Bearer " ++ Py.str tok0), w0).
Proof.
  intros Hc Ht. unfold bearer, bind, gets, lift, ret. rewrite Hc.
  cbn [Py.index]. rewrite Ht. reflexivity.
Qed.

Lemma signaling_refreshed_once mac :
  refreshed_once E w tok pid rtok r3 fields (Signaling mac)
    (get_webrtc_signaling E depth mac).
Proof.
  unfold refreshed_once, get_webrtc_signaling.
  rewrite (bind_ok _ _ _ _ _ (bearer_ok w kv tok Hkv Ha)).
  pose (t1 := clock E (clock_reads w)).
  pose (w1 := after_refresh (refresh_request (clock E (clock_reads w)) tok pid rtok)
                (refreshed_creds fields kv tok rtok)
                (log_request (request_of E (Signaling mac) t1 tok pid) w)).
  match goal with
  | |- context [bind (except_TokenRefreshed ?f ?h) ?post w] =>
      destruct (retry_block_at (Signaling mac) f h w w w1 t1 t1 eq_refl eq_refl eq_refl
                  eq_refl)
        as (more & Hs & Hrs & Hok & Hex & _);
      [ | | | destruct (bind_quiet (except_TokenRefreshed f h) post w) as (Hq1 & Hq2) ]
  end.
  - rewrite (bind_ok _ _ _ _ _
               (bearer_ok w1 (refreshed_creds fields kv tok rtok) _ eq_refl
                  (refreshed_access fields kv tok rtok))).
    reflexivity.
  - cbn [sent after_refresh set_token_file set_creds log_request w1 tick_clock tick_write].
    rewrite <- app_assoc. reflexivity.
  - reflexivity.
  - intros data wx r w' Hrun.
    unfold bind, lift, gets, ret in Hrun.
    repeat match type of Hrun with
           | context [match ?x with _ => _ end] => destruct x
           end;
      injection Hrun as _ <-; reflexivity.
  - do 3 eexists. exists more.
    split; [rewrite Hq1; exact Hs|]. split; [exact Hrs|]. split; [exact Hok|].
    intros Hc3. destruct (Hex Hc3) as (Hne & He). split; [exact Hne | exact (Hq2 He)].
Qed.

End CallSites.

Section CallSitesWriteFails.
Variable E : env.
Variables (depth : nat) (w : world) (kv : list (pystr * json)).
Variables (tok pid rtok : json) (r1 r2 r3 : response) (fields : list (pystr * json)).
Variable damage : option file_state.
Hypothesis Hdepth : (2 <= depth)%nat.
Hypothesis Hkv : creds w = JObj kv.
Hypothesis Ha : Py.dict_get (u "access_token") kv = Some tok.
Hypothesis Hp : Py.dict_get (u "phone_id") kv = Some pid.
Hypothesis Hr : Py.dict_get (u "refresh_token") kv = Some rtok.
Hypothesis Hrep : replies_after E w [Replied r1; Replied r2; Replied r3].
Hypothesis Hc1 : classify r1 = Ok Expired.
Hypothesis Hc2 : classify r2 = Ok (Accepted (JObj fields)).
Hypothesis Hfails : disk E (writes w) = WriteFails damage.

(** The first attempt of a call site when the save of the refresh
    fails. *)
Lemma attempt_write_fails (call : vendor_call) wa t1 :
  creds wa = creds w -> sent wa = sent w -> writes wa = writes w ->
  exists w',
    attempt E depth (request_of E call t1 tok pid) wa = (Raise OSError, w')
    /\ sent w' = sent w ++ [request_of E call t1 tok pid;
                            refresh_request (clock E (clock_reads wa)) tok pid rtok].
Proof.
  intros Hcr Hse Hwr.
  assert (Hv1 : vendor E (sent wa) (request_of E call t1 tok pid) = Replied r1).
  { rewrite Hse, <- (app_nil_r (sent w)). exact (Hrep 0%nat _ [] _ eq_refl eq_refl). }
  assert (Hv2 : vendor E (sent wa ++ [request_of E call t1 tok pid])
                  (refresh_request (clock E (clock_reads wa)) tok pid rtok) = Replied r2).
  { rewrite Hse. exact (Hrep 1%nat _ [request_of E call t1 tok pid] _ eq_refl eq_refl). }
  destruct (attempt_expired_write_fails E depth (request_of E call t1 tok pid) wa kv tok pid
              rtok r1 r2 fields damage Hdepth (eq_trans Hcr Hkv) Ha Hp Hr Hv1 Hc1 Hv2 Hc2
              ltac:(rewrite Hwr; exact Hfails)) as (w' & Hrun & Hs & _).
  exists w'. split; [exact Hrun|]. rewrite Hs, Hse. reflexivity.
Qed.

Lemma issue_write_fails (call : vendor_call) :
  due E call w ->
  exists t1 tr w',
    issue E depth call w = (Raise OSError, w')
    /\ sent w' = sent w ++ [request_of E call t1 tok pid;
                            refresh_request tr tok pid rtok].
Proof.
  intros Hdue.
  destruct call as [|mac model action|mac model prop pvalue|mac model|mac].
  - destruct (attempt_write_fails ListDevices (tick_clock (tick_clock w))
                (clock E (clock_reads (tick_clock w))) eq_refl eq_refl eq_refl)
      as (w' & Hrun & Hs).
    do 2 eexists. exists w'. split; [|exact Hs].
    cbn [issue]. unfold bind at 1.
    rewrite fetch_cameras_unfold, (creds_truthy w kv tok pid rtok Hkv Ha Hp Hr). cbn [negb]. cbv zeta.
    cbn [due] in Hdue. rewrite Hdue. unfold listing_with_retry.
    rewrite (retry_passes (post_object_list E depth) _ (tick_clock w) w');
      [reflexivity|].
    unfold post_object_list.
    rewrite (bind_ok _ _ _ _ _
               (payload_ok E (u "default") (tick_clock w) kv tok pid Hkv Ha Hp)).
    exact Hrun.
  - destruct (attempt_write_fails (RunAction mac model action) (tick_clock w)
                (clock E (clock_reads w)) eq_refl eq_refl eq_refl) as (w' & Hrun & Hs).
    do 2 eexists. exists w'. split; [|exact Hs].
    cbn [issue]. unfold bind at 1. unfold run_action.
    rewrite (bind_ok _ _ _ _ _ (payload_ok E (u "run_action") w kv tok pid Hkv Ha Hp)).
    cbv zeta. unfold requests_post.
    match goal with
    | |- context [except_TokenRefreshed ?f ?h (tick_clock w)] =>
        rewrite (retry_passes f h (tick_clock w) w' Hrun)
    end. reflexivity.
  - destruct (attempt_write_fails (SetProperty mac model prop pvalue) (tick_clock w)
                (clock E (clock_reads w)) eq_refl eq_refl eq_refl) as (w' & Hrun & Hs).
    do 2 eexists. exists w'. split; [|exact Hs].
    cbn [issue]. unfold bind at 1. unfold set_property.
    rewrite (bind_ok _ _ _ _ _ (payload_ok E (u "set_device_Info") w kv tok pid Hkv Ha Hp)).
    cbv zeta. unfold requests_post.
    match goal with
    | |- context [except_TokenRefreshed ?f ?h (tick_clock w)] =>
        rewrite (retry_passes f h (tick_clock w) w' Hrun)
    end. reflexivity.
  - destruct (attempt_write_fails (GetDeviceInfo mac model) (tick_clock w)
                (clock E (clock_reads w)) eq_refl eq_refl eq_refl) as (w' & Hrun & Hs).
    do 2 eexists. exists w'. split; [|exact Hs].
    cbn [issue]. unfold bind at 1. unfold get_device_info.
    rewrite (bind_ok _ _ _ _ _ (payload_ok E (u "get_device_Info") w kv tok pid Hkv Ha Hp)).
    cbv zeta. unfold requests_post.
    match goal with
    | |- context [except_TokenRefreshed ?f ?h (tick_clock w)] =>
        rewrite (retry_passes f h (tick_clock w) w' Hrun)
    end. reflexivity.
  - destruct (attempt_write_fails (Signaling mac) w (clock E (clock_reads w))
                eq_refl eq_refl eq_refl) as (w' & Hrun & Hs).
    do 2 eexists. exists w'. split; [|exact Hs].
    cbn [issue]. unfold bind at 1. unfold get_webrtc_signaling.
    rewrite (bind_ok _ _ _ _ _ (bearer_ok w kv tok Hkv Ha)).
    cbv zeta. unfold requests_get. unfold bind at 1.
    match goal with
    | |- context [except_TokenRefreshed ?f ?h w] =>
        rewrite (retry_passes f h w w' Hrun)
    end. reflexivity.
Qed.

End CallSitesWriteFails.

(** C1 (as amended).  For each authenticated vendor call (device listing
    when the cache is not served, run_action, set_property,
    get_device_info, signaling) made with a credential that holds an access
    token, a refresh token and a client device id: when the vendor answers
    the call with the expiry sentinel 2001 and accepts the refresh with a
    payload, and the token file is written, the client sends the call, one
    refresh request and the call again, the second time with the access
    token of the refresh payload (the old one when the payload omits it);
    whatever follows is refresh requests only, so the call is never issued
    a third time.  When the vendor accepts the retried call nothing
    follows: one refresh in all.  When the vendor answers the retried call
    with the expiry sentinel too, a second refresh request follows and the
    call raises.  When the write of the token file fails after the
    accepted refresh, the call ends with that [OSError] after the call and
    the refresh request: it is not retried. *)
Theorem expired_call_refreshed_and_retried (E : env) (depth : nat)
    (call : vendor_call) (w : world) (kv fields : list (pystr * json))
    (tok pid rtok : json) (r1 r2 r3 : response) :
  (2 <= depth)%nat ->
  creds w = JObj kv ->
  Py.dict_get (u "access_token") kv = Some tok ->
  Py.dict_get (u "phone_id") kv = Some pid ->
  Py.dict_get (u "refresh_token") kv = Some rtok ->
  due E call w ->
  replies_after E w [Replied r1; Replied r2; Replied r3] ->
  classify r1 = Ok Expired ->
  classify r2 = Ok (Accepted (JObj fields)) ->
  let tok' := field_or fields (u "access_token") tok in
  (disk E (writes w) = Written ->
   exists t1 tr t2 more,
     sent (snd (issue E depth call w))
     = sent w ++ request_of E call t1 tok pid
                :: refresh_request tr tok pid rtok
                :: request_of E call t2 tok' pid :: more
     /\ carries_token (request_of E call t1 tok pid) tok
     /\ carries_token (request_of E call t2 tok' pid) tok'
     /\ is_refresh (request_of E call t1 tok pid) = false
     /\ is_refresh (request_of E call t2 tok' pid) = false
     /\ is_refresh (refresh_request tr tok pid rtok) = true
     /\ forallb is_refresh more = true
     /\ ((exists x, classify r3 = Ok (Accepted x)) -> more = [])
     /\ (classify r3 = Ok Expired ->
         more <> [] /\ exists e, fst (issue E depth call w) = Raise e))
  /\ (forall damage, disk E (writes w) = WriteFails damage ->
      exists t1 tr,
        sent (snd (issue E depth call w))
        = sent w ++ [request_of E call t1 tok pid; refresh_request tr tok pid rtok]
        /\ fst (issue E depth call w) = Raise OSError).
Proof.
  intros Hd Hkv Ha Hp Hr Hdue Hrep Hc1 Hc2 tok'. subst tok'. split.
  2:{ intros damage Hfails.
      destruct (issue_write_fails E depth w kv tok pid rtok r1 r2 r3 fields damage
                  Hd Hkv Ha Hp Hr Hrep Hc1 Hc2 Hfails call Hdue)
        as (t1 & tr & w' & Hrun & Hs).
      exists t1, tr. rewrite Hrun. split; [exact Hs | reflexivity]. }
  intros Hdisk.
  assert (Hsite : exists t1 tr t2 more,
            sent (snd (issue E depth call w))
            = sent w ++ request_of E call t1 tok pid
                       :: refresh_request tr tok pid rtok
                       :: request_of E call t2 (field_or fields (u "access_token") tok) pid
                       :: more
            /\ forallb is_refresh more = true
            /\ ((exists x, classify r3 = Ok (Accepted x)) -> more = [])
            /\ (classify r3 = Ok Expired ->
                more <> [] /\ exists e, fst (issue E depth call w) = Raise e)).
  { destruct call as [|mac model action|mac model prop pvalue|mac model|mac];
      unfold issue; rewrite discard_sent.
    - destruct (list_devices_refreshed_once E depth w kv tok pid rtok r1 r2 r3 fields
                  Hd Hkv Ha Hp Hr Hrep Hc1 Hc2 Hdisk Hdue)
        as (t1 & tr & t2 & more & Hs & Hrs & Hok & Hex).
      exists t1, tr, t2, more. repeat (split; [assumption|]).
      intros Hc3. destruct (Hex Hc3) as (Hne & He).
      split; [exact Hne | exact (discard_raise _ _ He)].
    - destruct (run_action_refreshed_once E depth w kv tok pid rtok r1 r2 r3 fields
                  Hd Hkv Ha Hp Hr Hrep Hc1 Hc2 Hdisk mac model action)
        as (t1 & tr & t2 & more & Hs & Hrs & Hok & Hex).
      exists t1, tr, t2, more. repeat (split; [assumption|]).
      intros Hc3. destruct (Hex Hc3) as (Hne & He).
      split; [exact Hne | exact (discard_raise _ _ He)].
    - destruct (set_property_refreshed_once E depth w kv tok pid rtok r1 r2 r3 fields
                  Hd Hkv Ha Hp Hr Hrep Hc1 Hc2 Hdisk mac model prop pvalue)
        as (t1 & tr & t2 & more & Hs & Hrs & Hok & Hex).
      exists t1, tr, t2, more. repeat (split; [assumption|]).
      intros Hc3. destruct (Hex Hc3) as (Hne & He).
      split; [exact Hne | exact (discard_raise _ _ He)].
    - destruct (get_device_info_refreshed_once E depth w kv tok pid rtok r1 r2 r3 fields
                  Hd Hkv Ha Hp Hr Hrep Hc1 Hc2 Hdisk mac model)
        as (t1 & tr & t2 & more & Hs & Hrs & Hok & Hex).
      exists t1, tr, t2, more. repeat (split; [assumption|]).
      intros Hc3. destruct (Hex Hc3) as (Hne & He).
      split; [exact Hne | exact (discard_raise _ _ He)].
    - destruct (signaling_refreshed_once E depth w kv tok pid rtok r1 r2 r3 fields
                  Hd Hkv Ha Hp Hr Hrep Hc1 Hc2 Hdisk mac)
        as (t1 & tr & t2 & more & Hs & Hrs & Hok & Hex).
      exists t1, tr, t2, more. repeat (split; [assumption|]).
      intros Hc3. destruct (Hex Hc3) as (Hne & He).
      split; [exact Hne | exact (discard_raise _ _ He)]. }
  destruct Hsite as (t1 & tr & t2 & more & Hs & Hrs & Hok & Hex).
  exists t1, tr, t2, more.
  split; [exact Hs|].
  split; [apply request_carries_token|]. split; [apply request_carries_token|].
  split; [apply request_is_no_refresh|]. split; [apply request_is_no_refresh|].
  split; [apply pystr_eqb_refl|].
  split; [exact Hrs|]. split; [exact Hok | exact Hex].
Qed.

Lemma scripted_replies_after script c :
  replies_after (scripted script) (logged_in c) script.
Proof.
  intros k rp new rq Hk Hlen. cbn [vendor scripted sent logged_in set_creds at_import app].
  rewrite Hlen. apply nth_error_nth. exact Hk.
Qed.

Lemma expired_call_refreshed_and_retried_witness :
  let E := scripted [ expired_reply; refreshed_reply "at-1" "rt-1";
                      accepted_reply (JObj []) ] in
  let call := RunAction (JStr (u "AB:12")) (JStr (u "HL_PAN3")) (u "restart") in
  exists t1 tr t2,
    sent (snd (issue E 2 call (logged_in sample_creds)))
    = [ request_of E call t1 (JStr (u "at-0")) (JStr (u "phone-1"));
        refresh_request tr (JStr (u "at-0")) (JStr (u "phone-1")) (JStr (u "rt-0"));
        request_of E call t2 (JStr (u "at-1")) (JStr (u "phone-1")) ].
Proof.
  cbv zeta.
  destruct (proj1 (expired_call_refreshed_and_retried
              (scripted [ expired_reply; refreshed_reply "at-1" "rt-1";
                          accepted_reply (JObj []) ])
              2 (RunAction (JStr (u "AB:12")) (JStr (u "HL_PAN3")) (u "restart"))
              (logged_in sample_creds) _ _ _ _ _ _ _ _
              (le_n 2) eq_refl eq_refl eq_refl eq_refl I
              (scripted_replies_after _ _) eq_refl eq_refl) eq_refl)
    as (t1 & tr & t2 & more & Hs & _ & _ & _ & _ & _ & _ & Hok & _).
  exists t1, tr, t2.
  rewrite Hs, (Hok (ex_intro _ (JObj []) eq_refl)). reflexivity.
Defined.

(** C1 (as stated) fails: when the retried call is answered by the expiry
    sentinel as well, a second refresh request is sent before the call
    raises: two refresh calls in all, not one. *)
Lemma expired_retry_refreshes_again :
  let E := scripted [ expired_reply; refreshed_reply "at-1" "rt-1";
                      expired_reply; refreshed_reply "at-2" "rt-2" ] in
  let run := run_action E 3 (JStr (u "AB:12")) (JStr (u "HL_PAN3")) (u "restart")
               (logged_in sample_creds) in
  fst run = Raise TokenRefreshed
  /\ map rq_url (sent (snd run))
     = [ WYZE_API ++ u "/v2/auto/run_action"; refresh_url;
         WYZE_API ++ u "/v2/auto/run_action"; refresh_url ]
  /\ List.length (filter is_refresh (sent (snd run))) = 2%nat
  /\ List.length (filter is_refresh (sent (snd run))) <> 1%nat.
Proof.
  cbv zeta. split; [vm_compute; reflexivity|].
  split; [vm_compute; reflexivity|].
  split; [vm_compute; reflexivity|].
  vm_compute. discriminate.
Qed.

(** ** Routes *)


Lemma scan_matches_none slug cams :
  matches_none slug cams -> scan_cameras slug cams = Ok JNull.
Proof.
  induction 1 as [|cam cams (v & Hv & Hne) _ IH]; simpl; [reflexivity|].
  rewrite Hv. simpl. rewrite Hne. exact IH.
Qed.

Lemma fetch_cameras_requests E depth w cams w1 :
  fetch_cameras E depth w = (Ok cams, w1) ->
  exists new, sent w1 = sent w ++ new /\ (new = [] \/ listing_trace new).
Proof.
  rewrite fetch_cameras_unfold.
  destruct (negb (Py.truthy (creds w))).
  { intros [= _ <-]. exists []. rewrite app_nil_r. auto. }
  cbv zeta. destruct (cache_fresh _ w).
  { intros [= _ <-]. exists []. cbn [sent tick_clock]. rewrite app_nil_r. auto. }
  destruct (listing_with_retry E depth (tick_clock w)) as [[data|e] w2] eqn:Hl;
    [|discriminate].
  apply listing_with_retry_trace in Hl.
  destruct Hl as (new & (_ & _ & Hs) & Hshape).
  destruct (cameras_from E data); [|discriminate].
  intros [= _ <-]. exists new. split; [exact Hs | right; exact (Hshape data eq_refl)].
Qed.

(** C5 (as amended).  When the lookup's [list()] returns a list in which
    no device has the slug, each device-scoped view function
    ([api_camera_detail], [api_camera_info], [api_camera_action],
    [api_signaling], [api_thumbnail]) called with that slug answers 404
    with an error body and leaves the process as [list()] left it: apart
    from the listing (with its refresh and retry) that [list()] makes when
    the cache is not served, no request is issued.  This is about the view
    functions, not about URLs: [api_refresh], to which the URL
    [/api/refresh] is bound, takes no slug and lists the devices. *)
Theorem unknown_slug_not_found (E : env) (depth : nat) (slug : pystr)
    (w w1 : world) (cams : list json) :
  fetch_cameras E depth w = (Ok cams, w1) ->
  matches_none slug cams ->
  api_camera_detail E depth slug w = (Ok not_found, w1)
  /\ api_camera_info E depth slug w = (Ok not_found, w1)
  /\ (forall action value,
        api_camera_action E depth slug action value w = (Ok not_found, w1))
  /\ api_signaling E depth slug w
     = (Ok (Jsonify 404 (JObj [ (u "error", JStr (u "Camera not found"));
                                (u "result", JStr (u "error")) ])), w1)
  /\ api_thumbnail E depth slug w
     = (Ok (Jsonify 404 (JObj [ (u "error", JStr (u "No thumbnail")) ])), w1)
  /\ exists new, sent w1 = sent w ++ new /\ (new = [] \/ listing_trace new).
Proof.
  intros Hfetch Hnone. apply scan_matches_none in Hnone.
  assert (Hfind : _find_camera E depth slug w = (Ok JNull, w1)).
  { unfold _find_camera. rewrite (bind_ok _ _ _ _ _ Hfetch).
    unfold lift. rewrite Hnone. reflexivity. }
  split; [unfold api_camera_detail; rewrite (bind_ok _ _ _ _ _ Hfind); reflexivity|].
  split; [unfold api_camera_info; rewrite (bind_ok _ _ _ _ _ Hfind); reflexivity|].
  split; [intros action value; unfold api_camera_action;
          rewrite (bind_ok _ _ _ _ _ Hfind); reflexivity|].
  split; [unfold api_signaling; rewrite (bind_ok _ _ _ _ _ Hfind); reflexivity|].
  split; [unfold api_thumbnail; rewrite (bind_ok _ _ _ _ _ Hfind); reflexivity|].
  exact (fetch_cameras_requests _ _ _ _ _ Hfetch).
Qed.

Lemma unknown_slug_not_found_witness :
  api_signaling (scripted []) 3 (u "garage")
    (set_cache [sample_camera] (inject_Z 900) (logged_in sample_creds))
  = (Ok (Jsonify 404 (JObj [ (u "error", JStr (u "Camera not found"));
                             (u "result", JStr (u "error")) ])),
     tick_clock (set_cache [sample_camera] (inject_Z 900) (logged_in sample_creds))).
Proof.
  apply (unknown_slug_not_found (scripted []) 3 (u "garage")
           (set_cache [sample_camera] (inject_Z 900) (logged_in sample_creds))
           _ [sample_camera]).
  - vm_compute. reflexivity.
  - constructor; [|constructor].
    exists (JStr (u "front-door")). split; reflexivity.
Defined.

(** C5 (as stated) fails: with an empty cache the lookup of an unknown slug
    issues the device-listing request before the route answers 404; and
    when that listing fails the route raises instead of answering 404. *)
Lemma unknown_slug_lists_devices :
  let w := logged_in sample_creds in
  let E := scripted [ accepted_reply (JObj [ (u "device_list", JArr [sample_device]) ]) ] in
  fst (api_camera_detail E 3 (u "garage") w) = Ok not_found
  /\ sent w = []
  /\ map rq_url (sent (snd (api_camera_detail E 3 (u "garage") w))) = [listing_url]
  /\ fst (api_camera_detail (scripted []) 3 (u "garage") w) = Raise RequestException.
Proof.
  cbv zeta. split; [vm_compute; reflexivity|].
  split; [reflexivity|].
  split; vm_compute; reflexivity.
Qed.

(** * Further properties of the code *)

(** ** Password digests *)

Lemma le_bytes_length n x : List.length (MD5.le_bytes n x) = n.
Proof. revert x. induction n as [|n IH]; simpl; intros x; [reflexivity|]. rewrite IH. reflexivity. Qed.

Lemma digest_length msg : List.length (MD5.digest msg) = 16%nat.
Proof.
  unfold MD5.digest. destruct (MD5.blocks _ _ _) as [[[a0 b0] c0] d0].
  rewrite !length_app, !le_bytes_length. reflexivity.
Qed.

Lemma hex_pairs_length (bs : list Z) :
  List.length (flat_map (fun b => [MD5.hex_digit (b / 16); MD5.hex_digit (b mod 16)]) bs)
  = (2 * List.length bs)%nat.
Proof. induction bs as [|b bs IH]; simpl; [reflexivity|]. rewrite IH. lia. Qed.

Lemma hexdigest_length msg : List.length (MD5.hexdigest msg) = 32%nat.
Proof. unfold MD5.hexdigest. rewrite hex_pairs_length, digest_length. reflexivity. Qed.

Lemma hex_digit_lower x : 0 <= x < 16 -> is_hex_lower (MD5.hex_digit x) = true.
Proof.
  intros Hx. unfold is_hex_lower, MD5.hex_digit.
  destruct (x <? 10) eqn:Hlt.
  - apply Z.ltb_lt in Hlt. apply orb_true_iff. left.
    apply andb_true_iff. split; apply N.leb_le; lia.
  - apply Z.ltb_ge in Hlt. apply orb_true_iff. right.
    apply andb_true_iff. split; apply N.leb_le; lia.
Qed.

Lemma hexdigest_hex msg : forallb is_hex_lower (MD5.hexdigest msg) = true.
Proof.
  apply forallb_forall. intros c Hc. unfold MD5.hexdigest in Hc.
  apply in_flat_map in Hc. destruct Hc as [b [Hb Hc]].
  apply digest_range in Hb.
  destruct Hc as [<- | [<- | []]]; apply hex_digit_lower.
  - split; [apply Z.div_pos; lia | apply Z.div_lt_upper_bound; lia].
  - apply Z.mod_pos_bound. lia.
Qed.

(** X1.  A password without marker whose stripped text is ASCII hashes to
    32 lowercase hexadecimal digits. *)
Theorem hashed_password_is_hex (U : unicode_db) (password : pystr) :
  carries_marker U password = false ->
  forallb PyStr.is_ascii (PyStr.strip password) = true ->
  exists digest,
    _hash_password U password = Ok digest
    /\ List.length digest = 32%nat
    /\ forallb is_hex_lower digest = true.
Proof.
  intros Hm Ha.
  assert (Hrun : _hash_password U password
                 = Ok (md5_hex (md5_hex (md5_hex (PyStr.strip password))))).
  { unfold carries_marker in Hm. apply orb_false_iff in Hm. destruct Hm as [H1 H2].
    unfold _hash_password. simpl marked_value. rewrite H1, H2.
    apply md5_rounds_three. exact Ha. }
  eexists. split; [exact Hrun|].
  split; [apply hexdigest_length | apply hexdigest_hex].
Qed.

Lemma hashed_password_is_hex_witness :
  exists digest,
    _hash_password ucd_sample (u " secret ") = Ok digest
    /\ List.length digest = 32%nat
    /\ forallb is_hex_lower digest = true.
Proof.
  apply (hashed_password_is_hex ucd_sample (u " secret ")); reflexivity.
Defined.

Lemma strip_no_space (s : pystr) :
  forallb (fun c => negb (PyStr.isspace c)) s = true -> PyStr.strip s = s.
Proof.
  intros H.
  assert (Hl : forall t, forallb (fun c => negb (PyStr.isspace c)) t = true ->
                         PyStr.lstrip t = t).
  { intros [|c t] Ht; [reflexivity|]. simpl in Ht |- *.
    apply andb_prop in Ht. destruct Ht as [Hc _].
    apply negb_true_iff in Hc. rewrite Hc. reflexivity. }
  unfold PyStr.strip, PyStr.rstrip. rewrite (Hl _ H).
  rewrite Hl, rev_involutive; [reflexivity|].
  apply forallb_forall. intros c Hc. apply in_rev in Hc.
  revert c Hc. apply forallb_forall. exact H.
Qed.

Lemma hex_is_no_space c : is_hex_lower c = true -> negb (PyStr.isspace c) = true.
Proof.
  unfold is_hex_lower, PyStr.isspace. intros H.
  apply orb_true_iff in H.
  destruct H as [H | H]; apply andb_true_iff in H; destruct H as [H1 H2];
    apply N.leb_le in H1; apply N.leb_le in H2; apply negb_true_iff;
    repeat (apply orb_false_iff; split);
    try (apply N.eqb_neq; lia);
    apply andb_false_iff;
    try (left; apply N.leb_gt; lia); right; apply N.leb_gt; lia.
Qed.

Lemma marked_text_hashes (U : unicode_db) (marker h : pystr) :
  marker = u "hashed:" \/ marker = u "md5:" ->
  forallb (fun c => negb (PyStr.isspace c)) h = true ->
  _hash_password U (marker ++ h) = Ok h.
Proof.
  intros Hm Hh.
  assert (Hs : PyStr.strip (marker ++ h) = marker ++ h).
  { apply strip_no_space. rewrite forallb_app, Hh.
    destruct Hm as [-> | ->]; reflexivity. }
  unfold _hash_password. rewrite Hs. cbn [marked_value].
  destruct Hm as [-> | ->].
  - change (PyStr.lower U (u "hashed:" ++ h))
      with (u "hashed:" ++ PyStr.lower_from U (u "hashed:") h).
    rewrite startswith_app. reflexivity.
  - change (PyStr.lower U (u "md5:" ++ h))
      with (u "md5:" ++ PyStr.lower_from U (u "md5:") h).
    change (PyStr.startswith (u "md5:" ++ PyStr.lower_from U (u "md5:") h) (u "hashed:"))
      with false.
    rewrite startswith_app. reflexivity.
Qed.

Lemma raw_digest_hex (U : unicode_db) (password digest : pystr) :
  carries_marker U password = false ->
  _hash_password U password = Ok digest ->
  List.length digest = 32%nat /\ forallb is_hex_lower digest = true.
Proof.
  intros Hm Hrun.
  unfold carries_marker in Hm. apply orb_false_iff in Hm. destruct Hm as [H1 H2].
  unfold _hash_password in Hrun. simpl marked_value in Hrun. rewrite H1, H2 in Hrun.
  destruct (forallb PyStr.is_ascii (PyStr.strip password)) eqn:Ha.
  - rewrite (md5_rounds_three _ Ha) in Hrun. injection Hrun as <-.
    split; [apply hexdigest_length | apply hexdigest_hex].
  - rewrite (md5_rounds_non_ascii 2 _ Ha) in Hrun. discriminate Hrun.
Qed.

(** X2.  Hashing is idempotent through the marker: the digest of a raw
    password, written after [hashed:] or [md5:], hashes to itself. *)
Theorem marked_digest_hashes_to_itself (U : unicode_db) (password digest : pystr) :
  carries_marker U password = false ->
  _hash_password U password = Ok digest ->
  _hash_password U (u "hashed:" ++ digest) = Ok digest
  /\ _hash_password U (u "md5:" ++ digest) = Ok digest.
Proof.
  intros Hm Hrun.
  assert (Hd : forallb (fun c => negb (PyStr.isspace c)) digest = true).
  { destruct (raw_digest_hex U password digest Hm Hrun) as [_ Hhex].
    apply forallb_forall. intros c Hc. apply hex_is_no_space.
    revert c Hc. apply forallb_forall. exact Hhex. }
  split; apply marked_text_hashes; auto.
Qed.

Lemma marked_digest_hashes_to_itself_witness :
  _hash_password ucd_sample (u "hashed:19ff59e135cce19e3493402cb3884628")
  = Ok (u "19ff59e135cce19e3493402cb3884628").
Proof.
  apply (proj1 (marked_digest_hashes_to_itself ucd_sample (u " secret ")
                  (u "19ff59e135cce19e3493402cb3884628") eq_refl
                  ltac:(vm_compute; reflexivity))).
Defined.

(** ** Slugs *)

Section SlugShape.
Variable U : unicode_db.

Lemma is_slug_char_iff x :
  is_slug_char x = true
  <-> (48 <= x <= 57 \/ 97 <= x <= 122 \/ x = 45 \/ x = 95 \/ x = 43)%N.
Proof.
  unfold is_slug_char.
  rewrite !orb_true_iff, !andb_true_iff, !N.leb_le, !N.eqb_eq. tauto.
Qed.

Lemma kept_ascii_lowers_to_slug_char c :
  PyStr.is_ascii c = true ->
  ((c =? 45)%N || PyStr.is_word U c || (c =? 43)%N) = true ->
  is_slug_char (PyStr.ascii_lower c) = true.
Proof.
  unfold PyStr.is_word. intros Ha. rewrite Ha.
  rewrite !orb_true_iff, !andb_true_iff, !N.leb_le, !N.eqb_eq. intros H.
  apply is_slug_char_iff. unfold PyStr.ascii_lower.
  destruct ((65 <=? c)%N && (c <=? 90)%N) eqn:Hup.
  - apply andb_true_iff in Hup. rewrite !N.leb_le in Hup. lia.
  - apply andb_false_iff in Hup. rewrite !N.leb_gt in Hup. lia.
Qed.

Lemma slug_chars_of_kept (s : pystr) :
  forallb is_slug_char
    (map PyStr.ascii_lower (filter PyStr.is_ascii (sub_non_uri U s))) = true.
Proof.
  apply forallb_forall. intros c Hc. apply in_map_iff in Hc.
  destruct Hc as (x & <- & Hx). apply filter_In in Hx. destruct Hx as [Hx Ha].
  unfold sub_non_uri in Hx. apply filter_In in Hx. destruct Hx as [_ Hk].
  apply kept_ascii_lowers_to_slug_char; assumption.
Qed.

Lemma slug_char_facts c :
  is_slug_char c = true ->
  PyStr.is_ascii c = true /\ PyStr.isspace c = false /\ (c =? 32)%N = false
  /\ PyStr.ascii_lower c = c
  /\ ((c =? 45)%N || PyStr.is_word U c || (c =? 43)%N) = true.
Proof.
  unfold is_slug_char. intros H.
  assert (Hc : (48 <= c <= 57 \/ 97 <= c <= 122 \/ c = 45 \/ c = 95 \/ c = 43)%N).
  { repeat (apply orb_true_iff in H; destruct H as [H | H]);
      try (apply andb_prop in H; destruct H as [H1 H2];
           apply N.leb_le in H1; apply N.leb_le in H2; lia);
      apply N.eqb_eq in H; lia. }
  clear H.
  assert (Ha : PyStr.is_ascii c = true) by (apply N.ltb_lt; lia).
  split; [exact Ha|].
  split.
  { unfold PyStr.isspace.
    repeat (apply orb_false_iff; split);
      try (apply N.eqb_neq; lia);
      apply andb_false_iff;
      try (left; apply N.leb_gt; lia); right; apply N.leb_gt; lia. }
  split; [apply N.eqb_neq; lia|].
  split.
  { unfold PyStr.ascii_lower.
    replace ((65 <=? c)%N && (c <=? 90)%N) with false; [reflexivity|].
    symmetry. apply andb_false_iff.
    destruct (N.le_gt_cases 65 c) as [H1|H1];
      [right; apply N.leb_gt; lia | left; apply N.leb_gt; lia]. }
  unfold PyStr.is_word. rewrite Ha.
  destruct Hc as [Hc | [Hc | [Hc | [Hc | Hc]]]].
  - replace ((48 <=? c)%N && (c <=? 57)%N) with true;
      [rewrite !orb_true_r; reflexivity|].
    symmetry. apply andb_true_iff. split; apply N.leb_le; lia.
  - replace ((97 <=? c)%N && (c <=? 122)%N) with true;
      [rewrite !orb_true_r; reflexivity|].
    symmetry. apply andb_true_iff. split; apply N.leb_le; lia.
  - subst c. reflexivity.
  - subst c. reflexivity.
  - subst c. reflexivity.
Qed.

Lemma filter_all {A} (p : A -> bool) (l : list A) :
  forallb p l = true -> filter p l = l.
Proof.
  induction l as [|x l IH]; simpl; intros H; [reflexivity|].
  apply andb_prop in H. destruct H as [Hx Hl]. rewrite Hx, (IH Hl). reflexivity.
Qed.

Lemma map_fixed {A} (f : A -> A) (l : list A) :
  (forall x, In x l -> f x = x) -> map f l = l.
Proof.
  induction l as [|x l IH]; simpl; intros H; [reflexivity|].
  rewrite (H x (or_introl eq_refl)), IH; [reflexivity|].
  intros y Hy. apply H. right. exact Hy.
Qed.

Lemma slug_is_fixed (s : pystr) :
  forallb is_slug_char s = true ->
  PyStr.encode_ascii_ignore
    (PyStr.lower U (sub_non_uri U (PyStr.replace_space_hyphen (PyStr.strip s)))) = s.
Proof.
  intros H.
  assert (Hall : forall c, In c s ->
            PyStr.is_ascii c = true /\ PyStr.isspace c = false
            /\ (c =? 32)%N = false /\ PyStr.ascii_lower c = c
            /\ ((c =? 45)%N || PyStr.is_word U c || (c =? 43)%N) = true).
  { intros c Hc. apply slug_char_facts. revert c Hc. apply forallb_forall. exact H. }
  rewrite strip_no_space.
  2:{ apply forallb_forall. intros c Hc.
      destruct (Hall c Hc) as (_ & Hs & _). rewrite Hs. reflexivity. }
  assert (Hrep : PyStr.replace_space_hyphen s = s).
  { unfold PyStr.replace_space_hyphen. apply map_fixed. intros c Hc.
    destruct (Hall c Hc) as (_ & _ & Hsp & _). rewrite Hsp. reflexivity. }
  rewrite Hrep.
  assert (Hsub : sub_non_uri U s = s).
  { unfold sub_non_uri. apply filter_all. apply forallb_forall. intros c Hc.
    destruct (Hall c Hc) as (_ & _ & _ & _ & Hk). exact Hk. }
  rewrite Hsub.
  assert (Hasc : forallb PyStr.is_ascii s = true).
  { apply forallb_forall. intros c Hc. destruct (Hall c Hc) as (Ha & _). exact Ha. }
  unfold PyStr.lower. rewrite (lower_from_ascii U s Hasc).
  rewrite map_fixed.
  2:{ intros c Hc. destruct (Hall c Hc) as (_ & _ & _ & Hl & _). exact Hl. }
  unfold PyStr.encode_ascii_ignore. apply filter_all. exact Hasc.
Qed.

End SlugShape.

(** X3.  When no kept non-ASCII character lowers to text holding an ASCII
    character (every ASCII name is such), the slug is made of lowercase
    letters, digits, hyphens, underscores and pluses only; and the slug of
    a non-empty slug is that slug, whatever the MAC address. *)
Theorem slug_is_url_safe_and_stable (U : unicode_db) (nickname mac : json)
    (name : pystr) :
  Py.or_ nickname mac = JStr name ->
  lower_stays_non_ascii U []
    (sub_non_uri U (PyStr.replace_space_hyphen (PyStr.strip name))) = true ->
  exists slug,
    _name_uri U nickname mac = Ok slug
    /\ forallb is_slug_char slug = true
    /\ (slug <> [] -> forall mac', _name_uri U (JStr slug) mac' = Ok slug).
Proof.
  intros Hname Hstay.
  exists (map PyStr.ascii_lower
            (filter PyStr.is_ascii
               (sub_non_uri U (PyStr.replace_space_hyphen (PyStr.strip name))))).
  assert (Hrun : _name_uri U nickname mac
                 = Ok (map PyStr.ascii_lower
                         (filter PyStr.is_ascii
                            (sub_non_uri U (PyStr.replace_space_hyphen
                                              (PyStr.strip name)))))).
  { unfold _name_uri. rewrite Hname. unfold PyStr.encode_ascii_ignore, PyStr.lower.
    rewrite (filter_lower U _ _ Hstay). reflexivity. }
  split; [exact Hrun|].
  split; [apply slug_chars_of_kept|].
  intros Hne mac'. unfold _name_uri.
  destruct (map PyStr.ascii_lower _) as [|c slug] eqn:Hs; [congruence|].
  cbn [Py.or_ Py.truthy]. rewrite <- Hs.
  rewrite slug_is_fixed; [reflexivity|]. apply slug_chars_of_kept.
Qed.

Lemma slug_is_url_safe_and_stable_witness :
  exists slug,
    _name_uri ucd_sample (JStr (u " Back Yard #2 ")) (JStr (u "AB:12")) = Ok slug
    /\ forallb is_slug_char slug = true
    /\ (slug <> [] -> forall mac', _name_uri ucd_sample (JStr slug) mac' = Ok slug).
Proof.
  apply (slug_is_url_safe_and_stable ucd_sample (JStr (u " Back Yard #2 "))
           (JStr (u "AB:12")) (u " Back Yard #2 ") eq_refl).
  vm_compute. reflexivity.
Defined.

(** ** The signaling normalizer *)

Section RelayShape.
Variable U : unicode_db.

Lemma span_inv p s a b :
  span p s = (a, b) ->
  s = a ++ b /\ forallb p a = true
  /\ match b with [] => True | c :: _ => p c = false end.
Proof.
  revert a b. induction s as [|c s IH]; simpl; intros a b H.
  - injection H as <- <-. auto.
  - destruct (p c) eqn:Hc.
    + destruct (span p s) as [a' b'] eqn:Hs. injection H as <- <-.
      destruct (IH a' b' eq_refl) as (-> & Ha & Hb).
      simpl. rewrite Hc, Ha. auto.
    + injection H as <- <-. simpl. rewrite Hc. auto.
Qed.

Lemma literal_inv lit s rest : literal lit s = Some rest -> s = lit ++ rest.
Proof.
  unfold literal. destruct (PyStr.startswith s lit) eqn:Hs; [|discriminate].
  intros [= <-]. revert s Hs.
  induction lit as [|c lit IH]; intros s Hs; [reflexivity|].
  destruct s as [|x s]; [discriminate|]. simpl in Hs.
  apply andb_prop in Hs. destruct Hs as [Hc Hs]. apply N.eqb_eq in Hc. subst x.
  simpl. f_equal. exact (IH s Hs).
Qed.

Lemma digits_then_inv lit s ds rest :
  digits_then U lit s = Some (ds, rest) ->
  s = ds ++ lit ++ rest /\ digit_run U ds = true.
Proof.
  unfold digits_then. destruct (span (PyStr.is_digit U) s) as [a b] eqn:Hs.
  destruct a as [|x a]; [discriminate|].
  destruct (literal lit b) as [r|] eqn:Hl; [|discriminate].
  intros [= <- <-]. apply span_inv in Hs. destruct Hs as (-> & Ha & _).
  apply literal_inv in Hl. subst b. auto.
Qed.

Lemma scheme_of_inv s g rest :
  scheme_of s = Some (g, rest) ->
  s = g ++ rest /\ (g = u "turn:" \/ g = u "turns:").
Proof.
  unfold scheme_of.
  destruct (literal (u "turns:") s) as [r|] eqn:H1.
  - intros [= <- <-]. apply literal_inv in H1. auto.
  - destruct (literal (u "turn:") s) as [r|] eqn:H2; [|discriminate].
    intros [= <- <-]. apply literal_inv in H2. auto.
Qed.

(** A rewritten URL does not match the pattern again: after the first run
    of digits comes a dot, not a hyphen. *)
Lemma dotted_does_not_match urls m :
  match_relay U urls = Some m -> match_relay U (dotted m) = None.
Proof.
  unfold match_relay.
  destruct (scheme_of urls) as [[g1 r1]|] eqn:H1; [|discriminate].
  destruct (digits_then U (u "-") r1) as [[g2 r2]|] eqn:H2; [|discriminate].
  destruct (digits_then U (u "-") r2) as [[g3 r3]|]; [|discriminate].
  destruct (digits_then U (u "-") r3) as [[g4 r4]|]; [|discriminate].
  destruct (digits_then U (u ".t-") r4) as [[g5 r5]|]; [|discriminate].
  destruct (host_tail r5) as [g6|]; [|discriminate].
  intros [= <-].
  apply scheme_of_inv in H1. destruct H1 as (_ & Hg1).
  apply digits_then_inv in H2. destruct H2 as (_ & Hg2).
  destruct g2 as [|c g2]; [discriminate|].
  unfold digit_run in Hg2.
  assert (Hc : PyStr.is_digit U c = true).
  { simpl in Hg2. apply andb_prop in Hg2. tauto. }
  unfold dotted.
  assert (Hs : scheme_of (g1 ++ (c :: g2) ++ u "." ++ g3 ++ u "." ++ g4
                            ++ u "." ++ g5 ++ g6)
               = Some (g1, (c :: g2) ++ u "." ++ g3 ++ u "." ++ g4 ++ u "." ++ g5 ++ g6)).
  { unfold scheme_of. destruct Hg1 as [-> | ->].
    - assert (Hno : literal (u "turns:")
                      (u "turn:" ++ (c :: g2) ++ u "." ++ g3 ++ u "." ++ g4
                         ++ u "." ++ g5 ++ g6) = None).
      { unfold literal. cbn [u map list_ascii_of_string app PyStr.startswith
                               N_of_ascii N_of_digits].
        simpl PyStr.startswith.
        destruct (115 =? c)%N eqn:Hsc; [|reflexivity].
        apply N.eqb_eq in Hsc. subst c. discriminate Hc. }
      rewrite Hno, literal_app. reflexivity.
    - rewrite literal_app. reflexivity. }
  rewrite Hs.
  unfold digits_then.
  change ((c :: g2) ++ u "." ++ g3 ++ u "." ++ g4 ++ u "." ++ g5 ++ g6)
    with ((c :: g2) ++ 46%N :: (g3 ++ u "." ++ g4 ++ u "." ++ g5 ++ g6)).
  rewrite (span_stop (PyStr.is_digit U) (c :: g2) 46%N _ Hg2 eq_refl). reflexivity.
Qed.

End RelayShape.

Lemma normalize_server_shape (U : unicode_db) (s s' : json) :
  normalize_server U s = Ok s' -> normalized_descriptor s'.
Proof.
  unfold normalize_server.
  destruct s as [| | | |items|fields]; try discriminate.
  { destruct (existsb _ items); discriminate. }
  set (fields1 := match Py.dict_get (u "url") fields with
                  | Some url => Py.dict_set (u "urls") url (Py.dict_del (u "url") fields)
                  | None => fields
                  end).
  assert (Hurl : Py.dict_get (u "url") fields1 = None).
  { unfold fields1. destruct (Py.dict_get (u "url") fields) eqn:Hu; [|exact Hu].
    rewrite dict_get_set_other by discriminate. apply dict_get_del_same. }
  destruct (Py.dict_get (u "urls") fields1) as [v|] eqn:Hurls.
  - destruct v as [| | |t| |]; try discriminate.
    destruct (match_relay U t) as [m|]; intros [= <-].
    + exists (Py.dict_set (u "urls") (JStr (dotted m)) fields1).
      split; [reflexivity|]. split.
      * rewrite dict_get_set_other by discriminate. exact Hurl.
      * intros v. rewrite dict_get_set_same. intros [= <-]. eauto.
    + exists fields1. split; [reflexivity|]. split; [exact Hurl|].
      intros v. rewrite Hurls. intros [= <-]. eauto.
  - change (match_relay U []) with (@None (pystr * pystr * pystr * pystr * pystr * pystr)).
    intros [= <-]. exists fields1. split; [reflexivity|]. split; [exact Hurl|].
    intros v. rewrite Hurls. discriminate.
Qed.

(** X4.  The signaling normalizer is idempotent: a descriptor it returns
    has no legacy [url] field, has a text as [urls] field if it has one,
    and is returned as it is when normalized again. *)
Theorem normalize_server_idempotent (U : unicode_db) (s s' : json) :
  normalize_server U s = Ok s' ->
  normalized_descriptor s' /\ normalize_server U s' = Ok s'.
Proof.
  unfold normalize_server at 1.
  destruct s as [| | | |items|fields]; try discriminate.
  { destruct (existsb _ items); discriminate. }
  set (fields1 := match Py.dict_get (u "url") fields with
                  | Some url => Py.dict_set (u "urls") url (Py.dict_del (u "url") fields)
                  | None => fields
                  end).
  assert (Hurl : Py.dict_get (u "url") fields1 = None).
  { unfold fields1. destruct (Py.dict_get (u "url") fields) eqn:Hu; [|exact Hu].
    rewrite dict_get_set_other by discriminate. apply dict_get_del_same. }
  destruct (Py.dict_get (u "urls") fields1) as [v|] eqn:Hurls.
  - destruct v as [| | |t| |]; try discriminate.
    destruct (match_relay U t) as [m|] eqn:Hm; intros [= <-].
    + split.
      * exists (Py.dict_set (u "urls") (JStr (dotted m)) fields1).
        split; [reflexivity|]. split.
        { rewrite dict_get_set_other by discriminate. exact Hurl. }
        { intros v. rewrite dict_get_set_same. intros [= <-]. eauto. }
      * unfold normalize_server.
        rewrite dict_get_set_other by discriminate. rewrite Hurl.
        rewrite dict_get_set_same.
        rewrite (dotted_does_not_match U t m Hm). reflexivity.
    + split.
      * exists fields1. split; [reflexivity|]. split; [exact Hurl|].
        intros v. rewrite Hurls. intros [= <-]. eauto.
      * unfold normalize_server. rewrite Hurl, Hurls, Hm. reflexivity.
  - change (match_relay U []) with (@None (pystr * pystr * pystr * pystr * pystr * pystr)).
    intros [= <-]. split.
    + exists fields1. split; [reflexivity|]. split; [exact Hurl|].
      intros v. rewrite Hurls. discriminate.
    + unfold normalize_server. rewrite Hurl, Hurls. reflexivity.
Qed.

Lemma normalize_server_idempotent_witness :
  normalize_server ucd_sample
    (JObj [ (u "username", JStr (u "x")); (u "urls", JStr (u "turn:54.201.33.198:443")) ])
  = Ok (JObj [ (u "username", JStr (u "x")); (u "urls", JStr (u "turn:54.201.33.198:443")) ]).
Proof.
  apply (proj2 (normalize_server_idempotent ucd_sample
                  (JObj [ (u "url", JStr (u "turn:54-201-33-198.t-xyz.kinesisvideo.example:443"));
                          (u "username", JStr (u "x")) ])
                  _ ltac:(vm_compute; reflexivity))).
Defined.

(** ** Device records *)

Section DeviceFacts.
Variable E : env.

Lemma name_uri_ascii nickname mac slug :
  _name_uri (ucd E) nickname mac = Ok slug -> forallb PyStr.is_ascii slug = true.
Proof.
  unfold _name_uri. destruct (Py.or_ nickname mac); try discriminate.
  intros [= <-]. apply forallb_filter_id.
Qed.

Lemma camera_of_entry dev cam :
  camera_of E dev = Ok (Some cam) -> cache_entry cam.
Proof.
  unfold camera_of.
  destruct (Py.get dev (u "product_type") JNull) as [pt|]; [|discriminate]. cbn [rbind].
  destruct (negb (Py.eq_str pt (u "Camera"))); [discriminate|].
  destruct (Py.get dev (u "mac") JNull) as [mac|]; [|discriminate]. cbn [rbind].
  destruct (Py.get dev (u "product_model") JNull) as [model|]; [|discriminate].
  cbn [rbind].
  destruct (Py.truthy mac) eqn:Hmac; [|discriminate].
  destruct (Py.truthy model) eqn:Hmodel; [|discriminate]. cbn [negb orb].
  destruct (Py.get dev (u "device_params") (JObj [])) as [params|]; [|discriminate].
  cbn [rbind].
  destruct (Py.get params (u "camera_thumbnails") (JObj [])) as [thumbs|];
    [|discriminate]. cbn [rbind].
  destruct (Py.get dev (u "nickname") mac) as [nickname|]; [|discriminate].
  cbn [rbind].
  destruct (_name_uri (ucd E) nickname mac) as [slug|] eqn:Hslug; [|discriminate].
  cbn [rbind].
  destruct (model_label model) as [label|]; [|discriminate]. cbn [rbind].
  destruct (Py.get dev (u "firmware_ver") JNull) as [fw|]; [|discriminate]. cbn [rbind].
  destruct (Py.get params (u "ip") JNull) as [ip|]; [|discriminate]. cbn [rbind].
  destruct (Py.get thumbs (u "thumbnails_url") JNull) as [thumb|]; [|discriminate].
  cbn [rbind].
  destruct (in_set model PAN_CAMS) as [pan|]; [|discriminate]. cbn [rbind].
  destruct (in_set model PRO_CAMS) as [pro|]; [|discriminate]. cbn [rbind].
  destruct (Py.get dev (u "device_conn_state") (JNum 0)) as [conn|]; [|discriminate].
  cbn [rbind]. intros [= <-].
  exists mac, nickname, slug, model, label, fw, ip, thumb, pan, pro, (Py.eq_int conn 1).
  split; [reflexivity|]. split; [exact Hmac|]. split; [exact Hmodel|].
  exact (name_uri_ascii _ _ _ Hslug).
Qed.

Lemma cameras_of_entries devs cams :
  cameras_of E devs = Ok cams -> Forall cache_entry cams.
Proof.
  revert cams. induction devs as [|dev devs IH]; simpl; intros cams H.
  - injection H as <-. constructor.
  - destruct (camera_of E dev) as [cam|] eqn:Hc; [|discriminate]. cbn [rbind] in H.
    destruct (cameras_of E devs) as [rest|]; [|discriminate]. cbn [rbind] in H.
    injection H as <-. destruct cam as [c|]; [|exact (IH rest eq_refl)].
    constructor; [exact (camera_of_entry _ _ Hc) | exact (IH rest eq_refl)].
Qed.

Lemma cameras_of_app pre post :
  cameras_of E (pre ++ post)
  = rbind (cameras_of E pre) (fun a =>
    rbind (cameras_of E post) (fun b => Ok (a ++ b))).
Proof.
  induction pre as [|dev pre IH]; simpl.
  - destruct (cameras_of E post); reflexivity.
  - destruct (camera_of E dev) as [cam|]; [|reflexivity]. cbn [rbind].
    rewrite IH. destruct (cameras_of E pre) as [a|]; [|reflexivity]. cbn [rbind].
    destruct (cameras_of E post) as [b|]; [|reflexivity]. cbn [rbind].
    destruct cam; reflexivity.
Qed.

End DeviceFacts.

(** X5.  A listed device that is not of product type "Camera", or has no
    or an empty MAC address, or no or an empty model code, is dropped: the
    normalized list is the one obtained without it. *)
Theorem device_filtered_out (E : env) (fields : list (pystr * json))
    (pre post : list json) :
  Py.eq_str (field_or fields (u "product_type") JNull) (u "Camera") = false
  \/ Py.truthy (field_or fields (u "mac") JNull) = false
  \/ Py.truthy (field_or fields (u "product_model") JNull) = false ->
  camera_of E (JObj fields) = Ok None
  /\ cameras_of E (pre ++ JObj fields :: post) = cameras_of E (pre ++ post).
Proof.
  intros H.
  assert (Hdrop : camera_of E (JObj fields) = Ok None).
  { unfold camera_of. cbn [Py.get rbind]. unfold field_or in H.
    destruct (Py.eq_str _ (u "Camera")) eqn:Hpt; [|reflexivity]. cbn [negb].
    destruct H as [H | [H | H]]; [discriminate| |].
    - rewrite H. reflexivity.
    - rewrite H. rewrite orb_true_r. reflexivity. }
  split; [exact Hdrop|].
  rewrite !cameras_of_app. cbn [cameras_of]. rewrite Hdrop. cbn [rbind].
  destruct (cameras_of E pre); [|reflexivity]. cbn [rbind].
  destruct (cameras_of E post); reflexivity.
Qed.

Lemma device_filtered_out_witness :
  cameras_of (scripted [])
    ([sample_device]
       ++ JObj [ (u "product_type", JStr (u "Plug")); (u "mac", JStr (u "CD:34"));
                 (u "product_model", JStr (u "WLPP1")) ] :: [sample_device])
  = cameras_of (scripted []) ([sample_device] ++ [sample_device]).
Proof.
  apply (proj2 (device_filtered_out (scripted [])
                  [ (u "product_type", JStr (u "Plug")); (u "mac", JStr (u "CD:34"));
                    (u "product_model", JStr (u "WLPP1")) ]
                  [sample_device] [sample_device] (or_introl eq_refl))).
Defined.

(** X6.  Every record of a normalized device list has the eleven fields of
    a cache entry in the same order, a non-empty MAC address and model code
    and an ASCII slug; the list is no longer than the vendor's. *)
Theorem normalized_records_well_formed (E : env) (devs cams : list json) :
  cameras_of E devs = Ok cams ->
  Forall cache_entry cams /\ (List.length cams <= List.length devs)%nat.
Proof.
  revert cams. induction devs as [|dev devs IH]; simpl; intros cams H.
  - injection H as <-. split; [constructor | reflexivity].
  - destruct (camera_of E dev) as [cam|] eqn:Hc; [|discriminate]. cbn [rbind] in H.
    destruct (cameras_of E devs) as [rest|]; [|discriminate]. cbn [rbind] in H.
    destruct (IH rest eq_refl) as [Hf Hl].
    injection H as <-. destruct cam as [c|].
    + split; [constructor; [exact (camera_of_entry E _ _ Hc) | exact Hf] | simpl; lia].
    + split; [exact Hf | lia].
Qed.

Lemma normalized_records_well_formed_witness :
  Forall cache_entry [sample_camera].
Proof.
  apply (proj1 (normalized_records_well_formed (scripted []) [sample_device]
                  [sample_camera] ltac:(vm_compute; reflexivity))).
Defined.

(** ** Lookup by slug *)

Lemma entry_name_uri cam :
  cache_entry cam -> exists slug, Py.index cam (u "name_uri") = Ok (JStr slug).
Proof.
  intros (mac & nick & slug & model & label & fw & ip & th & pan & pro & on
          & -> & _). exists slug. reflexivity.
Qed.

Lemma scan_total (slug : pystr) (cams : list json) :
  Forall cache_entry cams -> exists cam, scan_cameras slug cams = Ok cam.
Proof.
  induction 1 as [|cam cams Hcam _ IH]; simpl; [eauto|].
  destruct (entry_name_uri cam Hcam) as [s Hs].
  rewrite Hs. cbn [rbind Py.eq_str].
  destruct (pystr_eqb s slug); [eauto | exact IH].
Qed.

(** X7.  Over well-formed records the scan of [_find_camera] never raises:
    it returns the first record whose slug is the one asked for (the first
    one wins when several devices share a slug), and [None] when there is
    none. *)
Theorem scan_returns_first_match (slug : pystr) (cams : list json) :
  Forall cache_entry cams ->
  (matches_none slug cams /\ scan_cameras slug cams = Ok JNull)
  \/ (exists pre cam post,
        cams = pre ++ cam :: post
        /\ matches_none slug pre
        /\ Py.index cam (u "name_uri") = Ok (JStr slug)
        /\ scan_cameras slug cams = Ok cam).
Proof.
  induction 1 as [|cam cams Hcam _ IH].
  - left. split; [constructor | reflexivity].
  - destruct (entry_name_uri cam Hcam) as [s Hs].
    simpl. rewrite Hs. cbn [rbind Py.eq_str].
    destruct (pystr_eqb s slug) eqn:Heq.
    + right. apply pystr_eqb_eq in Heq. subst s.
      exists [], cam, cams. split; [reflexivity|].
      split; [constructor|]. split; [exact Hs | reflexivity].
    + destruct IH as [[Hnone Hscan] | (pre & c & post & -> & Hnone & Hc & Hscan)].
      * left. split; [|exact Hscan].
        constructor; [|exact Hnone]. exists (JStr s). split; [exact Hs | exact Heq].
      * right. exists (cam :: pre), c, post. split; [reflexivity|].
        split; [|split; [exact Hc | exact Hscan]].
        constructor; [|exact Hnone]. exists (JStr s). split; [exact Hs | exact Heq].
Qed.

Lemma scan_returns_first_match_witness :
  (matches_none (u "front-door") [sample_camera; sample_camera]
   /\ scan_cameras (u "front-door") [sample_camera; sample_camera] = Ok JNull)
  \/ (exists pre cam post,
        [sample_camera; sample_camera] = pre ++ cam :: post
        /\ matches_none (u "front-door") pre
        /\ Py.index cam (u "name_uri") = Ok (JStr (u "front-door"))
        /\ scan_cameras (u "front-door") [sample_camera; sample_camera] = Ok cam).
Proof.
  apply (scan_returns_first_match (u "front-door") [sample_camera; sample_camera]).
  repeat constructor;
    exists (JStr (u "AB:12")), (JStr (u "Front Door!")), (u "front-door"),
      (JStr (u "HL_PAN3")), (JStr (u "Pan V3")), JNull, JNull, JNull,
      true, false, true; repeat split.
Defined.

(** ** What serving keeps *)

Section Steps.
Variable E : env.

Lemma step_refl w : session_step E w w.
Proof.
  unfold session_step. repeat split; eauto. exists []. rewrite app_nil_r. reflexivity.
Qed.

Lemma write_failed_wider w1 w2 w3 w4 :
  (writes w1 <= writes w2)%nat -> (writes w3 <= writes w4)%nat ->
  write_failed E w2 w3 -> write_failed E w1 w4.
Proof. intros H1 H2 (n & Hn & Hd). exists n. split; [lia | exact Hd]. Qed.

Lemma step_trans w1 w2 w3 :
  session_step E w1 w2 -> session_step E w2 w3 -> session_step E w1 w3.
Proof.
  intros (Hc & Hn & Ht & Hf & Hk & Hu & Hw & Hp & rs & Hs)
         (Hc' & Hn' & Ht' & Hf' & Hk' & Hu' & Hw' & Hp' & rs' & Hs').
  unfold session_step. repeat split.
  - intros k H1 H2. rewrite (Hc' k H1 H2). exact (Hc k H1 H2).
  - intros k v H. destruct (Hn k v H) as [v' H']. exact (Hn' k v' H').
  - auto.
  - intros Hsv. destruct (Hf Hsv) as [H2|H2].
    + destruct (Hf' H2) as [H3|H3]; [left; exact H3 | right].
      exact (write_failed_wider _ _ _ _ Hw (le_n _) H3).
    + right. exact (write_failed_wider _ _ _ _ (le_n _) Hw' H2).
  - auto.
  - congruence.
  - lia.
  - congruence.
  - exists (rs ++ rs'). rewrite Hs', Hs, app_assoc. reflexivity.
Qed.

Lemma step_same_but_trace w w' rs :
  creds w' = creds w -> token_file w' = token_file w -> cameras w' = cameras w ->
  uuids_drawn w' = uuids_drawn w -> writes w' = writes w -> printed w' = printed w ->
  sent w' = sent w ++ rs -> session_step E w w'.
Proof.
  intros Hc Hf Hk Hu Hw Hp Hs. unfold session_step, cache_ok, saved.
  rewrite Hc, Hf, Hk, Hw. repeat split; eauto.
Qed.

Lemma step_tick w : session_step E w (tick_clock w).
Proof.
  apply (step_same_but_trace w _ []); try reflexivity.
  simpl. rewrite app_nil_r. reflexivity.
Qed.

Lemma step_log rq w : session_step E w (log_request rq w).
Proof. apply (step_same_but_trace w _ [rq]); reflexivity. Qed.

(** A write of the token file: done, or failed and counted. *)
Lemma save_run w :
  (_save_tokens E w = (Ok tt, tick_write (set_token_file (FileHolds (creds w)) w))
   /\ disk E (writes w) = Written)
  \/ (exists f, _save_tokens E w = (Raise OSError, tick_write (set_token_file f w))
                /\ disk E (writes w) <> Written).
Proof.
  unfold _save_tokens. destruct (disk E (writes w)) as [|[f|]].
  - left. split; reflexivity.
  - right. exists f. split; [reflexivity | discriminate].
  - right. exists (token_file w). split; [|discriminate].
    destruct w; reflexivity.
Qed.

Lemma save_sent w : sent (snd (_save_tokens E w)) = sent w.
Proof. destruct (save_run w) as [[-> _] | (f & -> & _)]; reflexivity. Qed.

Lemma step_save w : session_step E w (snd (_save_tokens E w)).
Proof.
  destruct (save_run w) as [[-> _] | (f & -> & Hd)];
    unfold session_step, cache_ok, saved;
    cbn [snd creds token_file cameras uuids_drawn sent writes printed
         set_token_file tick_write];
    repeat split; eauto.
  - exists []. rewrite app_nil_r. reflexivity.
  - intros _. right. exists (writes w). cbn [writes tick_write set_token_file].
    split; [lia | exact Hd].
  - exists []. rewrite app_nil_r. reflexivity.
Qed.

Lemma step_stamp ts w : session_step E w (set_cameras_ts ts w).
Proof.
  apply (step_same_but_trace w _ []); try reflexivity.
  simpl. rewrite app_nil_r. reflexivity.
Qed.

Lemma step_cache cams ts w :
  Forall cache_entry cams -> session_step E w (set_cache cams ts w).
Proof.
  intros H. unfold session_step, cache_ok, saved.
  cbn [creds token_file cameras uuids_drawn sent writes printed set_cache].
  repeat split; eauto. exists []. rewrite app_nil_r. reflexivity.
Qed.

(** The two assignments of [_refresh_token] and the save that follows. *)
Lemma dict_set_not_empty {A} k (v : A) kv : Py.dict_set k v kv <> [].
Proof. destruct kv as [|[k' v'] rest]; simpl; [|destruct (pystr_eqb k k')]; discriminate. Qed.

Lemma dict_get_set_present {A} k k' (v v0 : A) kv :
  Py.dict_get k kv = Some v0 -> exists v', Py.dict_get k (Py.dict_set k' v kv) = Some v'.
Proof.
  intros H. destruct (pystr_eqb k k') eqn:Hk.
  - apply pystr_eqb_eq in Hk. subst k'. rewrite dict_get_set_same. eauto.
  - rewrite dict_get_set_other; [eauto|].
    intros ->. rewrite pystr_eqb_refl in Hk. discriminate.
Qed.

Lemma step_assign w kv a r :
  creds w = JObj kv ->
  let kv' := Py.dict_set (u "refresh_token") r (Py.dict_set (u "access_token") a kv) in
  forall w',
    creds w' = JObj kv' ->
    cameras w' = cameras w -> uuids_drawn w' = uuids_drawn w ->
    printed w' = printed w -> sent w' = sent w ->
    (writes w <= writes w')%nat ->
    (saved w' \/ write_failed E w w') ->
    session_step E w w'.
Proof.
  intros Hc kv' w' Hc' Hk Hu Hp Hs Hw Hsv. unfold session_step, cache_ok.
  rewrite Hc', Hk, Hu, Hp, Hs, Hc. repeat split; auto.
  - intros k H1 H2. cbn [Py.index]. unfold kv'.
    rewrite !dict_get_set_other by congruence. reflexivity.
  - intros k v. cbn [Py.index].
    destruct (Py.dict_get k kv) as [v0|] eqn:Hk0; [intros _|discriminate].
    destruct (dict_get_set_present k (u "access_token") a v0 kv Hk0) as [v1 H1].
    destruct (dict_get_set_present k (u "refresh_token") r v1 _ H1) as [v2 H2].
    unfold kv'. rewrite H2. eauto.
  - intros _. unfold kv'. cbn [Py.truthy].
    pose proof (dict_set_not_empty (u "refresh_token") r
                  (Py.dict_set (u "access_token") a kv)) as Hne.
    destruct (Py.dict_set _ _ _); [congruence | reflexivity].
  - exists []. rewrite app_nil_r. reflexivity.
Qed.

Lemma step_tokens w kv a r :
  creds w = JObj kv ->
  let kv' := Py.dict_set (u "refresh_token") r (Py.dict_set (u "access_token") a kv) in
  session_step E w (snd (_save_tokens E (set_creds (JObj kv') w))).
Proof.
  intros Hc kv'.
  destruct (save_run (set_creds (JObj kv') w)) as [[-> _] | (f & -> & Hd)];
    apply (step_assign w kv a r Hc); try reflexivity;
    cbn [snd writes tick_write set_token_file set_creds]; try lia.
  - left. reflexivity.
  - right. exists (writes w). cbn [writes tick_write set_token_file set_creds].
    split; [lia | exact Hd].
Qed.

End Steps.

Section Obeying.
Variable E : env.
Variable X : exn -> Prop.

Lemma obeys_ret {A} (a : A) : obeys (session_step E) X (ret a).
Proof. intros w r w' [= <- <-]. split; [apply step_refl | discriminate]. Qed.

Lemma obeys_gets {A} (f : world -> A) : obeys (session_step E) X (gets f).
Proof. intros w r w' [= <- <-]. split; [apply step_refl | discriminate]. Qed.

Lemma obeys_raise {A} e : X e -> obeys (session_step E) X (@raise A e).
Proof.
  intros He w r w' [= <- <-]. split; [apply step_refl|]. intros e' [= <-]. exact He.
Qed.

Lemma obeys_lift {A} (r : result A) :
  (forall e, r = Raise e -> X e) -> obeys (session_step E) X (lift r).
Proof. intros Hr w r' w' [= <- <-]. split; [apply step_refl | exact Hr]. Qed.

Lemma obeys_bind {A B} (c : M A) (k : A -> M B) :
  obeys (session_step E) X c -> (forall a, obeys (session_step E) X (k a)) ->
  obeys (session_step E) X (bind c k).
Proof.
  intros Hc Hk w r w' H. apply bind_inv in H.
  destruct H as [(a & w1 & Ha & H) | (e & Ha & ->)].
  - destruct (Hc _ _ _ Ha) as [Hs _]. destruct (Hk a _ _ _ H) as [Hs' Hx].
    split; [exact (step_trans E _ _ _ Hs Hs') | exact Hx].
  - destruct (Hc _ _ _ Ha) as [Hs Hx]. split; [exact Hs|].
    intros e' [= <-]. apply Hx. reflexivity.
Qed.

Lemma obeys_except_TokenRefreshed {A} (c handler : M A) :
  obeys (session_step E) X c -> obeys (session_step E) X handler ->
  obeys (session_step E) X (except_TokenRefreshed c handler).
Proof.
  intros Hc Hh w r w'. unfold except_TokenRefreshed.
  destruct (c w) as [r1 w1] eqn:H1. destruct (Hc _ _ _ H1) as [Hs Hx].
  assert (Hcase : (r1 = Raise TokenRefreshed) \/ (r1 <> Raise TokenRefreshed)).
  { destruct r1 as [a|e]; [right; discriminate|].
    destruct e; try (right; discriminate). left. reflexivity. }
  destruct Hcase as [-> | Hn].
  - intros H. destruct (Hh _ _ _ H) as [Hs' Hx'].
    split; [exact (step_trans E _ _ _ Hs Hs') | exact Hx'].
  - intros H.
    assert (Heq : (r1, w1) = (r, w')).
    { destruct r1 as [a|e]; [exact H|]. destruct e; try exact H. congruence. }
    injection Heq as <- <-. split; [exact Hs | exact Hx].
Qed.

Lemma obeys_except_Exception {A} (c : M A) (handler : exn -> M A) :
  obeys (session_step E) is_exception c ->
  (forall e, obeys (session_step E) X (handler e)) ->
  obeys (session_step E) X (except_Exception c handler).
Proof.
  intros Hc Hh w r w'. unfold except_Exception.
  destruct (c w) as [r1 w1] eqn:H1. destruct (Hc _ _ _ H1) as [Hs Hx].
  destruct r1 as [a|e].
  - intros [= <- <-]. split; [exact Hs | discriminate].
  - assert (He : is_exception e) by (apply Hx; reflexivity).
    intros H.
    assert (Hrun : handler e w1 = (r, w')).
    { destruct e; try exact H. exfalso. exact (He status eq_refl). }
    destruct (Hh e _ _ _ Hrun) as [Hs' Hx'].
    split; [exact (step_trans E _ _ _ Hs Hs') | exact Hx'].
Qed.

Lemma obeys_weaken {A} (c : M A) :
  obeys (session_step E) (fun _ => False) c -> obeys (session_step E) X c.
Proof.
  intros Hc w r w' H. destruct (Hc _ _ _ H) as [Hs Hx]. split; [exact Hs|].
  intros e He. destruct (Hx e He).
Qed.

End Obeying.

Ltac plain_exception :=
  let e := fresh "e" in let H := fresh "H" in let n := fresh "n" in
  intros e H n; first [ injection H as <-; discriminate | discriminate H ].

Lemma index_exceptions d k : raises_exceptions (Py.index d k).
Proof.
  destruct d; simpl; try plain_exception.
  destruct (Py.dict_get k fields); plain_exception.
Qed.

Lemma get_exceptions d k dflt : raises_exceptions (Py.get d k dflt).
Proof. destruct d; simpl; plain_exception. Qed.

Lemma iter_exceptions d : raises_exceptions (Py.iter d).
Proof. destruct d; simpl; plain_exception. Qed.

Lemma resp_json_exceptions resp : raises_exceptions (resp_json resp).
Proof. unfold resp_json. destruct (body resp); plain_exception. Qed.

Lemma rbind_exceptions {A B} (r : result A) (k : A -> result B) :
  raises_exceptions r -> (forall a, raises_exceptions (k a)) ->
  raises_exceptions (rbind r k).
Proof.
  intros Hr Hk. destruct r as [a|e]; simpl; [apply Hk|].
  intros e' [= <-]. exact (Hr e eq_refl).
Qed.

Lemma ok_exceptions {A} (a : A) : raises_exceptions (Ok a).
Proof. plain_exception. Qed.

Lemma name_uri_exceptions U nickname mac : raises_exceptions (_name_uri U nickname mac).
Proof. unfold _name_uri. destruct (Py.or_ nickname mac); plain_exception. Qed.

Lemma camera_of_exceptions E dev : raises_exceptions (camera_of E dev).
Proof.
  unfold camera_of, model_label, in_set.
  repeat first
    [ apply ok_exceptions
    | apply rbind_exceptions; [ | intro ]
    | apply get_exceptions | apply name_uri_exceptions
    | match goal with
      | |- raises_exceptions (if ?b then _ else _) => destruct b
      end
    | plain_exception ].
Qed.

Lemma cameras_of_exceptions E devs : raises_exceptions (cameras_of E devs).
Proof.
  induction devs as [|dev devs IH]; simpl; [apply ok_exceptions|].
  apply rbind_exceptions; [apply camera_of_exceptions | intro cam].
  apply rbind_exceptions; [exact IH | intro; apply ok_exceptions].
Qed.

Lemma cameras_from_exceptions E data : raises_exceptions (cameras_from E data).
Proof.
  unfold cameras_from.
  apply rbind_exceptions; [apply get_exceptions | intro].
  apply rbind_exceptions; [apply iter_exceptions | intro].
  apply cameras_of_exceptions.
Qed.

Lemma scan_exceptions slug cams : raises_exceptions (scan_cameras slug cams).
Proof.
  induction cams as [|cam cams IH]; simpl; [apply ok_exceptions|].
  apply rbind_exceptions; [apply index_exceptions | intro v].
  destruct (Py.eq_str v slug); [apply ok_exceptions | exact IH].
Qed.

Lemma normalize_server_exceptions U s : raises_exceptions (normalize_server U s).
Proof.
  unfold normalize_server. destruct s; try plain_exception.
  - destruct (existsb _ items); plain_exception.
  - match goal with
    | |- raises_exceptions (match ?v with _ => _ end) => destruct v
    end; try plain_exception.
    destruct (match_relay U s); plain_exception.
Qed.

Lemma normalize_servers_exceptions E items : raises_exceptions (normalize_servers E items).
Proof.
  induction items as [|s items IH]; simpl; [apply ok_exceptions|].
  apply rbind_exceptions; [apply normalize_server_exceptions | intro].
  apply rbind_exceptions; [exact IH | intro; apply ok_exceptions].
Qed.

Lemma unquote_exceptions E v : raises_exceptions (unquote_value E v).
Proof.
  unfold unquote_value. destruct v; try plain_exception;
    match goal with
    | |- raises_exceptions (if ?b then _ else _) => destruct b
    end; plain_exception.
Qed.

Lemma lacks_thumbnail_exceptions cam : raises_exceptions (lacks_thumbnail cam).
Proof.
  unfold lacks_thumbnail. destruct (negb (Py.truthy cam)); [apply ok_exceptions|].
  apply rbind_exceptions; [apply get_exceptions | intro; apply ok_exceptions].
Qed.

Lemma hash_password_exceptions U p : raises_exceptions (_hash_password U p).
Proof.
  unfold _hash_password. destruct (marked_value U _ _); [apply ok_exceptions|].
  simpl. repeat (destruct (PyStr.encode_ascii _); [|plain_exception]).
  apply ok_exceptions.
Qed.

Create HintDb pure_exc.
#[local] Hint Resolve index_exceptions get_exceptions iter_exceptions
  resp_json_exceptions cameras_of_exceptions cameras_from_exceptions
  scan_exceptions normalize_servers_exceptions unquote_exceptions
  lacks_thumbnail_exceptions hash_password_exceptions ok_exceptions : pure_exc.

Lemma obeys_lift_exception {A} (E : env) (r : result A) :
  raises_exceptions r -> obeys (session_step E) is_exception (lift r).
Proof. intros H. apply obeys_lift. exact H. Qed.

Create HintDb obey.

Ltac obey_step :=
  first
    [ apply obeys_ret | apply obeys_gets
    | apply obeys_raise; intro; discriminate
    | apply obeys_lift_exception; solve [auto with pure_exc]
    | assumption
    | solve [auto with obey]
    | apply obeys_bind; [ | intro ]
    | apply obeys_except_TokenRefreshed
    | apply obeys_except_Exception; [ | intro ]
    | match goal with
      | |- obeys _ _ (if ?b then _ else _) => destruct b
      | |- obeys _ _ (match ?x with _ => _ end) => destruct x
      end ].

Ltac obey := cbv zeta; repeat (obey_step; cbv zeta).

Section Serving.
Variable E : env.

Lemma obeys_time_time : obeys (session_step E) is_exception (time_time E).
Proof.
  intros w r w' [= <- <-]. split; [apply step_tick | discriminate].
Qed.

Lemma obeys_send rq : obeys (session_step E) is_exception (requests_send E rq).
Proof.
  intros w r w'. rewrite send_run. intros [= <- <-]. split; [apply step_log|].
  intros e He n. destruct (vendor E (sent w) rq); [|discriminate He].
  injection He as <-. discriminate.
Qed.

Lemma obeys_save : obeys (session_step E) is_exception (_save_tokens E).
Proof.
  intros w r w' H. pose proof (step_save E w) as Hs. rewrite H in Hs.
  split; [exact Hs|].
  destruct (save_run E w) as [[Hr _] | (f & Hr & _)]; rewrite Hr in H;
    injection H as <- _; intros e [= <-]; discriminate.
Qed.

Lemma obeys_stamp ts : obeys (session_step E) is_exception (modify (set_cameras_ts ts)).
Proof. intros w r w' [= <- <-]. split; [apply step_stamp | discriminate]. Qed.

#[local] Hint Resolve obeys_time_time obeys_send obeys_save obeys_stamp : obey.

Lemma obeys_payload endpoint : obeys (session_step E) is_exception (_payload E endpoint).
Proof. unfold _payload. obey. Qed.

#[local] Hint Resolve obeys_payload : obey.

Lemma raised_as {A B} (P : Prop) (X : exn -> Prop) e :
  P /\ (forall e0, @Raise A e = Raise e0 -> X e0) ->
  P /\ (forall e0, @Raise B e = Raise e0 -> X e0).
Proof. intros [HP HX]. split; [exact HP|]. intros e0 [= <-]. exact (HX e eq_refl). Qed.

Lemma refresh_tail_step data w r w' :
  (exists v, Py.index (creds w) (u "access_token") = Ok v) ->
  (exists v, Py.index (creds w) (u "refresh_token") = Ok v) ->
  bind (get_or data (u "access_token")
          (bind (gets creds) (fun c => lift (Py.index c (u "access_token")))))
    (fun a => bind (creds_setitem (u "access_token") a) (fun _ =>
       bind (get_or data (u "refresh_token")
               (bind (gets creds) (fun c => lift (Py.index c (u "refresh_token")))))
         (fun r => bind (creds_setitem (u "refresh_token") r) (fun _ =>
            _save_tokens E)))) w = (r, w') ->
  session_step E w w' /\ forall e, r = Raise e -> is_exception e.
Proof.
  intros [a0 Ha] [r0 Hr].
  destruct (creds w) as [| | | | |kv] eqn:Hc; try discriminate Ha.
  cbn [Py.index] in Ha, Hr.
  destruct (Py.dict_get (u "access_token") kv) as [a1|] eqn:Hga; [|discriminate Ha].
  destruct (Py.dict_get (u "refresh_token") kv) as [r1|] eqn:Hgr; [|discriminate Hr].
  assert (Hne : u "access_token" <> u "refresh_token") by discriminate.
  destruct data as [| | | | |fields];
    try (unfold get_or, bind, raise; cbv beta iota; intros [= <- <-];
         split; [apply step_refl | intros e [= <-] ?; discriminate]).
  unfold get_or, bind, gets, lift, ret, creds_setitem.
  repeat (progress (cbn [creds set_creds Py.index];
                    rewrite ?Hc, ?Hga, ?(dict_get_set_other _ _ _ _ Hne), ?Hgr)).
  intros H.
  match type of H with
  | _save_tokens E ?w0 = _ =>
      assert (Hs : session_step E w (snd (_save_tokens E w0)))
        by exact (step_tokens E w kv _ _ Hc);
      rewrite H in Hs;
      destruct (save_run E w0) as [[Hrun _] | (f & Hrun & _)]; rewrite Hrun in H
  end; (split; [exact Hs|]); injection H as <- _; intros e [= <-]; discriminate.
Qed.

Lemma obeys_refresh_with (validate : response -> M json) :
  (forall resp, obeys (session_step E) is_exception (validate resp)) ->
  obeys (session_step E) is_exception (refresh_token_with E validate).
Proof.
  intros Hv w r w' H. unfold refresh_token_with in H.
  apply bind_inv in H.
  destruct H as [(payload & w1 & Hp & H) | (e & Hp & ->)];
    [|exact (raised_as _ _ _ (obeys_payload _ _ _ _ Hp))].
  destruct (obeys_payload _ _ _ _ Hp) as [Hs1 _].
  destruct (payload_ok_inv E _ _ _ _ Hp) as (kv & tok & pid & Hkv & Hga & _).
  assert (Hacc : Py.index (creds w) (u "access_token") = Ok tok).
  { rewrite Hkv. cbn [Py.index]. rewrite Hga. reflexivity. }
  apply bind_inv in H.
  destruct H as [(c & w1' & Hg & H) | (e & Hg & _)]; [|discriminate Hg].
  unfold gets in Hg. injection Hg as <- <-.
  apply bind_inv in H.
  destruct H as [(rt & w1' & Hi & H) | (e & Hi & ->)];
    unfold lift in Hi; injection Hi as Hi <-.
  2:{ split; [exact Hs1|]. intros e' [= <-]. exact (index_exceptions _ _ _ Hi). }
  cbv zeta in H. apply bind_inv in H. unfold requests_post in H.
  destruct H as [(resp & w2 & Hsend & H) | (e & Hsend & ->)];
    destruct (obeys_send _ _ _ _ Hsend) as [Hs2 Hx2].
  2:{ split; [exact (step_trans E _ _ _ Hs1 Hs2)|]. intros e' [= <-]. exact (Hx2 e eq_refl). }
  apply bind_inv in H.
  destruct H as [(data & w3 & Hval & H) | (e & Hval & ->)];
    destruct (Hv resp _ _ _ Hval) as [Hs3 Hx3].
  2:{ split; [exact (step_trans E _ _ _ Hs1 (step_trans E _ _ _ Hs2 Hs3))|].
      intros e' [= <-]. exact (Hx3 e eq_refl). }
  pose proof (step_trans E _ _ _ Hs2 Hs3) as Hs13.
  pose proof (step_trans E _ _ _ Hs1 Hs13) as Hs03.
  destruct (refresh_tail_step data w3 r w') as [Hs4 Hx4].
  - exact (proj1 (proj2 Hs03) _ _ Hacc).
  - exact (proj1 (proj2 Hs13) _ _ Hi).
  - exact H.
  - split; [exact (step_trans E _ _ _ Hs03 Hs4) | exact Hx4].
Qed.

Lemma obeys_validate depth resp :
  obeys (session_step E) is_exception (_validate E depth resp).
Proof.
  revert resp. induction depth as [|d IH]; intros resp.
  - simpl. obey.
  - cbn [_validate]. pose proof (obeys_refresh_with _ IH). obey.
Qed.

#[local] Hint Resolve obeys_validate : obey.

Lemma obeys_listing depth :
  obeys (session_step E) is_exception (listing_with_retry E depth).
Proof. unfold listing_with_retry, post_object_list, requests_post. obey. Qed.

Lemma obeys_fetch_cameras depth :
  obeys (session_step E) is_exception (fetch_cameras E depth).
Proof.
  intros w r w'. rewrite fetch_cameras_unfold.
  destruct (negb (Py.truthy (creds w))).
  { intros [= <- <-]. split; [apply step_refl | discriminate]. }
  cbv zeta. destruct (cache_fresh _ w).
  { intros [= <- <-]. split; [apply step_tick | discriminate]. }
  destruct (listing_with_retry E depth (tick_clock w)) as [[data|e] w2] eqn:Hl;
    destruct (obeys_listing depth _ _ _ Hl) as [Hs Hx];
    pose proof (step_trans E _ _ _ (step_tick E w) Hs) as Hs2.
  - destruct (cameras_from E data) as [cams|e] eqn:Hc; intros [= <- <-].
    + split; [|discriminate].
      apply (step_trans E _ _ _ Hs2). apply step_cache.
      unfold cameras_from in Hc.
      destruct (Py.get data (u "device_list") (JArr [])) as [dl|]; [|discriminate].
      cbn [rbind] in Hc. destruct (Py.iter dl) as [devs|]; [|discriminate].
      cbn [rbind] in Hc. exact (cameras_of_entries E devs cams Hc).
    + split; [exact Hs2|]. intros e' [= <-].
      exact (cameras_from_exceptions E data e Hc).
  - intros [= <- <-]. split; [exact Hs2|]. intros e' [= <-]. apply Hx. reflexivity.
Qed.

#[local] Hint Resolve obeys_fetch_cameras : obey.

Lemma obeys_run_action depth mac model action :
  obeys (session_step E) is_exception (run_action E depth mac model action).
Proof. unfold run_action, requests_post. obey. Qed.

Lemma obeys_set_property depth mac model pid pvalue :
  obeys (session_step E) is_exception (set_property E depth mac model pid pvalue).
Proof. unfold set_property, requests_post. obey. Qed.

Lemma obeys_get_device_info depth mac model :
  obeys (session_step E) is_exception (get_device_info E depth mac model).
Proof. unfold get_device_info, requests_post. obey. Qed.

Lemma obeys_signaling depth mac :
  obeys (session_step E) is_exception (get_webrtc_signaling E depth mac).
Proof. unfold get_webrtc_signaling, bearer, requests_get. obey. Qed.

#[local] Hint Resolve obeys_run_action obeys_set_property obeys_get_device_info
  obeys_signaling : obey.

Lemma obeys_find_camera depth slug :
  obeys (session_step E) is_exception (_find_camera E depth slug).
Proof. unfold _find_camera. obey. Qed.

#[local] Hint Resolve obeys_find_camera : obey.

Lemma obeys_proxy_thumbnail cam :
  obeys (session_step E) is_exception (proxy_thumbnail E cam).
Proof. unfold proxy_thumbnail, requests_get. obey. Qed.

#[local] Hint Resolve obeys_proxy_thumbnail : obey.

Lemma obeys_handle depth v : obeys (session_step E) is_exception (handle E depth v).
Proof.
  destruct v; cbn [handle];
    unfold api_cameras, api_camera_detail, api_camera_info, api_camera_action,
      api_refresh, api_signaling, api_thumbnail, health;
    obey.
Qed.

End Serving.

#[local] Hint Resolve obeys_time_time obeys_send obeys_save obeys_stamp obeys_payload
  obeys_validate obeys_fetch_cameras obeys_run_action obeys_set_property
  obeys_get_device_info obeys_signaling obeys_find_camera obeys_proxy_thumbnail : obey.

(** X8.  Whatever views are served, in whatever order and with whatever
    answers from outside: the credential keeps every field other than the
    two tokens (the client device id among them), loses no field and stays
    truthy; a cache of well-formed records stays one; no UUID is drawn;
    nothing is printed; and the requests already sent stay at the head of
    the trace.  A token file that holds the credential still holds it
    after, unless one of the writes of the file made in between failed:
    a refresh assigns the two tokens before it writes, so after a failed
    write the credential of the process is ahead of the file. *)
Theorem serving_keeps_session (E : env) (depth : nat) (views : list view) (w : world) :
  session_step E w (serve_all E depth views w).
Proof.
  revert w. induction views as [|v views IH]; intros w; simpl.
  - apply step_refl.
  - destruct (handle E depth v w) as [r w1] eqn:Hv.
    destruct (obeys_handle E depth v _ _ _ Hv) as [Hs _].
    exact (step_trans E _ _ _ Hs (IH w1)).
Qed.

(** A write that fails during a refresh: the process holds the new
    tokens, the file still the old ones. *)
Example serving_write_fails_file_behind :
  let E := scripted_on
             [ expired_reply;
               accepted_reply (JObj [ (u "access_token", JStr (u "at-1"));
                                      (u "refresh_token", JStr (u "rt-1")) ]) ]
             (fun _ => WriteFails None) in
  let w := logged_in sample_creds in
  let w' := serve_all E 3 [ViewRefresh] w in
  saved w
  /\ fst (handle E 3 ViewRefresh w) = Raise OSError
  /\ Py.index (creds w') (u "access_token") = Ok (JStr (u "at-1"))
  /\ token_file w' = FileHolds sample_creds
  /\ write_failed E w w'.
Proof.
  cbv zeta. split; [reflexivity|]. split; [vm_compute; reflexivity|].
  split; [vm_compute; reflexivity|]. split; [vm_compute; reflexivity|].
  exists 0%nat. split; [vm_compute; lia | discriminate].
Qed.

(** An expired call whose refresh is accepted but not written: the call
    ends with the error of the write and is not sent again. *)
Example expired_call_write_fails_not_retried :
  let E := scripted_on
             [ expired_reply;
               accepted_reply (JObj [ (u "access_token", JStr (u "at-1"));
                                      (u "refresh_token", JStr (u "rt-1")) ]);
               accepted_reply (JObj []) ]
             (fun _ => WriteFails None) in
  let run := issue E 3 (GetDeviceInfo (JStr (u "AB:12")) (JStr (u "HL_PAN3")))
               (logged_in sample_creds) in
  fst run = Raise OSError
  /\ map is_refresh (sent (snd run)) = [false; true].
Proof. cbv zeta. split; vm_compute; reflexivity. Qed.

Section Answering.
Variable E : env.

Lemma fetch_result_entries depth w cams w1 :
  cache_ok w -> fetch_cameras E depth w = (Ok cams, w1) -> Forall cache_entry cams.
Proof.
  intros Hok. rewrite fetch_cameras_unfold.
  destruct (negb (Py.truthy (creds w))); [intros [= <- _]; constructor|].
  cbv zeta. destruct (cache_fresh _ w); [intros [= <- _]; exact Hok|].
  destruct (listing_with_retry E depth (tick_clock w)) as [[data|e] w2];
    [|discriminate].
  destruct (cameras_from E data) as [cs|] eqn:Hc; [|discriminate].
  intros [= <- _]. unfold cameras_from in Hc.
  destruct (Py.get data (u "device_list") (JArr [])) as [dl|]; [|discriminate].
  cbn [rbind] in Hc. destruct (Py.iter dl) as [devs|]; [|discriminate].
  cbn [rbind] in Hc. exact (cameras_of_entries E devs cs Hc).
Qed.

Lemma find_camera_after_list depth slug w cams w1 :
  cache_ok w -> fetch_cameras E depth w = (Ok cams, w1) ->
  exists cam, _find_camera E depth slug w = (Ok cam, w1).
Proof.
  intros Hok Hf. unfold _find_camera. rewrite (bind_ok _ _ _ _ _ Hf). unfold lift.
  destruct (scan_total slug cams (fetch_result_entries _ _ _ _ Hok Hf)) as [cam ->].
  eauto.
Qed.

Lemma never_raising {A} (c : M A) w :
  obeys (session_step E) (fun _ => False) c -> exists a w', c w = (Ok a, w').
Proof.
  intros Hc. destruct (c w) as [[a|e] w'] eqn:Hrun; [eauto|].
  destruct (Hc _ _ _ Hrun) as [_ Hx]. destruct (Hx e eq_refl).
Qed.

Lemma caught {A} (c : M A) (f : exn -> A) :
  obeys (session_step E) is_exception c ->
  obeys (session_step E) (fun _ => False) (except_Exception c (fun e => ret (f e))).
Proof. intros Hc. apply obeys_except_Exception; [exact Hc | intro; apply obeys_ret]. Qed.

End Answering.

(** X9.  Over a well-formed cache, the views that list or look a device
    up answer whenever [list()] returns: found or not, and whatever the
    vendor call that follows does, they return a response and raise
    nothing. *)
Theorem lookup_views_answer (E : env) (depth : nat) (v : view)
    (w w1 : world) (cams : list json) :
  lookup_view v ->
  cache_ok w ->
  fetch_cameras E depth w = (Ok cams, w1) ->
  exists response w', handle E depth v w = (Ok response, w').
Proof.
  intros Hv Hok Hf.
  destruct v as [|slug|slug|slug action value| |slug| |]; try destruct Hv; cbn [handle].
  - unfold api_cameras. rewrite (bind_ok _ _ _ _ _ Hf). unfold ret. eauto.
  - destruct (find_camera_after_list E depth slug w cams w1 Hok Hf) as [cam Hc].
    unfold api_camera_detail. rewrite (bind_ok _ _ _ _ _ Hc).
    destruct (negb (Py.truthy cam)); unfold ret; eauto.
  - destruct (find_camera_after_list E depth slug w cams w1 Hok Hf) as [cam Hc].
    unfold api_camera_info. rewrite (bind_ok _ _ _ _ _ Hc).
    destruct (negb (Py.truthy cam)); [unfold ret; eauto|].
    apply (never_raising E).
    apply (caught E _ (fun e => JsonifyError 500 e [])). obey.
  - destruct (find_camera_after_list E depth slug w cams w1 Hok Hf) as [cam Hc].
    unfold api_camera_action. rewrite (bind_ok _ _ _ _ _ Hc).
    destruct (negb (Py.truthy cam)); [unfold ret; eauto|].
    destruct (Py.dict_get action (PROP_MAP)); cbv zeta; apply (never_raising E);
      apply (caught E _ (fun e => JsonifyError 500 e [])); obey.
  - destruct (find_camera_after_list E depth slug w cams w1 Hok Hf) as [cam Hc].
    unfold api_signaling. rewrite (bind_ok _ _ _ _ _ Hc).
    destruct (negb (Py.truthy cam)); [unfold ret; eauto|].
    apply (never_raising E).
    apply (caught E _ (fun e => JsonifyError 500 e
                                [ (u "result", JStr (u "error")); (u "cam", JStr slug) ])).
    obey.
Qed.

Lemma lookup_views_answer_witness :
  exists response w',
    handle (scripted []) 3 (ViewCameraInfo (u "front-door"))
      (set_cache [sample_camera] (inject_Z 900) (logged_in sample_creds))
    = (Ok response, w').
Proof.
  apply (lookup_views_answer (scripted []) 3 (ViewCameraInfo (u "front-door"))
           (set_cache [sample_camera] (inject_Z 900) (logged_in sample_creds))
           (tick_clock (set_cache [sample_camera] (inject_Z 900) (logged_in sample_creds)))
           [sample_camera] I).
  - repeat constructor.
    exists (JStr (u "AB:12")), (JStr (u "Front Door!")), (u "front-door"),
      (JStr (u "HL_PAN3")), (JStr (u "Pan V3")), JNull, JNull, JNull,
      true, false, true. repeat split.
  - vm_compute. reflexivity.
Defined.

(** ** How many requests a call makes *)

Lemma within_same a b w w' : sent w' = sent w -> within a b w w'.
Proof.
  intros H. exists []. rewrite app_nil_r. split; [exact H|].
  split; apply Nat.le_0_l.
Qed.

Lemma within_add a b a' b' w1 w2 w3 :
  within a b w1 w2 -> within a' b' w2 w3 -> within (a + a') (b + b') w1 w3.
Proof.
  intros (n1 & H1 & Ha & Hb) (n2 & H2 & Ha' & Hb'). exists (n1 ++ n2).
  split; [rewrite H2, H1, app_assoc; reflexivity|].
  unfold own_requests, refresh_requests in *.
  rewrite !filter_app, !length_app. split; lia.
Qed.

Lemma within_le a b a' b' w w' :
  (a <= a')%nat -> (b <= b')%nat -> within a b w w' -> within a' b' w w'.
Proof. intros Ha Hb (n & H & Hn & Hm). exists n. split; [exact H|]. split; lia. Qed.

Section Counting.
Variable E : env.

Lemma sends_quiet {A} (c : M A) a b :
  (forall w r w', c w = (r, w') -> sent w' = sent w) -> sends a b c.
Proof. intros H w r w' Hrun. split; [|auto]. apply within_same. exact (H _ _ _ Hrun). Qed.

Lemma sends_ret {A} (x : A) a b : sends a b (ret x).
Proof. apply sends_quiet. intros w r w' [= _ <-]. reflexivity. Qed.

Lemma sends_gets {A} (f : world -> A) a b : sends a b (gets f).
Proof. apply sends_quiet. intros w r w' [= _ <-]. reflexivity. Qed.

Lemma sends_raise {A} e a b : sends a b (@raise A e).
Proof. apply sends_quiet. intros w r w' [= _ <-]. reflexivity. Qed.

Lemma sends_lift {A} (x : result A) a b : sends a b (lift x).
Proof. apply sends_quiet. intros w r w' [= _ <-]. reflexivity. Qed.

Lemma sends_time a b : sends a b (time_time E).
Proof. apply sends_quiet. intros w r w' [= _ <-]. reflexivity. Qed.

Lemma sends_save a b : sends a b (_save_tokens E).
Proof.
  apply sends_quiet. intros w r w' H. pose proof (save_sent E w) as Hs.
  rewrite H in Hs. exact Hs.
Qed.

Lemma sends_setitem k v a b : sends a b (creds_setitem k v).
Proof.
  apply sends_quiet. intros w r w'. unfold creds_setitem.
  destruct (creds w); intros [= _ <-]; reflexivity.
Qed.

Lemma sends_cache cams ts a b : sends a b (modify (set_cache cams ts)).
Proof. apply sends_quiet. intros w r w' [= _ <-]. reflexivity. Qed.

Lemma sends_stamp ts a b : sends a b (modify (set_cameras_ts ts)).
Proof. apply sends_quiet. intros w r w' [= _ <-]. reflexivity. Qed.

Lemma sends_le {A} (c : M A) a b a' b' :
  (a <= a')%nat -> (b <= b')%nat -> sends a b c -> sends a' b' c.
Proof.
  intros Ha Hb Hc w r w' Hrun. split; [|auto].
  exact (within_le _ _ _ _ _ _ Ha Hb (proj1 (Hc _ _ _ Hrun))).
Qed.

Lemma sends_bind {A B} (c : M A) (k : A -> M B) a b a' b' :
  sends a b c -> (forall x, sends a' b' (k x)) -> sends (a + a') (b + b') (bind c k).
Proof.
  intros Hc Hk w r w' H. split; [|auto]. apply bind_inv in H.
  destruct H as [(x & w1 & Hx & H) | (e & Hx & _)].
  - exact (within_add _ _ _ _ _ _ _ (proj1 (Hc _ _ _ Hx)) (proj1 (Hk x _ _ _ H))).
  - apply (within_le a b); [lia | lia | exact (proj1 (Hc _ _ _ Hx))].
Qed.

Lemma sends_after_quiet {A B} (c : M A) (k : A -> M B) a b :
  sends 0 0 c -> (forall x, sends a b (k x)) -> sends a b (bind c k).
Proof. intros Hc Hk. exact (sends_bind c k 0 0 a b Hc Hk). Qed.

Lemma sends_then_quiet {A B} (c : M A) (k : A -> M B) a b :
  sends a b c -> (forall x, sends 0 0 (k x)) -> sends a b (bind c k).
Proof.
  intros Hc Hk. apply (sends_le _ (a + 0) (b + 0)); [lia | lia|].
  exact (sends_bind c k a b 0 0 Hc Hk).
Qed.

Lemma sends_request rq :
  sends (if is_refresh rq then 0 else 1) (if is_refresh rq then 1 else 0)
    (requests_send E rq).
Proof.
  intros w r w'. rewrite send_run. intros [= _ <-]. split; [|auto].
  exists [rq]. split; [reflexivity|].
  unfold own_requests, refresh_requests. cbn [filter].
  destruct (is_refresh rq); cbn [negb List.length]; split; lia.
Qed.

Lemma sends_own {B} rq (k : response -> M B) a b :
  is_refresh rq = false -> (forall resp, sends a b (k resp)) ->
  sends (S a) b (bind (requests_send E rq) k).
Proof.
  intros Hrq Hk. pose proof (sends_request rq) as Hs. rewrite Hrq in Hs.
  exact (sends_bind _ k 1 0 a b Hs Hk).
Qed.

Lemma sends_refresh {B} rq (k : response -> M B) a b :
  is_refresh rq = true -> (forall resp, sends a b (k resp)) ->
  sends a (S b) (bind (requests_send E rq) k).
Proof.
  intros Hrq Hk. pose proof (sends_request rq) as Hs. rewrite Hrq in Hs.
  exact (sends_bind _ k 0 1 a b Hs Hk).
Qed.

Lemma sends_except {A} (c handler : M A) a b a' b' :
  sends a b c -> sends a' b' handler ->
  sends (a + a') (b + b') (except_TokenRefreshed c handler).
Proof.
  intros Hc Hh w r w'. unfold except_TokenRefreshed.
  destruct (c w) as [r1 w1] eqn:H1. pose proof (proj1 (Hc _ _ _ H1)) as Hs.
  assert (Hcase : (r1 = Raise TokenRefreshed) \/ (r1, w1) =
                    match r1 with Raise TokenRefreshed => handler w1 | _ => (r1, w1) end).
  { destruct r1 as [x|e]; [right; reflexivity|].
    destruct e; try (right; reflexivity). left. reflexivity. }
  destruct Hcase as [-> | Heq].
  - intros H. split; [|auto].
    exact (within_add _ _ _ _ _ _ _ Hs (proj1 (Hh _ _ _ H))).
  - intros H. split; [|auto].
    assert (Hw : w1 = w').
    { destruct r1 as [x|e]; [congruence|]. destruct e; congruence. }
    subst w'. apply (within_le a b); [lia | lia | exact Hs].
Qed.

End Counting.

Ltac quiet_step E :=
  first
    [ apply sends_ret | apply sends_gets | apply sends_raise | apply sends_lift
    | apply (sends_time E) | apply (sends_save E) | apply sends_setitem
    | apply sends_cache | apply sends_stamp
    | assumption
    | apply sends_after_quiet; [ solve [ repeat (quiet_step E) ] | intro ]
    | match goal with
      | |- sends _ _ (if ?b then _ else _) => destruct b
      | |- sends _ _ (match ?x with _ => _ end) => destruct x
      end ].

Ltac quiet E := cbv zeta; repeat (quiet_step E; cbv zeta).

Section CountingCalls.
Variable E : env.

Lemma sends_payload endpoint a b : sends a b (_payload E endpoint).
Proof. unfold _payload. quiet E. Qed.

Lemma sends_get_or d k (default : M json) a b :
  sends 0 0 default -> sends a b (get_or d k default).
Proof. intros Hd. unfold get_or. quiet E. Qed.

Lemma sends_validate depth : forall resp a, sends a depth (_validate E depth resp).
Proof.
  induction depth as [|d IH]; intros resp a; [simpl; quiet E|].
  cbn [_validate]. quiet E.
  apply sends_then_quiet; [|intro; quiet E].
  unfold refresh_token_with.
  apply sends_after_quiet; [apply sends_payload | intro].
  quiet E. unfold requests_post.
  apply sends_refresh; [apply pystr_eqb_refl | intro].
  apply sends_then_quiet; [apply IH | intro].
  apply sends_after_quiet; [apply sends_get_or; quiet E | intro].
  apply sends_after_quiet; [apply sends_setitem | intros _].
  apply sends_after_quiet; [apply sends_get_or; quiet E | intro].
  quiet E.
Qed.

Lemma sends_attempt {B} depth rq (k : json -> M B) :
  is_refresh rq = false -> (forall x, sends 0 0 (k x)) ->
  sends 1 depth (bind (bind (requests_send E rq) (_validate E depth)) k).
Proof.
  intros Hrq Hk. apply sends_then_quiet; [|exact Hk].
  apply sends_own; [exact Hrq | intro; apply sends_validate].
Qed.

Lemma sends_twice {A} depth (c h : M A) :
  sends 1 depth c -> sends 1 depth h ->
  sends 2 (2 * depth) (except_TokenRefreshed c h).
Proof.
  intros Hc Hh. apply (sends_le _ (1 + 1) (depth + depth)); [lia | lia|].
  apply sends_except; assumption.
Qed.

Lemma sends_issue depth call : sends 2 (2 * depth) (issue E depth call).
Proof.
  destruct call; cbn [issue]; (apply sends_then_quiet; [|intro; quiet E]).
  - unfold fetch_cameras. quiet E.
    apply sends_then_quiet; [|intro; quiet E].
    apply sends_twice; unfold post_object_list, requests_post;
      (apply sends_after_quiet; [apply sends_payload | intro]);
      (apply sends_own; [reflexivity | intro; apply sends_validate]).
  - unfold run_action, requests_post.
    apply sends_after_quiet; [apply sends_payload | intro]. cbv zeta.
    apply sends_twice;
      [|apply sends_after_quiet; [apply sends_payload | intro]; cbv zeta];
      (apply sends_own; [reflexivity | intro; apply sends_validate]).
  - unfold set_property, requests_post. cbv zeta.
    apply sends_after_quiet; [apply sends_payload | intro]. cbv zeta.
    apply sends_twice;
      [|apply sends_after_quiet; [apply sends_payload | intro]; cbv zeta];
      (apply sends_own; [reflexivity | intro; apply sends_validate]).
  - unfold get_device_info, requests_post. cbv zeta.
    apply sends_after_quiet; [apply sends_payload | intro]. cbv zeta.
    apply sends_twice;
      [|apply sends_after_quiet; [apply sends_payload | intro]; cbv zeta];
      (apply sends_own; [reflexivity | intro; apply sends_validate]).
  - unfold get_webrtc_signaling, bearer, requests_get. cbv zeta.
    apply sends_after_quiet; [quiet E | intro]. cbv zeta.
    apply sends_then_quiet; [|intro; quiet E].
    apply sends_twice;
      [|apply sends_after_quiet; [quiet E | intro]; cbv zeta];
      (apply sends_own; [reflexivity | intro; apply sends_validate]).
Qed.

End CountingCalls.

(** X10.  Whatever the outside answers, an authenticated vendor call
    (device listing, run_action, set_property, get_device_info or
    signaling) sends its own request at most twice; every other request
    it sends is a token refresh, at most one per nested [_validate] that
    the interpreter allows, for each of the two issues. *)
Theorem call_issued_at_most_twice (E : env) (depth : nat) (call : vendor_call)
    (w : world) :
  within 2 (2 * depth) w (snd (issue E depth call w)).
Proof.
  destruct (issue E depth call w) as [r w'] eqn:Hrun.
  exact (proj1 (sends_issue E depth call _ _ _ Hrun)).
Qed.

(** ** A vendor that keeps answering with the expiry sentinel *)

Section ExpiryLoop.
Variable E : env.
Hypothesis Hexp : always_expired E.
Variables (kv : list (pystr * json)) (tok pid rtok : json).
Hypothesis Ha : Py.dict_get (u "access_token") kv = Some tok.
Hypothesis Hp : Py.dict_get (u "phone_id") kv = Some pid.
Hypothesis Hr : Py.dict_get (u "refresh_token") kv = Some rtok.

Lemma validate_loops depth :
  forall resp w,
    classify resp = Ok Expired -> creds w = JObj kv ->
    exists rs w',
      _validate E depth resp w = (Raise RecursionError, w')
      /\ extends rs w w' /\ creds w' = creds w /\ token_file w' = token_file w
      /\ forallb is_refresh rs = true /\ List.length rs = depth.
Proof.
  induction depth as [|d IH]; intros resp w Hc Hkv.
  - exists [], w. split; [reflexivity|]. split; [apply extends_refl|]. auto.
  - pose (rq := refresh_request (clock E (clock_reads w)) tok pid rtok).
    destruct (Hexp (sent w) rq) as (resp' & Hv & Hc').
    destruct (IH resp' (log_request rq (tick_clock w)) Hc' Hkv)
      as (rs & w' & Hrun & Hext & Hcr & Hf & Hrs & Hlen).
    exists (rq :: rs), w'. split.
    + rewrite validate_unfold, Hc. unfold bind at 1.
      unfold refresh_token_with.
      rewrite (bind_ok _ _ _ _ _ (payload_ok E (u "default") w kv tok pid Hkv Ha Hp)).
      unfold bind at 1, gets at 1. cbn [creds tick_clock]. rewrite Hkv.
      unfold bind at 1, lift at 1. cbn [Py.index]. rewrite Hr.
      unfold requests_post.
      match goal with
      | |- context [requests_send E ?q] => change q with rq
      end.
      unfold bind at 1. rewrite send_run. cbn [sent tick_clock]. rewrite Hv.
      unfold bind at 1. rewrite Hrun. reflexivity.
    + split.
      { apply (extends_trans [rq] rs _ (log_request rq (tick_clock w)) _); [|exact Hext].
        apply (extends_trans [] [rq] _ _ _ (extends_tick w)), extends_log. }
      split; [exact Hcr|]. split; [exact Hf|].
      split; [cbn [forallb]; rewrite Hrs; reflexivity | cbn [List.length]; congruence].
Qed.

Lemma attempt_loops depth rq w :
  creds w = JObj kv ->
  exists rs w',
    attempt E depth rq w = (Raise RecursionError, w')
    /\ extends (rq :: rs) w w' /\ creds w' = creds w /\ token_file w' = token_file w
    /\ forallb is_refresh rs = true /\ List.length rs = depth.
Proof.
  intros Hkv. destruct (Hexp (sent w) rq) as (resp & Hv & Hc).
  destruct (validate_loops depth resp (log_request rq w) Hc Hkv)
    as (rs & w' & Hrun & Hext & Hcr & Hf & Hrs & Hlen).
  exists rs, w'. split.
  - unfold attempt, bind. rewrite send_run, Hv. exact Hrun.
  - split; [exact (extends_trans [rq] rs _ _ _ (extends_log rq w) Hext)|]. auto.
Qed.

Lemma retry_skipped {A} (c h : M A) w w' :
  c w = (Raise RecursionError, w') ->
  except_TokenRefreshed c h w = (Raise RecursionError, w').
Proof. unfold except_TokenRefreshed. intros ->. reflexivity. Qed.

End ExpiryLoop.

(** X11.  The refresh loop has no bound of its own.  When the outside
    answers every request with the expiry sentinel 2001, an authenticated
    vendor call made with a credential that holds an access token, a
    refresh token and a client device id sends the call once, then one
    refresh request per nested [_validate] that the interpreter allows,
    and ends in [RecursionError]; the call is not retried, and the
    credential, the token file and the cache are as before. *)
Theorem expiry_loop_ends_in_recursion_error (E : env) (depth : nat)
    (call : vendor_call) (w : world) (kv : list (pystr * json))
    (tok pid rtok : json) :
  always_expired E ->
  creds w = JObj kv ->
  Py.dict_get (u "access_token") kv = Some tok ->
  Py.dict_get (u "phone_id") kv = Some pid ->
  Py.dict_get (u "refresh_token") kv = Some rtok ->
  due E call w ->
  exists rq rs w',
    issue E depth call w = (Raise RecursionError, w')
    /\ sent w' = sent w ++ rq :: rs
    /\ is_refresh rq = false
    /\ forallb is_refresh rs = true /\ List.length rs = depth
    /\ creds w' = creds w /\ token_file w' = token_file w
    /\ cameras w' = cameras w /\ cameras_ts w' = cameras_ts w.
Proof.
  intros Hexp Hkv Ha Hp Hr Hdue.
  assert (Htr : Py.truthy (creds w) = true).
  { rewrite Hkv. destruct kv; [discriminate | reflexivity]. }
  destruct call as [|mac model action|mac model prop pvalue|mac model|mac].
  - pose (rq := request_of E ListDevices (clock E (clock_reads (tick_clock w))) tok pid).
    destruct (attempt_loops E Hexp kv tok pid rtok Ha Hp Hr depth rq
                (tick_clock (tick_clock w)) Hkv)
      as (rs & w' & Hrun & (Hk & Hts & Hs) & Hcr & Hf & Hrs & Hlen).
    exists rq, rs, w'. split; [|repeat split; assumption].
    cbn [issue]. unfold bind at 1. rewrite fetch_cameras_unfold, Htr.
    cbn [negb]. cbv zeta. cbn [due] in Hdue. rewrite Hdue.
    unfold listing_with_retry.
    rewrite (retry_skipped (post_object_list E depth) _ (tick_clock w) w');
      [reflexivity|].
    unfold post_object_list.
    rewrite (bind_ok _ _ _ _ _
               (payload_ok E (u "default") (tick_clock w) kv tok pid Hkv Ha Hp)).
    exact Hrun.
  - pose (rq := request_of E (RunAction mac model action) (clock E (clock_reads w)) tok pid).
    destruct (attempt_loops E Hexp kv tok pid rtok Ha Hp Hr depth rq (tick_clock w) Hkv)
      as (rs & w' & Hrun & (Hk & Hts & Hs) & Hcr & Hf & Hrs & Hlen).
    exists rq, rs, w'. split; [|repeat split; assumption].
    cbn [issue]. unfold bind at 1. unfold run_action.
    rewrite (bind_ok _ _ _ _ _ (payload_ok E (u "run_action") w kv tok pid Hkv Ha Hp)).
    cbv zeta. unfold requests_post.
    match goal with
    | |- context [except_TokenRefreshed ?f ?h (tick_clock w)] =>
        rewrite (retry_skipped f h (tick_clock w) w' Hrun)
    end. reflexivity.
  - pose (rq := request_of E (SetProperty mac model prop pvalue)
                  (clock E (clock_reads w)) tok pid).
    destruct (attempt_loops E Hexp kv tok pid rtok Ha Hp Hr depth rq (tick_clock w) Hkv)
      as (rs & w' & Hrun & (Hk & Hts & Hs) & Hcr & Hf & Hrs & Hlen).
    exists rq, rs, w'. split; [|repeat split; assumption].
    cbn [issue]. unfold bind at 1. unfold set_property.
    rewrite (bind_ok _ _ _ _ _ (payload_ok E (u "set_device_Info") w kv tok pid Hkv Ha Hp)).
    cbv zeta. unfold requests_post.
    match goal with
    | |- context [except_TokenRefreshed ?f ?h (tick_clock w)] =>
        rewrite (retry_skipped f h (tick_clock w) w' Hrun)
    end. reflexivity.
  - pose (rq := request_of E (GetDeviceInfo mac model) (clock E (clock_reads w)) tok pid).
    destruct (attempt_loops E Hexp kv tok pid rtok Ha Hp Hr depth rq (tick_clock w) Hkv)
      as (rs & w' & Hrun & (Hk & Hts & Hs) & Hcr & Hf & Hrs & Hlen).
    exists rq, rs, w'. split; [|repeat split; assumption].
    cbn [issue]. unfold bind at 1. unfold get_device_info.
    rewrite (bind_ok _ _ _ _ _ (payload_ok E (u "get_device_Info") w kv tok pid Hkv Ha Hp)).
    cbv zeta. unfold requests_post.
    match goal with
    | |- context [except_TokenRefreshed ?f ?h (tick_clock w)] =>
        rewrite (retry_skipped f h (tick_clock w) w' Hrun)
    end. reflexivity.
  - pose (rq := request_of E (Signaling mac) (clock E (clock_reads w)) tok pid).
    destruct (attempt_loops E Hexp kv tok pid rtok Ha Hp Hr depth rq w Hkv)
      as (rs & w' & Hrun & (Hk & Hts & Hs) & Hcr & Hf & Hrs & Hlen).
    exists rq, rs, w'. split; [|repeat split; assumption].
    cbn [issue]. unfold bind at 1. unfold get_webrtc_signaling.
    rewrite (bind_ok _ _ _ _ _ (bearer_ok w kv tok Hkv Ha)).
    cbv zeta. unfold requests_get. unfold bind at 1.
    match goal with
    | |- context [except_TokenRefreshed ?f ?h w] =>
        rewrite (retry_skipped f h w w' Hrun)
    end. reflexivity.
Qed.

Lemma expiry_loop_ends_in_recursion_error_witness :
  exists rq rs w',
    issue expiring 5 (GetDeviceInfo (JStr (u "AB:12")) (JStr (u "HL_PAN3")))
      (logged_in sample_creds)
    = (Raise RecursionError, w')
    /\ sent w' = sent (logged_in sample_creds) ++ rq :: rs
    /\ is_refresh rq = false
    /\ forallb is_refresh rs = true /\ List.length rs = 5%nat
    /\ creds w' = creds (logged_in sample_creds)
    /\ token_file w' = token_file (logged_in sample_creds)
    /\ cameras w' = cameras (logged_in sample_creds)
    /\ cameras_ts w' = cameras_ts (logged_in sample_creds).
Proof.
  apply (expiry_loop_ends_in_recursion_error expiring 5
           (GetDeviceInfo (JStr (u "AB:12")) (JStr (u "HL_PAN3")))
           (logged_in sample_creds)
           [ (u "access_token", JStr (u "at-0")); (u "refresh_token", JStr (u "rt-0"));
             (u "user_id", JStr (u "user-1")); (u "phone_id", JStr (u "phone-1")) ]
           (JStr (u "at-0")) (JStr (u "phone-1")) (JStr (u "rt-0"))).
  - intros history rq. exists expired_response. split; reflexivity.
  - reflexivity.
  - reflexivity.
  - reflexivity.
  - reflexivity.
  - exact I.
Defined.

(** ** A credential without an access token *)

Section NoToken.
Variable E : env.
Variables (w : world) (kv : list (pystr * json)).
Hypothesis Hkv : creds w = JObj kv.
Hypothesis Hnone : Py.dict_get (u "access_token") kv = None.

Lemma payload_without_token endpoint w0 :
  creds w0 = creds w ->
  _payload E endpoint w0 = (Raise (KeyError (u "access_token")), tick_clock w0).
Proof.
  intros Hc. unfold _payload, bind, time_time, gets, lift. cbn [creds tick_clock].
  rewrite Hc, Hkv. cbn [Py.index]. rewrite Hnone. reflexivity.
Qed.

Lemma bearer_without_token : bearer w = (Raise (KeyError (u "access_token")), w).
Proof.
  unfold bearer, bind, gets, lift. rewrite Hkv. cbn [Py.index]. rewrite Hnone.
  reflexivity.
Qed.

End NoToken.

(** X12.  A credential that is a non-empty dict without an access token
    never reaches the vendor: each authenticated vendor call (the device
    listing when the cache is not served, run_action, set_property,
    get_device_info, signaling) raises [KeyError] for the key before it
    sends anything, and leaves the credential, the token file and the
    cache as they were. *)
Theorem call_without_access_token (E : env) (depth : nat) (call : vendor_call)
    (w : world) (kv : list (pystr * json)) :
  creds w = JObj kv ->
  kv <> [] ->
  Py.dict_get (u "access_token") kv = None ->
  due E call w ->
  exists w',
    issue E depth call w = (Raise (KeyError (u "access_token")), w')
    /\ sent w' = sent w /\ creds w' = creds w /\ token_file w' = token_file w
    /\ cameras w' = cameras w /\ cameras_ts w' = cameras_ts w.
Proof.
  intros Hkv Hne Hnone Hdue.
  destruct call as [|mac model action|mac model prop pvalue|mac model|mac].
  - exists (tick_clock (tick_clock w)). split; [|repeat split].
    cbn [issue]. unfold bind at 1. rewrite fetch_cameras_unfold, Hkv.
    cbn [Py.truthy]. destruct kv as [|p rest]; [congruence|]. cbn [negb]. cbv zeta.
    cbn [due] in Hdue. rewrite Hdue.
    unfold listing_with_retry, except_TokenRefreshed, post_object_list.
    unfold bind at 1.
    rewrite (payload_without_token E w (p :: rest) Hkv Hnone _ (tick_clock w) eq_refl).
    reflexivity.
  - exists (tick_clock w). split; [|repeat split].
    cbn [issue]. unfold bind at 1. unfold run_action. unfold bind at 1.
    rewrite (payload_without_token E w kv Hkv Hnone _ w eq_refl). reflexivity.
  - exists (tick_clock w). split; [|repeat split].
    cbn [issue]. unfold bind at 1. unfold set_property. cbv zeta. unfold bind at 1.
    rewrite (payload_without_token E w kv Hkv Hnone _ w eq_refl). reflexivity.
  - exists (tick_clock w). split; [|repeat split].
    cbn [issue]. unfold bind at 1. unfold get_device_info. cbv zeta. unfold bind at 1.
    rewrite (payload_without_token E w kv Hkv Hnone _ w eq_refl). reflexivity.
  - exists w. split; [|repeat split].
    cbn [issue]. unfold bind at 1. unfold get_webrtc_signaling. cbv zeta.
    unfold bind at 1. rewrite (bearer_without_token w kv Hkv Hnone). reflexivity.
Qed.

Lemma call_without_access_token_witness :
  exists w',
    issue (scripted []) 3 (Signaling (JStr (u "AB:12")))
      (logged_in (JObj [ (u "phone_id", JStr (u "phone-1")) ]))
    = (Raise (KeyError (u "access_token")), w')
    /\ sent w' = sent (logged_in (JObj [ (u "phone_id", JStr (u "phone-1")) ]))
    /\ creds w' = creds (logged_in (JObj [ (u "phone_id", JStr (u "phone-1")) ]))
    /\ token_file w' = token_file (logged_in (JObj [ (u "phone_id", JStr (u "phone-1")) ]))
    /\ cameras w' = cameras (logged_in (JObj [ (u "phone_id", JStr (u "phone-1")) ]))
    /\ cameras_ts w' = cameras_ts (logged_in (JObj [ (u "phone_id", JStr (u "phone-1")) ])).
Proof.
  apply (call_without_access_token (scripted []) 3 (Signaling (JStr (u "AB:12")))
           (logged_in (JObj [ (u "phone_id", JStr (u "phone-1")) ]))
           [ (u "phone_id", JStr (u "phone-1")) ]).
  - reflexivity.
  - discriminate.
  - reflexivity.
  - exact I.
Defined.

(** ** Login *)

Section Login.
Variable E : env.

Lemma login_ok_inv depth email password api_key key_id w data w' :
  wyze_login E depth email password api_key key_id w = (Ok data, w') ->
  exists hashed resp fields,
    _hash_password (ucd E) password = Ok hashed
    /\ vendor E (sent w)
         (login_request email hashed api_key key_id (uuid4 E (uuids_drawn w)))
       = Replied resp
    /\ classify resp = Ok (Accepted (JObj fields))
    /\ data = JObj (Py.dict_set (u "phone_id") (JStr (uuid4 E (uuids_drawn w))) fields)
    /\ disk E (writes w) = Written
    /\ w' = tick_write
              (set_token_file (FileHolds data)
                 (set_creds data
                    (log_request
                       (login_request email hashed api_key key_id (uuid4 E (uuids_drawn w)))
                       (tick_uuid w)))).
Proof.
  intros H. unfold wyze_login in H. unfold bind at 1 in H. cbv beta iota zeta in H.
  apply bind_inv in H.
  destruct H as [(hashed & w1 & Hh & H) | (e & _ & Hbad)]; [|discriminate Hbad].
  unfold lift in Hh. injection Hh as Hh <-.
  apply bind_inv in H. unfold requests_post in H. rewrite send_run in H.
  destruct H as [(resp & w1 & Hsend & H) | (e & _ & Hbad)]; [|discriminate Hbad].
  cbn [sent tick_uuid] in Hsend.
  match type of Hsend with
  | context [vendor E (sent w) ?q] =>
      change q with (login_request email hashed api_key key_id (uuid4 E (uuids_drawn w)))
        in Hsend
  end.
  destruct (vendor E (sent w) _) as [|resp'] eqn:Hv; [discriminate Hsend|].
  injection Hsend as -> <-.
  apply bind_inv in H.
  destruct H as [(d & w2 & Hval & H) | (e & _ & Hbad)]; [|discriminate Hbad].
  destruct (validate_ok_inv E _ _ _ _ _ Hval) as (-> & Hc & _).
  destruct d as [| | | | |fields]; try discriminate H.
  unfold bind at 1, modify in H. cbv beta iota in H.
  match type of H with
  | bind (_save_tokens E) _ ?w0 = _ =>
      unfold bind in H;
      destruct (save_run E w0) as [[Hrun Hd] | (f & Hrun & _)]; rewrite Hrun in H
  end; [|discriminate H].
  unfold ret in H. injection H as <- <-.
  exists hashed, resp, fields. repeat split; assumption.
Qed.

Lemma falsy_has_no_field c k :
  Py.truthy c = false -> exists e, Py.index c k = Raise e.
Proof.
  destruct c as [| | | | |kv]; cbn [Py.index]; try (intros _; eexists; reflexivity).
  destruct kv; [intros _; eexists; reflexivity | discriminate].
Qed.

Lemma validate_without_credential depth resp w r w' :
  Py.truthy (creds w) = false ->
  _validate E depth resp w = (r, w') ->
  creds w' = creds w /\ token_file w' = token_file w /\ cameras w' = cameras w
  /\ cameras_ts w' = cameras_ts w /\ uuids_drawn w' = uuids_drawn w
  /\ writes w' = writes w /\ printed w' = printed w
  /\ sent w' = sent w.
Proof.
  intros Hf. destruct depth as [|d]; [intros [= _ <-]; auto 8|].
  rewrite validate_unfold.
  destruct (classify resp) as [[|code msg|x]|e]; try (intros [= _ <-]; auto 8).
  unfold bind at 1, refresh_token_with. unfold bind at 1.
  destruct (falsy_has_no_field (creds w) (u "access_token") Hf) as [e He].
  assert (Hp : _payload E (u "default") w = (Raise e, tick_clock w)).
  { unfold _payload, bind, time_time, gets, lift. cbn [creds tick_clock].
    rewrite He. reflexivity. }
  rewrite Hp. intros [= _ <-]. auto 8.
Qed.

End Login.

(** X13.  A login that returns has sent exactly one request, the login
    request: the e-mail address stripped, the password as
    [_hash_password] gives it, the API key and key id in the headers and
    no token.  The vendor accepted it with a dict, and the credential,
    which is also what the token file now holds and what is returned, is
    that dict with [phone_id] set to the UUID drawn for this login. *)
Theorem login_stores_credential (E : env) (depth : nat)
    (email password api_key key_id : pystr) (w : world) (data : json) :
  fst (wyze_login E depth email password api_key key_id w) = Ok data ->
  let phone_id := uuid4 E (uuids_drawn w) in
  let w' := snd (wyze_login E depth email password api_key key_id w) in
  exists hashed resp fields,
    _hash_password (ucd E) password = Ok hashed
    /\ sent w' = sent w ++ [login_request email hashed api_key key_id phone_id]
    /\ vendor E (sent w) (login_request email hashed api_key key_id phone_id)
       = Replied resp
    /\ classify resp = Ok (Accepted (JObj fields))
    /\ data = JObj (Py.dict_set (u "phone_id") (JStr phone_id) fields)
    /\ creds w' = data /\ token_file w' = FileHolds data
    /\ uuids_drawn w' = S (uuids_drawn w)
    /\ cameras w' = cameras w /\ cameras_ts w' = cameras_ts w.
Proof.
  intros H phone_id w'. subst phone_id w'.
  destruct (wyze_login E depth email password api_key key_id w) as [r w'] eqn:Hrun.
  cbn [fst] in H. subst r. cbn [snd].
  destruct (login_ok_inv E _ _ _ _ _ _ _ _ Hrun)
    as (hashed & resp & fields & Hh & Hv & Hc & Hd & _ & Hw).
  exists hashed, resp, fields. rewrite Hw.
  repeat split; try assumption; reflexivity.
Qed.

Lemma login_stores_credential_witness :
  let E := scripted [ accepted_reply (JObj [ (u "access_token", JStr (u "at-0"));
                                              (u "refresh_token", JStr (u "rt-0")) ]) ] in
  let w := at_import FileMissing in
  let data := JObj [ (u "access_token", JStr (u "at-0"));
                     (u "refresh_token", JStr (u "rt-0"));
                     (u "phone_id", JStr (u "00000000-0000-4000-8000-000000000000")) ] in
  let phone_id := uuid4 E (uuids_drawn w) in
  let w' := snd (wyze_login E 3 (u " me@example.com ") (u "secret") (u "key") (u "id") w) in
  exists hashed resp fields,
    _hash_password (ucd E) (u "secret") = Ok hashed
    /\ sent w' = sent w ++ [login_request (u " me@example.com ") hashed (u "key") (u "id")
                              phone_id]
    /\ vendor E (sent w)
         (login_request (u " me@example.com ") hashed (u "key") (u "id") phone_id)
       = Replied resp
    /\ classify resp = Ok (Accepted (JObj fields))
    /\ data = JObj (Py.dict_set (u "phone_id") (JStr phone_id) fields)
    /\ creds w' = data /\ token_file w' = FileHolds data
    /\ uuids_drawn w' = S (uuids_drawn w)
    /\ cameras w' = cameras w /\ cameras_ts w' = cameras_ts w.
Proof.
  intros E w data.
  apply (login_stores_credential E 3 (u " me@example.com ") (u "secret") (u "key")
           (u "id") w data).
  vm_compute. reflexivity.
Defined.

(** X14.  A login made while no credential is in place, as in [main],
    and that raises, has drawn its UUID, has sent at most the one login
    request and no refresh request, and has left the cache as it was.
    Either it has stored nothing: the credential and the token file are
    as they were and no write was tried (a password that does not encode,
    no answer, an answer that is no JSON, a vendor error, the expiry
    sentinel, a payload that is no dict).  Or the vendor accepted the
    login and the write of the token file failed: the exception is
    [OSError], the credential of the process is already the accepted dict
    with [phone_id] set, which the assignment made before the write, and
    the file is as the failed write left it. *)
Theorem failed_login_stores_nothing_or_write_failed (E : env) (depth : nat)
    (email password api_key key_id : pystr) (w : world) (e : exn) :
  Py.truthy (creds w) = false ->
  fst (wyze_login E depth email password api_key key_id w) = Raise e ->
  let phone_id := uuid4 E (uuids_drawn w) in
  let w' := snd (wyze_login E depth email password api_key key_id w) in
  cameras w' = cameras w /\ cameras_ts w' = cameras_ts w
  /\ uuids_drawn w' = S (uuids_drawn w)
  /\ printed w' = printed w
  /\ ((creds w' = creds w /\ token_file w' = token_file w /\ writes w' = writes w
       /\ (sent w' = sent w
           \/ exists hashed,
                _hash_password (ucd E) password = Ok hashed
                /\ sent w' = sent w ++ [login_request email hashed api_key key_id
                                          phone_id]))
      \/ (e = OSError /\ writes w' = S (writes w)
          /\ exists damage hashed resp fields,
               disk E (writes w) = WriteFails damage
               /\ _hash_password (ucd E) password = Ok hashed
               /\ sent w' = sent w ++ [login_request email hashed api_key key_id phone_id]
               /\ vendor E (sent w) (login_request email hashed api_key key_id phone_id)
                  = Replied resp
               /\ classify resp = Ok (Accepted (JObj fields))
               /\ creds w' = JObj (Py.dict_set (u "phone_id") (JStr phone_id) fields)
               /\ token_file w' = match damage with
                                  | Some f => f
                                  | None => token_file w
                                  end)).
Proof.
  intros Hf H phone_id w'. subst phone_id w'.
  destruct (wyze_login E depth email password api_key key_id w) as [r w'] eqn:Hrun.
  cbn [fst] in H. subst r. cbn [snd].
  unfold wyze_login in Hrun. unfold bind at 1 in Hrun. cbv beta iota zeta in Hrun.
  apply bind_inv in Hrun.
  destruct Hrun as [(hashed & w1 & Hh & H) | (e' & Hh & _)];
    unfold lift in Hh; injection Hh as Hh <-; [|repeat split; left; auto 7].
  apply bind_inv in H. unfold requests_post in H. rewrite send_run in H.
  cbn [sent tick_uuid] in H.
  match type of H with
  | context [vendor E (sent w) ?q] =>
      change q with (login_request email hashed api_key key_id (uuid4 E (uuids_drawn w)))
        in H
  end.
  set (rq := login_request email hashed api_key key_id (uuid4 E (uuids_drawn w))) in *.
  assert (Hsent : forall w2, sent w2 = sent (log_request rq (tick_uuid w)) ->
            sent w2 = sent w
            \/ exists hashed0,
                 _hash_password (ucd E) password = Ok hashed0
                 /\ sent w2 = sent w ++ [login_request email hashed0 api_key key_id
                                           (uuid4 E (uuids_drawn w))]).
  { intros w2 ->. right. exists hashed. split; [exact Hh | reflexivity]. }
  destruct H as [(resp & w1 & Hsend & H) | (e' & Hsend & _)].
  2:{ injection Hsend as _ <-. repeat split. left. repeat split. apply Hsent. reflexivity. }
  destruct (vendor E (sent w) rq) as [|resp'] eqn:Hv; [discriminate Hsend|].
  injection Hsend as <- <-.
  apply bind_inv in H.
  destruct H as [(d & w2 & Hval & H) | (e' & Hval & _)];
    destruct (validate_without_credential E depth resp' (log_request rq (tick_uuid w))
                _ _ Hf Hval)
      as (Hc & Ht & Hk & Hts & Hu & Hw & Hp & Hs).
  2:{ rewrite Hc, Ht, Hk, Hts, Hu, Hw, Hp. repeat split. left. repeat split.
      apply Hsent. exact Hs. }
  destruct d as [| | | | |fields];
    try (unfold raise in H; injection H as _ <-;
         rewrite Hc, Ht, Hk, Hts, Hu, Hw, Hp; repeat split; left; repeat split;
         apply Hsent; exact Hs).
  destruct (validate_ok_inv E _ _ _ _ _ Hval) as (-> & Hcl & _).
  unfold bind at 1, modify in H. cbv beta iota in H.
  unfold bind in H. unfold _save_tokens in H.
  cbn [writes set_creds log_request tick_uuid] in H.
  destruct (disk E (writes w)) as [|damage] eqn:Hd; [discriminate H|].
  repeat split;
    try (destruct damage; injection H as _ <-; reflexivity).
  right. split; [destruct damage; injection H as <- _; reflexivity|].
  split; [destruct damage; injection H as _ <-; reflexivity|].
  exists damage, hashed, resp', fields.
  repeat split; try assumption; destruct damage; injection H as _ <-; reflexivity.
Qed.

Lemma failed_login_stores_nothing_or_write_failed_witness :
  let E := scripted_on
             [ accepted_reply (JObj [ (u "access_token", JStr (u "at-0"));
                                      (u "refresh_token", JStr (u "rt-0")) ]) ]
             (fun _ => WriteFails (Some FileCorrupt)) in
  let w := at_import FileMissing in
  let phone_id := uuid4 E (uuids_drawn w) in
  let w' := snd (wyze_login E 3 (u "me@example.com") (u "secret") (u "key") (u "id") w) in
  cameras w' = cameras w /\ cameras_ts w' = cameras_ts w
  /\ uuids_drawn w' = S (uuids_drawn w)
  /\ printed w' = printed w
  /\ ((creds w' = creds w /\ token_file w' = token_file w /\ writes w' = writes w
       /\ (sent w' = sent w
           \/ exists hashed,
                _hash_password (ucd E) (u "secret") = Ok hashed
                /\ sent w' = sent w ++ [login_request (u "me@example.com") hashed (u "key")
                                          (u "id") phone_id]))
      \/ (OSError = OSError /\ writes w' = S (writes w)
          /\ exists damage hashed resp fields,
               disk E (writes w) = WriteFails damage
               /\ _hash_password (ucd E) (u "secret") = Ok hashed
               /\ sent w' = sent w ++ [login_request (u "me@example.com") hashed (u "key")
                                          (u "id") phone_id]
               /\ vendor E (sent w)
                    (login_request (u "me@example.com") hashed (u "key") (u "id") phone_id)
                  = Replied resp
               /\ classify resp = Ok (Accepted (JObj fields))
               /\ creds w' = JObj (Py.dict_set (u "phone_id") (JStr phone_id) fields)
               /\ token_file w' = match damage with
                                  | Some f => f
                                  | None => token_file w
                                  end)).
Proof.
  intros E w.
  apply (failed_login_stores_nothing_or_write_failed E 3 (u "me@example.com")
           (u "secret") (u "key") (u "id") w OSError).
  - reflexivity.
  - vm_compute. reflexivity.
Defined.

(** The write that fails after an accepted login: the process holds the
    new credential, the file does not. *)
Example login_write_fails_keeps_credential :
  let E := scripted_on
             [ accepted_reply (JObj [ (u "access_token", JStr (u "at-0"));
                                      (u "refresh_token", JStr (u "rt-0")) ]) ]
             (fun _ => WriteFails None) in
  let run := wyze_login E 3 (u "me@example.com") (u "secret") (u "key") (u "id")
               (at_import FileMissing) in
  fst run = Raise OSError
  /\ creds (snd run)
     = JObj [ (u "access_token", JStr (u "at-0")); (u "refresh_token", JStr (u "rt-0"));
              (u "phone_id", JStr (u "00000000-0000-4000-8000-000000000000")) ]
  /\ token_file (snd run) = FileMissing.
Proof. vm_compute. repeat split. Qed.
(** ** Failed writes are reported *)

Section Reporting.
Variable E : env.

Lemma reports_still {A} (c : M A) :
  (forall w r w', c w = (r, w') -> writes w' = writes w) -> reports_writes E c.
Proof.
  intros H w r w' Hrun. pose proof (H _ _ _ Hrun) as Hw. split; [lia|].
  intros (n & Hn & _). lia.
Qed.

Lemma reports_ret {A} (x : A) : reports_writes E (ret x).
Proof. apply reports_still. intros w r w' [= _ <-]. reflexivity. Qed.

Lemma reports_gets {A} (f : world -> A) : reports_writes E (gets f).
Proof. apply reports_still. intros w r w' [= _ <-]. reflexivity. Qed.

Lemma reports_raise {A} e : reports_writes E (@raise A e).
Proof. apply reports_still. intros w r w' [= _ <-]. reflexivity. Qed.

Lemma reports_lift {A} (x : result A) : reports_writes E (lift x).
Proof. apply reports_still. intros w r w' [= _ <-]. reflexivity. Qed.

Lemma reports_time : reports_writes E (time_time E).
Proof. apply reports_still. intros w r w' [= _ <-]. reflexivity. Qed.

Lemma reports_send rq : reports_writes E (requests_send E rq).
Proof.
  apply reports_still. intros w r w'. rewrite send_run. intros [= _ <-]. reflexivity.
Qed.

Lemma reports_setitem k v : reports_writes E (creds_setitem k v).
Proof.
  apply reports_still. intros w r w'. unfold creds_setitem.
  destruct (creds w); intros [= _ <-]; reflexivity.
Qed.

Lemma reports_cache cams ts : reports_writes E (modify (set_cache cams ts)).
Proof. apply reports_still. intros w r w' [= _ <-]. reflexivity. Qed.

Lemma reports_stamp ts : reports_writes E (modify (set_cameras_ts ts)).
Proof. apply reports_still. intros w r w' [= _ <-]. reflexivity. Qed.

Lemma reports_save : reports_writes E (_save_tokens E).
Proof.
  intros w r w' H.
  destruct (save_run E w) as [[Hr Hd] | (f & Hr & Hd)]; rewrite Hr in H;
    injection H as <- <-; cbn [writes tick_write set_token_file];
    (split; [lia|]).
  - intros (n & Hn & Hbad). cbn [writes tick_write set_token_file] in Hn.
    assert (n = writes w) by lia. subst n. contradiction.
  - reflexivity.
Qed.

Lemma reports_bind {A B} (c : M A) (k : A -> M B) :
  reports_writes E c -> (forall a, reports_writes E (k a)) ->
  reports_writes E (bind c k).
Proof.
  intros Hc Hk w r w' H. apply bind_inv in H.
  destruct H as [(a & w1 & Ha & H) | (e & Ha & ->)].
  - destruct (Hc _ _ _ Ha) as [Hw1 Hf1]. destruct (Hk a _ _ _ H) as [Hw2 Hf2].
    split; [lia|]. intros (n & Hn & Hd).
    destruct (Nat.lt_ge_cases n (writes w1)) as [Hlt|Hge].
    + assert (Hbad : @Ok A a = Raise OSError)
        by (apply Hf1; exists n; split; [lia | exact Hd]).
      discriminate Hbad.
    + apply Hf2. exists n. split; [lia | exact Hd].
  - destruct (Hc _ _ _ Ha) as [Hw1 Hf1]. split; [exact Hw1|].
    intros Hf. pose proof (Hf1 Hf) as [= ->]. reflexivity.
Qed.

Lemma reports_except_TokenRefreshed {A} (c handler : M A) :
  reports_writes E c -> reports_writes E handler ->
  reports_writes E (except_TokenRefreshed c handler).
Proof.
  intros Hc Hh w r w'. unfold except_TokenRefreshed.
  destruct (c w) as [r1 w1] eqn:H1. destruct (Hc _ _ _ H1) as [Hw1 Hf1].
  assert (Hcase : (r1 = Raise TokenRefreshed) \/ (r1 <> Raise TokenRefreshed)).
  { destruct r1 as [a|e]; [right; discriminate|].
    destruct e; try (right; discriminate). left. reflexivity. }
  destruct Hcase as [-> | Hn].
  - intros H. destruct (Hh _ _ _ H) as [Hw2 Hf2].
    split; [lia|]. intros (n & Hn & Hd).
    destruct (Nat.lt_ge_cases n (writes w1)) as [Hlt|Hge].
    + assert (Hbad : @Raise A TokenRefreshed = Raise OSError)
        by (apply Hf1; exists n; split; [lia | exact Hd]).
      discriminate Hbad.
    + apply Hf2. exists n. split; [lia | exact Hd].
  - intros H.
    assert (Heq : (r1, w1) = (r, w')).
    { destruct r1 as [a|e]; [exact H|]. destruct e; try exact H. congruence. }
    injection Heq as <- <-. split; [exact Hw1 | exact Hf1].
Qed.

End Reporting.

Ltac report_step E :=
  first
    [ apply reports_ret | apply reports_gets | apply reports_raise | apply reports_lift
    | apply (reports_time E) | apply (reports_send E) | apply (reports_save E)
    | apply reports_setitem | apply reports_cache | apply reports_stamp
    | assumption
    | apply reports_bind; [ | intro ]
    | apply reports_except_TokenRefreshed
    | match goal with
      | |- reports_writes _ (if ?b then _ else _) => destruct b
      | |- reports_writes _ (match ?x with _ => _ end) => destruct x
      end ].

Ltac report E := cbv zeta; repeat (report_step E; cbv zeta).

Section ReportingCalls.
Variable E : env.

Lemma reports_validate depth : forall resp, reports_writes E (_validate E depth resp).
Proof.
  induction depth as [|d IH]; intros resp; [simpl; report E|].
  cbn [_validate].
  unfold refresh_token_with, _payload, requests_post, get_or. report E.
  apply IH.
Qed.

Lemma reports_fetch_cameras depth : reports_writes E (fetch_cameras E depth).
Proof.
  pose proof (reports_validate depth) as Hv.
  unfold fetch_cameras, listing_with_retry, post_object_list, _payload, requests_post.
  report E; apply Hv.
Qed.

(** A listing that returns has kept the token file in step. *)
Lemma fetch_ok_keeps_saved depth w cams w' :
  fetch_cameras E depth w = (Ok cams, w') -> saved w -> saved w'.
Proof.
  intros H Hsv.
  destruct (obeys_fetch_cameras E depth _ _ _ H) as [(_ & _ & _ & Hkeep & _) _].
  destruct (Hkeep Hsv) as [Hok | Hfail]; [exact Hok|].
  destruct (reports_fetch_cameras depth _ _ _ H) as [_ Hrep].
  discriminate (Hrep Hfail).
Qed.

End ReportingCalls.

(** ** The main program *)

Section Main.
Variable E : env.
Variables (depth : nat) (email password api_key api_id : option pystr).

(** What [print] leaves alone. *)
Lemma print_keeps line w r w' :
  py_print E line w = (r, w') ->
  creds w' = creds w /\ token_file w' = token_file w
  /\ uuids_drawn w' = uuids_drawn w.
Proof.
  unfold py_print. destruct (stdout E (printed w) line); intros [= _ <-]; auto.
Qed.

Lemma print_cameras_keeps cams : forall w r w',
  print_cameras E cams w = (r, w') ->
  creds w' = creds w /\ token_file w' = token_file w
  /\ uuids_drawn w' = uuids_drawn w.
Proof.
  induction cams as [|c cams IH]; intros w r w'; cbn [print_cameras].
  - intros [= _ <-]. auto.
  - intros H. apply bind_inv in H.
    destruct H as [(line & w1 & Hl & H) | (e & Hl & _)];
      unfold lift in Hl; injection Hl as _ <-; [|auto].
    apply bind_inv in H.
    destruct H as [(x & w1 & Hp & H) | (e & Hp & _)];
      destruct (print_keeps _ _ _ _ Hp) as (Hc & Hf & Hu); [|auto].
    destruct (IH _ _ _ H) as (Hc' & Hf' & Hu').
    rewrite Hc', Hf', Hu'. auto.
Qed.

Lemma print_open line w :
  console_open E -> py_print E line w = (Ok tt, log_line line w).
Proof. intros Ho. unfold py_print. rewrite Ho. reflexivity. Qed.

Lemma authenticate_ok w w' :
  authenticate E depth email password api_key api_id w = (Ok tt, w') ->
  (Py.truthy (creds w) = true /\ w' = w)
  \/ (Py.truthy (creds w') = true /\ saved w').
Proof.
  unfold authenticate. unfold bind at 1, gets.
  destruct (Py.truthy (creds w)) eqn:Ht; cbn [negb].
  { intros [= <-]. left. auto. }
  destruct (negb _).
  { intros H. apply bind_inv in H.
    destruct H as [(x & w1 & _ & Hbad) | (e & _ & Hbad)]; discriminate Hbad. }
  intros H. right. apply bind_inv in H.
  destruct H as [(x & w0 & Hp0 & H) | (e & _ & Hbad)]; [|discriminate Hbad].
  apply bind_inv in H.
  destruct H as [(data & w1 & Hlogin & H) | (e & _ & Hbad)]; [|discriminate Hbad].
  destruct (login_ok_inv E _ _ _ _ _ _ _ _ Hlogin)
    as (hashed & resp & fields & _ & _ & _ & Hd & _ & Hw).
  apply bind_inv in H.
  destruct H as [(cams & w2 & Hfetch & H) | (e & _ & Hbad)]; [|discriminate Hbad].
  apply bind_inv in H.
  destruct H as [(y & w3 & Hp3 & H) | (e & _ & Hbad)]; [|discriminate Hbad].
  destruct (print_keeps _ _ _ _ Hp3) as (Hc3 & Hf3 & _).
  destruct (print_cameras_keeps _ _ _ _ H) as (Hc4 & Hf4 & _).
  assert (Hsv1 : saved w1) by (rewrite Hw; reflexivity).
  assert (Htr1 : Py.truthy (creds w1) = true).
  { rewrite Hw. cbn [creds tick_write set_token_file set_creds]. rewrite Hd.
    cbn [Py.truthy].
    pose proof (dict_set_not_empty (u "phone_id")
                  (JStr (uuid4 E (uuids_drawn w0))) fields) as Hne.
    destruct (Py.dict_set _ _ fields); [congruence | reflexivity]. }
  destruct (obeys_fetch_cameras E depth _ _ _ Hfetch) as [(_ & _ & Htr & _) _].
  pose proof (fetch_ok_keeps_saved E depth _ _ _ Hfetch Hsv1) as Hsv2.
  unfold saved in *. rewrite Hc4, Hf4, Hc3, Hf3. split; [exact (Htr Htr1) | exact Hsv2].
Qed.

(** Without the login variables the block draws no UUID. *)
Lemma authenticate_without_variables w :
  login_variables email password api_key api_id = false ->
  authenticate E depth email password api_key api_id w
  = if Py.truthy (creds w) then (Ok tt, w)
    else bind (py_print E
                 (u "ERROR: Set WYZE_EMAIL, WYZE_PASSWORD, API_KEY, API_ID env vars"))
           (fun _ => raise (SystemExit 1)) w.
Proof.
  intros Hv. unfold authenticate. unfold bind at 1, gets.
  destruct (Py.truthy (creds w)); cbn [negb]; [reflexivity|].
  unfold login_variables in Hv. rewrite Hv. reflexivity.
Qed.

Lemma authenticate_draws_nothing w :
  login_variables email password api_key api_id = false ->
  uuids_drawn (snd (authenticate E depth email password api_key api_id w))
  = uuids_drawn w.
Proof.
  intros Hv. rewrite (authenticate_without_variables w Hv).
  destruct (Py.truthy (creds w)); [reflexivity|].
  unfold bind, py_print, raise.
  destruct (stdout E (printed w) _); reflexivity.
Qed.

(** The program from the [if not _creds:] block on, for a port. *)
Lemma finish_draws_nothing p w :
  login_variables email password api_key api_id = false ->
  uuids_drawn
    (snd (bind (authenticate E depth email password api_key api_id)
            (fun _ => py_print E
                        (u "[wyze-server] Starting on port " ++ Py.str (JNum p))) w))
  = uuids_drawn w.
Proof.
  intros Hv. pose proof (authenticate_draws_nothing w Hv) as Ha. unfold bind.
  destruct (authenticate E depth email password api_key api_id w) as [[x|e] w1];
    cbn [snd] in *; [|exact Ha].
  unfold py_print. destruct (stdout E (printed w1) _); cbn [snd]; exact Ha.
Qed.

End Main.

(** X15.  When the main program gets as far as starting the server, a
    credential is in place and the token file holds exactly it: whether
    the credential came from the token file, or from a login made because
    the file was missing, held nothing usable, or held a credential whose
    device listing failed.  A write of the token file that fails on the
    way ends the listing or the login it belongs to with [OSError], so a
    run that gets this far has had its last write done. *)
Theorem main_serves_with_saved_credential (E : env) (depth : nat)
    (email password api_key api_id port : option pystr) (w : world) :
  Py.truthy (creds w) = false ->
  fst (main E depth email password api_key api_id port w) = Ok tt ->
  let w' := snd (main E depth email password api_key api_id port w) in
  Py.truthy (creds w') = true /\ saved w'.
Proof.
  intros Hf H w'. subst w'.
  destruct (main E depth email password api_key api_id port w) as [r w'] eqn:Hrun.
  cbn [fst] in H. subst r. cbn [snd]. unfold main in Hrun.
  apply bind_inv in Hrun.
  destruct Hrun as [(p & w0 & Hp & Hrun) | (e & _ & Hbad)]; [|discriminate Hbad].
  unfold lift in Hp. injection Hp as _ <-.
  apply bind_inv in Hrun.
  destruct Hrun as [(loaded & w1 & Hload & Hrun) | (e & _ & Hbad)]; [|discriminate Hbad].
  apply bind_inv in Hrun.
  destruct Hrun as [(x & w2 & Hblock & Hrun) | (e & _ & Hbad)]; [|discriminate Hbad].
  apply bind_inv in Hrun.
  destruct Hrun as [(y & w3 & Hauth & Hlast) | (e & _ & Hbad)]; [|discriminate Hbad].
  destruct (print_keeps E _ _ _ _ Hlast) as (Hc' & Hf' & _).
  destruct y. unfold saved. rewrite Hc', Hf'.
  destruct (authenticate_ok E _ _ _ _ _ _ _ Hauth) as [[Ht ->] | Hok]; [|exact Hok].
  split; [exact Ht|].
  unfold _load_tokens in Hload.
  destruct (token_file w) as [| | | |j] eqn:Hfile; try discriminate Hload;
    injection Hload as <- <-.
  { injection Hblock as _ <-. congruence. }
  apply bind_inv in Hblock.
  destruct Hblock as [(z & w1 & Hp1 & Hblock) | (e & _ & Hbad)]; [|discriminate Hbad].
  destruct (print_keeps E _ _ _ _ Hp1) as (Hc1 & Hf1 & _).
  assert (Hsv1 : saved w1).
  { unfold saved. rewrite Hc1, Hf1. exact Hfile. }
  unfold except_Exception in Hblock.
  destruct (bind (fetch_cameras E depth)
              (fun cams => py_print E (found_line cams [])) w1)
    as [[z'|e] w1'] eqn:Htry.
  - injection Hblock as _ <-. apply bind_inv in Htry.
    destruct Htry as [(cams & wf & Hfetch & Hp2) | (e & _ & Hbad)]; [|discriminate Hbad].
    destruct (print_keeps E _ _ _ _ Hp2) as (Hc2 & Hf2 & _).
    pose proof (fetch_ok_keeps_saved E depth _ _ _ Hfetch Hsv1) as Hsv.
    unfold saved in Hsv. rewrite Hc2, Hf2. exact Hsv.
  - assert (Hh : bind (py_print E
                         (u "[wyze-server] Cached tokens expired, re-authenticating..."))
                   (fun _ => modify (set_creds JNull)) w1' = (Ok x, w2)).
    { destruct e; try exact Hblock. discriminate Hblock. }
    apply bind_inv in Hh.
    destruct Hh as [(z' & w1'' & _ & Hset) | (e' & _ & Hbad)]; [|discriminate Hbad].
    injection Hset as _ <-. discriminate Ht.
Qed.

Lemma main_serves_with_saved_credential_witness :
  let E := scripted [ accepted_reply (JObj [ (u "access_token", JStr (u "at-0"));
                                              (u "refresh_token", JStr (u "rt-0")) ]);
                      accepted_reply (JObj [ (u "device_list", JArr [sample_device]) ]) ] in
  let w' := snd (main E 3 (Some (u "me@example.com")) (Some (u "secret"))
                   (Some (u "key")) (Some (u "id")) None (at_import FileMissing)) in
  Py.truthy (creds w') = true /\ saved w'.
Proof.
  intros E.
  apply (main_serves_with_saved_credential E 3 (Some (u "me@example.com"))
           (Some (u "secret")) (Some (u "key")) (Some (u "id")) None
           (at_import FileMissing)).
  - reflexivity.
  - vm_compute. reflexivity.
Defined.

Section MainWithoutVariables.
Variable E : env.
Variables (depth : nat) (email password api_key api_id : option pystr).
Hypothesis Hv : login_variables email password api_key api_id = false.

(** The [if _load_tokens():] block, once the file is loaded. *)
Lemma cached_block_run w :
  bind (py_print E (u "[wyze-server] Loaded cached tokens")) (fun _ =>
    except_Exception
      (bind (fetch_cameras E depth) (fun cams => py_print E (found_line cams [])))
      (fun _ =>
         bind (py_print E
                 (u "[wyze-server] Cached tokens expired, re-authenticating..."))
           (fun _ => modify (set_creds JNull)))) w
  = match stdout E (printed w) (u "[wyze-server] Loaded cached tokens") with
    | PrintFails e => (Raise (print_exn e), w)
    | Printed =>
        let w1 := log_line (u "[wyze-server] Loaded cached tokens") w in
        let expired wf :=
          match stdout E (printed wf)
                  (u "[wyze-server] Cached tokens expired, re-authenticating...") with
          | PrintFails e => (Raise (print_exn e), wf)
          | Printed =>
              (Ok tt,
               set_creds JNull
                 (log_line
                    (u "[wyze-server] Cached tokens expired, re-authenticating...") wf))
          end in
        match fetch_cameras E depth w1 with
        | (Ok cams, wf) =>
            match stdout E (printed wf) (found_line cams []) with
            | Printed => (Ok tt, log_line (found_line cams []) wf)
            | PrintFails e => expired wf
            end
        | (Raise e, wf) => expired wf
        end
    end.
Proof.
  unfold bind at 1. unfold py_print at 1.
  destruct (stdout E (printed w) _); [|reflexivity].
  cbv zeta. unfold except_Exception. unfold bind at 1.
  destruct (fetch_cameras E depth _) as [[cams|e] wf] eqn:Hfetch.
  - unfold py_print at 1. destruct (stdout E (printed wf) (found_line cams [])) as [|pe].
    + reflexivity.
    + unfold bind, py_print, modify.
      destruct pe; cbn [print_exn]; destruct (stdout E (printed wf) _); reflexivity.
  - destruct (obeys_fetch_cameras E depth _ _ _ Hfetch) as [_ Hx].
    pose proof (Hx e eq_refl) as He.
    unfold bind, py_print, modify.
    destruct e; try (destruct (stdout E (printed wf) _); reflexivity).
    exfalso. exact (He status eq_refl).
Qed.

Lemma cached_block_draws_nothing w :
  uuids_drawn
    (snd (bind (py_print E (u "[wyze-server] Loaded cached tokens")) (fun _ =>
            except_Exception
              (bind (fetch_cameras E depth)
                 (fun cams => py_print E (found_line cams [])))
              (fun _ =>
                 bind (py_print E
                         (u "[wyze-server] Cached tokens expired, re-authenticating..."))
                   (fun _ => modify (set_creds JNull)))) w))
  = uuids_drawn w.
Proof.
  rewrite cached_block_run.
  destruct (stdout E (printed w) _); [|reflexivity]. cbv zeta.
  destruct (fetch_cameras E depth _) as [[cams|e] wf] eqn:Hfetch;
    destruct (obeys_fetch_cameras E depth _ _ _ Hfetch)
      as [(_ & _ & _ & _ & _ & Hu & _) _];
    cbn [uuids_drawn log_line] in Hu.
  - destruct (stdout E (printed wf) (found_line cams [])); [exact Hu|].
    destruct (stdout E (printed wf) _); exact Hu.
  - destruct (stdout E (printed wf) _); exact Hu.
Qed.

Lemma main_draws_nothing port w :
  uuids_drawn (snd (main E depth email password api_key api_id port w))
  = uuids_drawn w.
Proof.
  unfold main. unfold bind at 1, lift.
  destruct (int_of_text E (port_text port)) as [p|]; [|reflexivity].
  unfold bind at 1, _load_tokens.
  destruct (token_file w) as [| | | |j]; try reflexivity.
  - unfold bind at 1, ret. apply (finish_draws_nothing E); exact Hv.
  - unfold bind at 1.
    pose proof (cached_block_draws_nothing (set_creds j w)) as Hb.
    match type of Hb with
    | uuids_drawn (snd ?run) = _ => destruct run as [[x|e] w2]
    end; cbn [snd uuids_drawn set_creds] in Hb; [|exact Hb].
    rewrite <- Hb. apply (finish_draws_nothing E); exact Hv.
Qed.

Lemma exit_without_variables p w :
  console_open E -> Py.truthy (creds w) = false ->
  bind (authenticate E depth email password api_key api_id)
    (fun _ => py_print E (u "[wyze-server] Starting on port " ++ Py.str (JNum p))) w
  = (Raise (SystemExit 1),
     log_line (u "ERROR: Set WYZE_EMAIL, WYZE_PASSWORD, API_KEY, API_ID env vars") w).
Proof.
  intros Ho Hf. unfold bind at 1.
  rewrite (authenticate_without_variables E depth _ _ _ _ w Hv), Hf.
  unfold bind. rewrite (print_open E _ _ Ho). reflexivity.
Qed.

Lemma serve_with_credential p w :
  console_open E -> Py.truthy (creds w) = true ->
  bind (authenticate E depth email password api_key api_id)
    (fun _ => py_print E (u "[wyze-server] Starting on port " ++ Py.str (JNum p))) w
  = (Ok tt, log_line (u "[wyze-server] Starting on port " ++ Py.str (JNum p)) w).
Proof.
  intros Ho Ht. unfold bind at 1.
  rewrite (authenticate_without_variables E depth _ _ _ _ w Hv), Ht.
  apply print_open. exact Ho.
Qed.

Lemma main_run_without_variables port p w :
  int_of_text E (port_text port) = Some p -> console_open E ->
  Py.truthy (creds w) = false ->
  main E depth email password api_key api_id port w
  = let error_line :=
      u "ERROR: Set WYZE_EMAIL, WYZE_PASSWORD, API_KEY, API_ID env vars" in
    match token_file w with
    | FileMissing => (Raise (SystemExit 1), log_line error_line w)
    | FileUnreadable => (Raise OSError, w)
    | FileUndecodable => (Raise UnicodeDecodeError, w)
    | FileCorrupt => (Raise JSONDecodeError, w)
    | FileHolds j =>
        match fetch_cameras E depth
                (log_line (u "[wyze-server] Loaded cached tokens") (set_creds j w)) with
        | (Ok cams, wf) =>
            if Py.truthy (creds wf)
            then (Ok tt,
                  log_line (u "[wyze-server] Starting on port " ++ Py.str (JNum p))
                    (log_line (found_line cams []) wf))
            else (Raise (SystemExit 1),
                  log_line error_line (log_line (found_line cams []) wf))
        | (Raise _, wf) =>
            (Raise (SystemExit 1),
             log_line error_line
               (set_creds JNull
                  (log_line
                     (u "[wyze-server] Cached tokens expired, re-authenticating...")
                     wf)))
        end
    end.
Proof.
  intros Hp Ho Hf. unfold main. unfold bind at 1, lift. rewrite Hp.
  unfold bind at 1, _load_tokens. cbv zeta.
  destruct (token_file w) as [| | | |j]; try reflexivity.
  - unfold bind at 1, ret. exact (exit_without_variables p w Ho Hf).
  - unfold bind at 1. rewrite cached_block_run, !Ho. cbv zeta.
    destruct (fetch_cameras E depth _) as [[cams|e] wf] eqn:Hfetch.
    + rewrite Ho. destruct (Py.truthy (creds wf)) eqn:Ht.
      * apply (serve_with_credential p _ Ho). exact Ht.
      * apply (exit_without_variables p _ Ho). exact Ht.
    + rewrite Ho. apply (exit_without_variables p _ Ho). reflexivity.
Qed.

End MainWithoutVariables.

(** X16.  When one of the four login variables is unset or empty, the
    main program never logs in: it draws no UUID, whatever happens.  A
    [PORT] that [int] does not read ends it with [ValueError] before the
    token file is looked at.  Otherwise, on an output that takes every
    line: with no token file it prints the error line and exits with
    status 1; with a token file that cannot be read, does not decode or
    does not parse it ends with [OSError], [UnicodeDecodeError] or the
    JSON decode error, the process unchanged; with a token file that
    holds a value it goes on to serve if that value is a credential whose
    device listing succeeds, and otherwise exits with status 1 with no
    credential in place. *)
Theorem main_without_login_variables (E : env) (depth : nat)
    (email password api_key api_id port : option pystr) (w : world) :
  Py.truthy (creds w) = false ->
  login_variables email password api_key api_id = false ->
  let r := fst (main E depth email password api_key api_id port w) in
  let w' := snd (main E depth email password api_key api_id port w) in
  uuids_drawn w' = uuids_drawn w
  /\ (int_of_text E (port_text port) = None -> r = Raise ValueError /\ w' = w)
  /\ (forall p, int_of_text E (port_text port) = Some p -> console_open E ->
      match token_file w with
      | FileMissing =>
          r = Raise (SystemExit 1)
          /\ w' = log_line
                    (u "ERROR: Set WYZE_EMAIL, WYZE_PASSWORD, API_KEY, API_ID env vars") w
      | FileUnreadable => r = Raise OSError /\ w' = w
      | FileUndecodable => r = Raise UnicodeDecodeError /\ w' = w
      | FileCorrupt => r = Raise JSONDecodeError /\ w' = w
      | FileHolds j =>
          (r = Ok tt /\ Py.truthy (creds w') = true
           /\ exists cams wf,
                fetch_cameras E depth
                  (log_line (u "[wyze-server] Loaded cached tokens") (set_creds j w))
                = (Ok cams, wf)
                /\ w' = log_line (u "[wyze-server] Starting on port " ++ Py.str (JNum p))
                          (log_line (found_line cams []) wf))
          \/ (r = Raise (SystemExit 1) /\ Py.truthy (creds w') = false)
      end).
Proof.
  intros Hf Hv r w'. subst r w'.
  split; [apply main_draws_nothing; exact Hv|]. split.
  { intros Hp. unfold main, bind, lift. rewrite Hp. auto. }
  intros p Hp Ho.
  rewrite (main_run_without_variables E depth _ _ _ _ Hv port p w Hp Ho Hf).
  cbv zeta. destruct (token_file w) as [| | | |j]; auto.
  destruct (fetch_cameras E depth _) as [[cams|e] wf] eqn:Hfetch.
  - destruct (Py.truthy (creds wf)) eqn:Ht; cbn [fst snd].
    + left. split; [reflexivity|]. split; [exact Ht|].
      exists cams, wf. split; reflexivity.
    + right. split; [reflexivity | exact Ht].
  - cbn [fst snd]. right. split; reflexivity.
Qed.

Lemma main_without_login_variables_witness :
  let E := scripted [] in
  let w := at_import FileUnreadable in
  let r := fst (main E 3 None (Some (u "secret")) (Some (u "key")) (Some (u "id"))
                  (Some (u "8080")) w) in
  let w' := snd (main E 3 None (Some (u "secret")) (Some (u "key")) (Some (u "id"))
                   (Some (u "8080")) w) in
  uuids_drawn w' = uuids_drawn w /\ r = Raise OSError /\ w' = w.
Proof.
  intros E w.
  destruct (main_without_login_variables E 3 None (Some (u "secret")) (Some (u "key"))
              (Some (u "id")) (Some (u "8080")) w eq_refl eq_refl)
    as (Hu & _ & Hrun).
  split; [exact Hu|].
  apply (Hrun 8080); [reflexivity | intros history line; reflexivity].
Defined.

(** ** Listing twice *)

(** X17.  After a [list()] that went to the vendor and returned, the next
    [list()] returns the same list without sending anything when the list
    is not empty and the two clock readings are less than the TTL apart;
    it goes to the vendor again when the list is empty, however little
    time has passed, or when the readings are at least the TTL apart. *)
Theorem list_again (E : env) (depth : nat) (w w1 : world) (cams : list json) :
  due E ListDevices w ->
  fetch_cameras E depth w = (Ok cams, w1) ->
  let age := (clock E (clock_reads w1) - clock E (clock_reads w))%Q in
  (cams <> [] -> (age < CACHE_TTL)%Q ->
     fetch_cameras E depth w1 = (Ok cams, tick_clock w1))
  /\ (cams = [] -> due E ListDevices w1)
  /\ ((CACHE_TTL <= age)%Q -> due E ListDevices w1).
Proof.
  intros Hdue H age. subst age. cbn [due] in *.
  rewrite fetch_cameras_unfold in H.
  destruct (Py.truthy (creds w)) eqn:Htr; cbn [negb] in H.
  2:{ injection H as <- <-. split; [congruence|]. split; [intros _; exact Hdue|].
      intros Hle. apply cache_fresh_false. right.
      destruct (cameras w) eqn:Hk.
      - unfold cache_fresh in Hdue.
        exfalso. revert Hle. unfold CACHE_TTL. intros Hle.
        apply Qle_not_lt in Hle. apply Hle.
        setoid_replace (clock E (clock_reads w) - clock E (clock_reads w))%Q with 0%Q
          by ring. reflexivity.
      - unfold cache_fresh in Hdue. rewrite Hk in Hdue. cbn [andb] in Hdue.
        destruct (Qlt_le_dec _ _) as [_|Hge]; [discriminate Hdue | exact Hge]. }
  cbv zeta in H. rewrite Hdue in H.
  destruct (listing_with_retry E depth (tick_clock w)) as [[data|e] w2] eqn:Hl;
    [|discriminate H].
  destruct (cameras_from E data) as [cs|e]; [|discriminate H].
  injection H as <- <-.
  destruct (obeys_listing E depth _ _ _ Hl) as [(_ & _ & Hkeep & _) _].
  split; [|split].
  - intros Hne Hlt. rewrite fetch_cameras_unfold.
    cbn [creds set_cache]. rewrite (Hkeep Htr). cbn [negb]. cbv zeta.
    rewrite cache_fresh_true; [reflexivity | exact Hne | exact Hlt].
  - intros ->. apply cache_fresh_false. left. reflexivity.
  - intros Hle. apply cache_fresh_false. right. exact Hle.
Qed.

Lemma list_again_witness :
  let E := scripted [ accepted_reply (JObj [ (u "device_list", JArr [sample_device]) ]) ] in
  let w := logged_in sample_creds in
  let w1 := snd (fetch_cameras E 3 w) in
  fetch_cameras E 3 w1 = (Ok [sample_camera], tick_clock w1).
Proof.
  intros E w w1.
  apply (proj1 (list_again E 3 w w1 [sample_camera] eq_refl
                  ltac:(vm_compute; reflexivity))).
  - discriminate.
  - vm_compute. reflexivity.
Defined.

(** ** The signaling bundle *)

Lemma normalize_servers_shape E items items' :
  normalize_servers E items = Ok items' -> Forall normalized_descriptor items'.
Proof.
  revert items'. induction items as [|s items IH]; simpl; intros items' H.
  - injection H as <-. constructor.
  - destruct (normalize_server (ucd E) s) as [s'|] eqn:Hs; [|discriminate H].
    cbn [rbind] in H.
    destruct (normalize_servers E items) as [rest|]; [|discriminate H].
    cbn [rbind] in H. injection H as <-.
    constructor; [exact (normalize_server_shape _ _ _ Hs) | apply IH; reflexivity].
Qed.

Section SignalingData.
Variable E : env.

Lemma bearer_still w r w' : bearer w = (r, w') -> w' = w.
Proof.
  unfold bearer, bind, gets, lift, ret.
  destruct (Py.index (creds w) (u "access_token")); intros [= _ <-]; reflexivity.
Qed.

(** A GET whose response [_validate] returns the payload of. *)
Lemma get_validated depth url headers w data w' :
  bind (requests_get E url headers) (_validate E depth) w = (Ok data, w') ->
  exists rq resp,
    sent w' = sent w ++ [rq]
    /\ rq_method rq = GET /\ rq_url rq = url
    /\ vendor E (sent w) rq = Replied resp
    /\ classify resp = Ok (Accepted data)
    /\ creds w' = creds w.
Proof.
  intros H. apply bind_inv in H.
  destruct H as [(resp & w1 & Hsend & H) | (e & _ & Hbad)]; [|discriminate Hbad].
  unfold requests_get in Hsend. rewrite send_run in Hsend.
  destruct (validate_ok_inv E _ _ _ _ _ H) as (-> & Hc & _).
  match type of Hsend with
  | context [vendor E (sent w) ?q] =>
      exists q, resp; destruct (vendor E (sent w) q) as [|resp0] eqn:Hv;
        [discriminate Hsend|]
  end.
  injection Hsend as -> <-. repeat split; assumption.
Qed.

End SignalingData.

(** X18.  A signaling call that returns has, as the last request it
    sent, a GET of the signaling URL of the device, which the vendor
    answered with an accepted payload.  What it returns is a dict of
    exactly three fields taken from that payload and from the credential:
    [ClientId], the client device id that the credential held when the
    call was made (a token refresh on the way does not change it);
    [signalingUrl], the URL-decoded text of [results.signalingUrl] of the
    payload; and [servers], which is [results.servers] of the payload,
    with, when it is a list, every descriptor replaced by its normalized
    form: no legacy [url] field is left and [urls], if present, is a
    text. *)
Theorem signaling_bundle (E : env) (depth : nat) (mac : json) (w : world)
    (bundle : json) :
  fst (get_webrtc_signaling E depth mac w) = Ok bundle ->
  let w' := snd (get_webrtc_signaling E depth mac w) in
  exists earlier rq resp data results url servers servers' pid,
    sent w' = earlier ++ [rq]
    /\ rq_method rq = GET
    /\ rq_url rq = u "https://webrtc.api.wyze.com/signaling/device/" ++ Py.str mac
                     ++ u "?use_trickle=true"
    /\ vendor E earlier rq = Replied resp
    /\ classify resp = Ok (Accepted data)
    /\ Py.index data (u "results") = Ok results
    /\ Py.index results (u "signalingUrl") = Ok (JStr url)
    /\ Py.index results (u "servers") = Ok servers
    /\ Py.index (creds w) (u "phone_id") = Ok pid
    /\ bundle = JObj [ (u "ClientId", pid); (u "signalingUrl", JStr (unquote E url));
                       (u "servers", servers') ]
    /\ match servers with
       | JArr items =>
           exists items', normalize_servers E items = Ok items' /\ servers' = JArr items'
       | other => servers' = other
       end
    /\ (forall items, servers' = JArr items -> Forall normalized_descriptor items).
Proof.
  intros H w'. subst w'.
  destruct (get_webrtc_signaling E depth mac w) as [r w'] eqn:Hrun.
  cbn [fst] in H. subst r. cbn [snd].
  pose proof (obeys_signaling E depth mac w _ _ Hrun) as [Hstep _].
  unfold get_webrtc_signaling in Hrun. cbv zeta in Hrun.
  apply bind_inv in Hrun.
  destruct Hrun as [(auth & w0 & Hb & H) | (e & _ & Hbad)]; [|discriminate Hbad].
  apply bearer_still in Hb. subst w0.
  apply bind_inv in H.
  destruct H as [(data & w1 & Hdata & H) | (e & _ & Hbad)]; [|discriminate Hbad].
  assert (Hsent : exists earlier rq resp,
            sent w1 = earlier ++ [rq] /\ rq_method rq = GET
            /\ rq_url rq = u "https://webrtc.api.wyze.com/signaling/device/"
                             ++ Py.str mac ++ u "?use_trickle=true"
            /\ vendor E earlier rq = Replied resp
            /\ classify resp = Ok (Accepted data)).
  { unfold except_TokenRefreshed in Hdata.
    match type of Hdata with
    | match ?c w with _ => _ end = _ => destruct (c w) as [[d|e] wa] eqn:Hfirst
    end.
    - injection Hdata as -> ->.
      destruct (get_validated E _ _ _ _ _ _ Hfirst)
        as (rq & resp & Hs & Hm & Hu & Hv & Hc & _).
      exists (sent w), rq, resp. auto.
    - assert (Hsecond : e = TokenRefreshed) by (destruct e; congruence || reflexivity).
      subst e. apply bind_inv in Hdata.
      destruct Hdata as [(auth2 & wb & Hb & Hdata) | (e & _ & Hbad)];
        [|discriminate Hbad].
      apply bearer_still in Hb. subst wb.
      destruct (get_validated E _ _ _ _ _ _ Hdata)
        as (rq & resp & Hs & Hm & Hu & Hv & Hc & _).
      exists (sent wa), rq, resp. auto. }
  destruct Hsent as (earlier & rq & resp & Hs & Hm & Hu & Hv & Hc).
  unfold bind, lift, gets, ret in H.
  destruct (Py.get data (u "results") (JObj [])) as [results1|] eqn:Hg1;
    [|discriminate H].
  destruct (Py.get results1 (u "servers") (JArr [])) as [servers1|] eqn:Hget;
    [|discriminate H].
  destruct (Py.iter servers1) as [items|] eqn:Hiter; [|discriminate H].
  destruct (normalize_servers E items) as [items'|] eqn:Hn; [|discriminate H].
  destruct (Py.index (creds w1) (u "phone_id")) as [pid|] eqn:Hpid; [|discriminate H].
  destruct (Py.index data (u "results")) as [results|] eqn:Hres; [|discriminate H].
  destruct (Py.index results (u "signalingUrl")) as [su|] eqn:Hsu; [|discriminate H].
  destruct (unquote_value E su) as [su'|] eqn:Hunq; [|discriminate H].
  destruct (Py.index results (u "servers")) as [servers|] eqn:Hsv; [|discriminate H].
  injection H as <- <-.
  assert (Hurl : exists url, su = JStr url /\ su' = JStr (unquote E url)).
  { unfold unquote_value in Hunq. destruct su; try discriminate Hunq.
    - injection Hunq as <-. eauto.
    - destruct (existsb _ items0); discriminate Hunq.
    - destruct (Py.dict_get _ fields); discriminate Hunq. }
  destruct Hurl as (url & -> & ->).
  exists earlier, rq, resp, data, results, url, servers,
    (match servers with JArr _ => JArr items' | other => other end), pid.
  repeat (split; [assumption || reflexivity|]).
  split.
  { rewrite <- Hpid. symmetry. destruct Hstep as (Hother & _).
    apply Hother; discriminate. }
  split; [reflexivity|].
  assert (Hsame : forall its, servers = JArr its -> its = items).
  { intros its ->. destruct data as [| | | | |dkv]; try discriminate Hres.
    cbn [Py.index Py.get] in Hres, Hg1.
    destruct (Py.dict_get (u "results") dkv) as [res|]; [|discriminate Hres].
    injection Hres as ->. injection Hg1 as <-.
    destruct results as [| | | | |rkv]; try discriminate Hsv.
    cbn [Py.index Py.get] in Hsv, Hget.
    destruct (Py.dict_get (u "servers") rkv) as [sv|]; [|discriminate Hsv].
    injection Hsv as ->. injection Hget as <-.
    cbn [Py.iter] in Hiter. injection Hiter as <-. reflexivity. }
  split.
  - destruct servers as [| | | |its|]; try reflexivity.
    rewrite (Hsame its eq_refl). exists items'. split; [exact Hn | reflexivity].
  - intros its Hits. apply (normalize_servers_shape E items).
    destruct servers; try discriminate Hits. injection Hits as <-. exact Hn.
Qed.

Lemma signaling_bundle_witness :
  let E := scripted [ accepted_reply (JObj [ (u "results", JObj
                        [ (u "signalingUrl", JStr (u "wss://example/signal"));
                          (u "servers", JArr [ JObj
                             [ (u "url", JStr (u "turn:54-201-33-198.t-xyz.kinesisvideo.example:443")) ] ]) ]) ]) ] in
  let w := logged_in sample_creds in
  let w' := snd (get_webrtc_signaling E 3 (JStr (u "AB:12")) w) in
  exists earlier rq resp data results url servers servers' pid,
    sent w' = earlier ++ [rq]
    /\ rq_method rq = GET
    /\ rq_url rq = u "https://webrtc.api.wyze.com/signaling/device/"
                     ++ Py.str (JStr (u "AB:12")) ++ u "?use_trickle=true"
    /\ vendor E earlier rq = Replied resp
    /\ classify resp = Ok (Accepted data)
    /\ Py.index data (u "results") = Ok results
    /\ Py.index results (u "signalingUrl") = Ok (JStr url)
    /\ Py.index results (u "servers") = Ok servers
    /\ Py.index (creds w) (u "phone_id") = Ok pid
    /\ JObj [ (u "ClientId", JStr (u "phone-1"));
              (u "signalingUrl", JStr (u "wss://example/signal"));
              (u "servers",
               JArr [ JObj [ (u "urls", JStr (u "turn:54.201.33.198:443")) ] ]) ]
       = JObj [ (u "ClientId", pid); (u "signalingUrl", JStr (unquote E url));
                (u "servers", servers') ]
    /\ match servers with
       | JArr items =>
           exists items', normalize_servers E items = Ok items' /\ servers' = JArr items'
       | other => servers' = other
       end
    /\ (forall items, servers' = JArr items -> Forall normalized_descriptor items).
Proof.
  intros E w.
  apply (signaling_bundle E 3 (JStr (u "AB:12")) w).
  vm_compute. reflexivity.
Defined.

(** ** Forced refresh *)

(** X19.  [/api/refresh] does not serve the cache: with a credential in
    place and a clock that reads at least the TTL (any time later than two
    minutes after the epoch), a refresh that answers has listed the devices
    at the vendor, answers with that list and has stored it with the time
    read; a refresh that raises leaves the cached list as it was, but with
    a stamp of 0, so that the next [list()] goes to the vendor as well. *)
Theorem refresh_bypasses_cache (E : env) (depth : nat) (w : world) :
  Py.truthy (creds w) = true ->
  (CACHE_TTL <= clock E (clock_reads w))%Q ->
  let r := fst (handle E depth ViewRefresh w) in
  let w' := snd (handle E depth ViewRefresh w) in
  (forall response, r = Ok response ->
     exists cams new,
       response = Jsonify 200 (JArr cams)
       /\ cameras w' = cams /\ cameras_ts w' = clock E (clock_reads w)
       /\ sent w' = sent w ++ new /\ listing_trace new)
  /\ (forall e, r = Raise e -> cameras w' = cameras w /\ cameras_ts w' = 0%Q).
Proof.
  intros Htr Hclock r w'. subst r w'.
  assert (Hrun : handle E depth ViewRefresh w
                 = match listing_with_retry E depth (tick_clock (set_cameras_ts 0 w)) with
                   | (Ok data, w2) =>
                       match cameras_from E data with
                       | Ok cams => (Ok (Jsonify 200 (JArr cams)),
                                     set_cache cams (clock E (clock_reads w)) w2)
                       | Raise e => (Raise e, w2)
                       end
                   | (Raise e, w2) => (Raise e, w2)
                   end).
  { cbn [handle]. unfold api_refresh.
    unfold bind at 1, modify at 1. unfold bind at 1.
    rewrite fetch_cameras_unfold. cbn [creds set_cameras_ts set_cache].
    rewrite Htr. cbn [negb]. cbv zeta. cbn [clock_reads].
    rewrite cache_fresh_false.
    2:{ right. cbn [cameras_ts]. unfold Qminus.
        setoid_replace (clock E (clock_reads w) + - 0)%Q with (clock E (clock_reads w))
          by ring.
        exact Hclock. }
    unfold set_cameras_ts.
    destruct (listing_with_retry E depth (tick_clock (set_cache (cameras w) 0 w)))
      as [[data|e] w2]; [|reflexivity].
    destruct (cameras_from E data); reflexivity. }
  rewrite Hrun.
  destruct (listing_with_retry E depth (tick_clock (set_cameras_ts 0 w)))
    as [[data|e] w2] eqn:Hl;
    destruct (listing_with_retry_trace E depth _ _ _ Hl) as (new & (Hk & Hts & Hs) & Hshape).
  - destruct (cameras_from E data) as [cams|e]; cbn [fst snd]; split.
    + intros response [= <-]. exists cams, new.
      split; [reflexivity|]. split; [reflexivity|]. split; [reflexivity|].
      split; [exact Hs | exact (Hshape data eq_refl)].
    + discriminate.
    + discriminate.
    + intros e' _. split; [exact Hk | exact Hts].
  - cbn [fst snd]. split; [discriminate|]. intros e' _. split; [exact Hk | exact Hts].
Qed.

Lemma refresh_bypasses_cache_witness :
  let E := scripted [] in
  let w := set_cache [sample_camera] (inject_Z 990) (logged_in sample_creds) in
  let w' := snd (handle E 3 ViewRefresh w) in
  cameras w' = cameras w /\ cameras_ts w' = 0%Q.
Proof.
  intros E w.
  apply (proj2 (refresh_bypasses_cache E 3 w eq_refl ltac:(vm_compute; discriminate))
           RequestException).
  vm_compute. reflexivity.
Defined.

(** ** From a view to the vendor call *)

Section Dispatch.
Variable E : env.
Variables (depth : nat) (w : world) (kv : list (pystr * json)) (tok pid : json).
Hypothesis Hkv : creds w = JObj kv.
Hypothesis Ha : Py.dict_get (u "access_token") kv = Some tok.
Hypothesis Hp : Py.dict_get (u "phone_id") kv = Some pid.

Lemma retry_first (h : M json) rq wa :
  obeys (session_step E) is_exception h ->
  exists more,
    sent (snd (except_TokenRefreshed (attempt E depth rq) h wa)) = sent wa ++ rq :: more.
Proof.
  intros Hh. unfold except_TokenRefreshed.
  destruct (attempt E depth rq wa) as [r1 w1] eqn:H1.
  destruct (attempt_trace E depth rq _ _ _ H1) as (rs & (_ & _ & Hs) & _).
  assert (Hdirect : exists more, sent (snd (r1, w1)) = sent wa ++ rq :: more).
  { exists rs. exact Hs. }
  destruct r1 as [x|e]; [exact Hdirect|].
  destruct e; try exact Hdirect.
  destruct (h w1) as [r2 w2] eqn:H2.
  destruct (Hh _ _ _ H2) as [(_ & _ & _ & _ & _ & _ & _ & _ & rs' & Hs') _].
  exists (rs ++ rs'). cbn [snd]. rewrite Hs', Hs, <- app_assoc. reflexivity.
Qed.

Lemma first_request_of (call : vendor_call) :
  match call with ListDevices => False | _ => True end ->
  exists t more,
    sent (snd (issue E depth call w)) = sent w ++ request_of E call t tok pid :: more.
Proof.
  destruct call as [|mac model action|mac model prop pvalue|mac model|mac];
    intros Hcall; [destruct Hcall| | | |]; cbn [issue]; rewrite discard_sent.
  - unfold run_action.
    rewrite (bind_ok _ _ _ _ _ (payload_ok E (u "run_action") w kv tok pid Hkv Ha Hp)).
    cbv zeta. unfold requests_post.
    match goal with
    | |- context [except_TokenRefreshed ?f ?h (tick_clock w)] =>
        destruct (retry_first h
                    (request_of E (RunAction mac model action) (clock E (clock_reads w))
                       tok pid) (tick_clock w)) as [more Hs]
    end.
    { unfold requests_post. obey. }
    exists (clock E (clock_reads w)), more. exact Hs.
  - unfold set_property. cbv zeta.
    rewrite (bind_ok _ _ _ _ _ (payload_ok E (u "set_device_Info") w kv tok pid Hkv Ha Hp)).
    cbv zeta. unfold requests_post.
    match goal with
    | |- context [except_TokenRefreshed ?f ?h (tick_clock w)] =>
        destruct (retry_first h
                    (request_of E (SetProperty mac model prop pvalue)
                       (clock E (clock_reads w)) tok pid) (tick_clock w)) as [more Hs]
    end.
    { unfold requests_post. obey. }
    exists (clock E (clock_reads w)), more. exact Hs.
  - unfold get_device_info. cbv zeta.
    rewrite (bind_ok _ _ _ _ _ (payload_ok E (u "get_device_Info") w kv tok pid Hkv Ha Hp)).
    cbv zeta. unfold requests_post.
    match goal with
    | |- context [except_TokenRefreshed ?f ?h (tick_clock w)] =>
        destruct (retry_first h
                    (request_of E (GetDeviceInfo mac model) (clock E (clock_reads w))
                       tok pid) (tick_clock w)) as [more Hs]
    end.
    { unfold requests_post. obey. }
    exists (clock E (clock_reads w)), more. exact Hs.
  - unfold get_webrtc_signaling. cbv zeta.
    rewrite (bind_ok _ _ _ _ _ (bearer_ok w kv tok Hkv Ha)).
    match goal with
    | |- context [bind (except_TokenRefreshed ?f ?h) ?post w] =>
        destruct (retry_first h
                    (request_of E (Signaling mac) (clock E (clock_reads w)) tok pid) w)
          as [more Hs];
        [ | destruct (bind_quiet (except_TokenRefreshed f h) post w) as (Hq & _) ]
    end.
    + unfold bearer, requests_get. obey.
    + intros data wx r w' Hrun.
      unfold bind, lift, gets, ret in Hrun.
      repeat match type of Hrun with
             | context [match ?x with _ => _ end] => destruct x
             end;
        injection Hrun as _ <-; reflexivity.
    + exists (clock E (clock_reads w)), more. rewrite Hq. exact Hs.
Qed.

End Dispatch.

Section ViewDispatch.
Variable E : env.

Lemma find_cached depth slug w cam :
  Py.truthy (creds w) = true ->
  cache_fresh (clock E (clock_reads w)) w = true ->
  scan_cameras slug (cameras w) = Ok cam ->
  _find_camera E depth slug w = (Ok cam, tick_clock w).
Proof.
  intros Htr Hfresh Hscan. unfold _find_camera, bind.
  rewrite fetch_cameras_unfold, Htr. cbn [negb]. cbv zeta. rewrite Hfresh.
  unfold lift. rewrite Hscan. reflexivity.
Qed.

Lemma guarded {A} (c : M A) (h : exn -> M A) wa r w' :
  obeys (session_step E) is_exception c ->
  (forall e wx, exists x, h e wx = (Ok x, wx)) ->
  except_Exception c h wa = (r, w') ->
  w' = snd (c wa) /\ exists response, r = Ok response.
Proof.
  intros Hc Hh. unfold except_Exception.
  destruct (c wa) as [[a|e] w1] eqn:Hrun.
  - intros [= <- <-]. eauto.
  - pose proof (proj2 (Hc _ _ _ Hrun) e eq_refl) as He.
    destruct (Hh e w1) as [x Hx].
    assert (Hcase : match e with
                    | SystemExit n => (Raise (SystemExit n), w1)
                    | _ => h e w1
                    end = (Ok x, w1)).
    { destruct e; try exact Hx. exfalso. exact (He status eq_refl). }
    intros H.
    assert (Heq : (Ok x, w1) = (r, w')).
    { rewrite <- Hcase. destruct e; exact H. }
    injection Heq as <- <-. eauto.
Qed.

Lemma ret_tail {A B} (c : M A) (g : A -> B) w :
  snd (bind c (fun x => ret (g x)) w) = snd (c w).
Proof. unfold bind, ret. destruct (c w) as [[a|e] w1]; reflexivity. Qed.

End ViewDispatch.

(** X20.  From a view to the vendor call.  When the cache is served and
    holds a camera with the slug (the first one in the list), the views
    [/api/<slug>/info], [/api/<slug>/<action>] and [/signaling/<slug>]
    answer, and the first request they send is the vendor call for that
    camera's MAC address and model, made with the credential's access
    token and client device id: get_device_info for [info]; set_property
    with the property id of [PROP_MAP] and the [value] argument (1 by
    default) for the four property names; run_action with the key of
    [ACTIONS], or the action name itself, for any other action; the
    signaling request for [signaling]. *)
Theorem view_issues_vendor_call (E : env) (depth : nat) (v : view) (slug : pystr)
    (call : vendor_call) (w : world) (kv : list (pystr * json))
    (tok pid cam mac model : json) :
  view_slug v = Some slug ->
  call_of v mac model = Some call ->
  creds w = JObj kv ->
  Py.dict_get (u "access_token") kv = Some tok ->
  Py.dict_get (u "phone_id") kv = Some pid ->
  cache_fresh (clock E (clock_reads w)) w = true ->
  scan_cameras slug (cameras w) = Ok cam ->
  Py.truthy cam = true ->
  Py.index cam (u "mac") = Ok mac ->
  Py.index cam (u "model") = Ok model ->
  exists response t more,
    fst (handle E depth v w) = Ok response
    /\ sent (snd (handle E depth v w)) = sent w ++ request_of E call t tok pid :: more.
Proof.
  intros Hslug Hcall Hkv Ha Hp Hfresh Hscan Hcam Hmac Hmodel.
  assert (Htr : Py.truthy (creds w) = true).
  { rewrite Hkv. destruct kv; [discriminate Ha | reflexivity]. }
  pose proof (find_cached E depth slug w cam Htr Hfresh Hscan) as Hfind.
  assert (Hfirst : forall c,
            match c with ListDevices => False | _ => True end ->
            exists t more,
              sent (snd (issue E depth c (tick_clock w)))
              = sent w ++ request_of E c t tok pid :: more).
  { intros c Hc.
    exact (first_request_of E depth (tick_clock w) kv tok pid Hkv Ha Hp c Hc). }
  destruct (handle E depth v w) as [r w'] eqn:Hrun. cbn [fst snd].
  destruct v as [|s|s|s action value| |s| |]; try discriminate Hcall;
    unfold view_slug in Hslug; injection Hslug as ->;
    unfold call_of in Hcall; cbn [handle] in Hrun.
  - injection Hcall as <-.
    destruct (Hfirst (GetDeviceInfo mac model) I) as (t & more & Hsent).
    unfold api_camera_info in Hrun. rewrite (bind_ok _ _ _ _ _ Hfind) in Hrun.
    rewrite Hcam in Hrun. cbn [negb] in Hrun.
    apply (guarded E) in Hrun; [|obey|intros; eexists; reflexivity].
    destruct Hrun as (-> & response & ->). exists response, t, more.
    split; [reflexivity|]. rewrite <- Hsent. cbn [issue]. rewrite discard_sent.
    unfold bind at 1, lift at 1. rewrite Hmac.
    unfold bind at 1, lift at 1. rewrite Hmodel.
    rewrite ret_tail. reflexivity.
  - unfold api_camera_action in Hrun. rewrite (bind_ok _ _ _ _ _ Hfind) in Hrun.
    rewrite Hcam in Hrun. cbn [negb] in Hrun.
    destruct (Py.dict_get action PROP_MAP) as [prop|]; injection Hcall as <-;
      cbv zeta in Hrun;
      (apply (guarded E) in Hrun; [|obey|intros; eexists; reflexivity]);
      destruct Hrun as (-> & response & ->);
      match goal with
      | |- context [request_of E ?c _ _ _] =>
          destruct (Hfirst c I) as (t & more & Hsent)
      end;
      exists response, t, more;
      (split; [reflexivity|]); rewrite <- Hsent; cbn [issue]; rewrite discard_sent;
      unfold bind at 1, lift at 1; rewrite Hmac;
      unfold bind at 1, lift at 1; rewrite Hmodel;
      rewrite ret_tail; reflexivity.
  - injection Hcall as <-.
    destruct (Hfirst (Signaling mac) I) as (t & more & Hsent).
    unfold api_signaling in Hrun. rewrite (bind_ok _ _ _ _ _ Hfind) in Hrun.
    rewrite Hcam in Hrun. cbn [negb] in Hrun.
    apply (guarded E) in Hrun; [|obey|intros; eexists; reflexivity].
    destruct Hrun as (-> & response & ->). exists response, t, more.
    split; [reflexivity|]. rewrite <- Hsent. cbn [issue]. rewrite discard_sent.
    unfold bind at 1, lift at 1. rewrite Hmac.
    unfold bind at 1.
    destruct (get_webrtc_signaling E depth mac (tick_clock w)) as [[signal|e] w1];
      [|reflexivity].
    destruct signal; reflexivity.
Qed.

Lemma view_issues_vendor_call_witness :
  let E := scripted [] in
  let w := set_cache [sample_camera] (inject_Z 900) (logged_in sample_creds) in
  let v := ViewCameraAction (u "front-door") (u "turn_on") None in
  exists response t more,
    fst (handle E 3 v w) = Ok response
    /\ sent (snd (handle E 3 v w))
       = sent w ++ request_of E (RunAction (JStr (u "AB:12")) (JStr (u "HL_PAN3"))
                                   (u "power_on")) t
                     (JStr (u "at-0")) (JStr (u "phone-1")) :: more.
Proof.
  intros E w v.
  apply (view_issues_vendor_call E 3 v (u "front-door")
           (RunAction (JStr (u "AB:12")) (JStr (u "HL_PAN3")) (u "power_on")) w
           [ (u "access_token", JStr (u "at-0")); (u "refresh_token", JStr (u "rt-0"));
             (u "user_id", JStr (u "user-1")); (u "phone_id", JStr (u "phone-1")) ]
           (JStr (u "at-0")) (JStr (u "phone-1")) sample_camera
           (JStr (u "AB:12")) (JStr (u "HL_PAN3")));
    reflexivity.
Defined.

(** ** Where the token goes *)

Section Tracing.
Variable E : env.
Variable Q : request -> Prop.

Lemma traces_quiet {A} (c : M A) :
  (forall w r w', c w = (r, w') -> sent w' = sent w) -> traces Q c.
Proof.
  intros H w r w' Hrun. exists []. rewrite app_nil_r.
  split; [exact (H _ _ _ Hrun) | constructor].
Qed.

Lemma traces_ret {A} (x : A) : traces Q (ret x).
Proof. apply traces_quiet. intros w r w' [= _ <-]. reflexivity. Qed.

Lemma traces_gets {A} (f : world -> A) : traces Q (gets f).
Proof. apply traces_quiet. intros w r w' [= _ <-]. reflexivity. Qed.

Lemma traces_raise {A} e : traces Q (@raise A e).
Proof. apply traces_quiet. intros w r w' [= _ <-]. reflexivity. Qed.

Lemma traces_lift {A} (x : result A) : traces Q (lift x).
Proof. apply traces_quiet. intros w r w' [= _ <-]. reflexivity. Qed.

Lemma traces_time : traces Q (time_time E).
Proof. apply traces_quiet. intros w r w' [= _ <-]. reflexivity. Qed.

Lemma traces_save : traces Q (_save_tokens E).
Proof.
  apply traces_quiet. intros w r w' H. pose proof (save_sent E w) as Hs.
  rewrite H in Hs. exact Hs.
Qed.

Lemma traces_setitem k v : traces Q (creds_setitem k v).
Proof.
  apply traces_quiet. intros w r w'. unfold creds_setitem.
  destruct (creds w); intros [= _ <-]; reflexivity.
Qed.

Lemma traces_cache cams ts : traces Q (modify (set_cache cams ts)).
Proof. apply traces_quiet. intros w r w' [= _ <-]. reflexivity. Qed.

Lemma traces_stamp ts : traces Q (modify (set_cameras_ts ts)).
Proof. apply traces_quiet. intros w r w' [= _ <-]. reflexivity. Qed.

Lemma traces_send rq : Q rq -> traces Q (requests_send E rq).
Proof.
  intros Hq w r w'. rewrite send_run. intros [= _ <-].
  exists [rq]. split; [reflexivity | constructor; [exact Hq | constructor]].
Qed.

Lemma traces_then {A B} (c : M A) (h : M B) w w1 w2 r1 r2 :
  traces Q c -> traces Q h -> c w = (r1, w1) -> h w1 = (r2, w2) ->
  exists new, sent w2 = sent w ++ new /\ Forall Q new.
Proof.
  intros Hc Hh H1 H2.
  destruct (Hc _ _ _ H1) as (n1 & Hs1 & Hq1).
  destruct (Hh _ _ _ H2) as (n2 & Hs2 & Hq2).
  exists (n1 ++ n2). split; [rewrite Hs2, Hs1, app_assoc; reflexivity|].
  apply Forall_app. auto.
Qed.

Lemma traces_bind {A B} (c : M A) (k : A -> M B) :
  traces Q c -> (forall x, traces Q (k x)) -> traces Q (bind c k).
Proof.
  intros Hc Hk w r w' H. apply bind_inv in H.
  destruct H as [(x & w1 & Hx & H) | (e & Hx & _)].
  - exact (traces_then c (k x) _ _ _ _ _ Hc (Hk x) Hx H).
  - exact (Hc _ _ _ Hx).
Qed.

Lemma traces_except_TokenRefreshed {A} (c h : M A) :
  traces Q c -> traces Q h -> traces Q (except_TokenRefreshed c h).
Proof.
  intros Hc Hh w r w'. unfold except_TokenRefreshed.
  destruct (c w) as [r1 w1] eqn:H1.
  destruct r1 as [x|e]; [intros [= <- <-]; exact (Hc _ _ _ H1)|].
  destruct e; try (intros [= <- <-]; exact (Hc _ _ _ H1)).
  intros H2. exact (traces_then c h _ _ _ _ _ Hc Hh H1 H2).
Qed.

Lemma traces_except_Exception {A} (c : M A) (h : exn -> M A) :
  traces Q c -> (forall e, traces Q (h e)) -> traces Q (except_Exception c h).
Proof.
  intros Hc Hh w r w'. unfold except_Exception.
  destruct (c w) as [r1 w1] eqn:H1.
  destruct r1 as [x|e]; [intros [= <- <-]; exact (Hc _ _ _ H1)|].
  destruct e; try (intros H2; exact (traces_then c (h _) _ _ _ _ _ Hc (Hh _) H1 H2)).
  intros [= <- <-]. exact (Hc _ _ _ H1).
Qed.

End Tracing.

Ltac trace_step E :=
  first
    [ apply traces_ret | apply traces_gets | apply traces_raise | apply traces_lift
    | apply (traces_time E) | apply (traces_save E) | apply traces_setitem
    | apply traces_cache | apply traces_stamp
    | assumption
    | apply traces_bind; [ | intro ]
    | apply traces_except_TokenRefreshed
    | apply traces_except_Exception; [ | intro ]
    | match goal with
      | |- traces _ (if ?b then _ else _) => destruct b
      | |- traces _ (match ?x with _ => _ end) => destruct x
      end ].

Ltac trace E := cbv zeta; repeat (trace_step E; cbv zeta).

Section TokenTrace.
Variable E : env.

Lemma post_to_vendor path payload headers :
  PyStr.startswith (WYZE_API ++ path) (WYZE_API ++ u "/") = true ->
  traces (fun rq => to_vendor rq \/ bare_get rq)
    (requests_post E (WYZE_API ++ path) payload headers).
Proof. intros H. apply traces_send. left. left. exact H. Qed.

Lemma traces_validate depth :
  forall resp, traces (fun rq => to_vendor rq \/ bare_get rq) (_validate E depth resp).
Proof.
  induction depth as [|d IH]; intros resp; [simpl; trace E|].
  cbn [_validate]. unfold refresh_token_with, _payload, get_or.
  trace E; first [apply IH | apply post_to_vendor; reflexivity].
Qed.

Lemma traces_fetch_cameras depth :
  traces (fun rq => to_vendor rq \/ bare_get rq) (fetch_cameras E depth).
Proof.
  pose proof (traces_validate depth) as Hv.
  unfold fetch_cameras, post_object_list, _payload. trace E;
    first [apply post_to_vendor; reflexivity | apply Hv].
Qed.

Lemma traces_handle depth v :
  traces (fun rq => to_vendor rq \/ bare_get rq) (handle E depth v).
Proof.
  pose proof (traces_validate depth) as Hv.
  pose proof (traces_fetch_cameras depth) as Hf.
  destruct v; cbn [handle];
    unfold api_cameras, api_camera_detail, api_camera_info, api_camera_action,
      api_refresh, api_signaling, api_thumbnail, health, _find_camera,
      proxy_thumbnail, run_action, set_property, get_device_info,
      get_webrtc_signaling, bearer, _payload;
    trace E;
    first
      [ apply post_to_vendor; reflexivity
      | apply Hv
      | apply traces_send; left; right; apply startswith_app
      | apply traces_send; right; repeat split ].
Qed.

End TokenTrace.

(** X21.  The token stays with the vendor.  Whatever views are served and
    whatever the outside answers, every request the process sends either
    goes to one of the two vendor APIs (the app API, to which the listing,
    the device calls and the token refresh go with the token in their
    body, and the WebRTC signaling API, which gets it in a header), or is a
    bare GET without any header or body: the thumbnail URL, which is taken
    from the vendor's data, never receives a token. *)
Theorem token_stays_with_vendor (E : env) (depth : nat) (views : list view)
    (w : world) :
  exists new,
    sent (serve_all E depth views w) = sent w ++ new
    /\ Forall (fun rq => to_vendor rq \/ bare_get rq) new.
Proof.
  revert w. induction views as [|v views IH]; intros w; simpl.
  - exists []. rewrite app_nil_r. split; [reflexivity | constructor].
  - destruct (handle E depth v w) as [r w1] eqn:Hv. cbn [snd].
    destruct (traces_handle E depth v _ _ _ Hv) as (n1 & Hs1 & Hq1).
    destruct (IH w1) as (n2 & Hs2 & Hq2).
    exists (n1 ++ n2). split; [rewrite Hs2, Hs1, app_assoc; reflexivity|].
    apply Forall_app. auto.
Qed.

(** ** Token file *)

Section StartUp.
Variable E : env.

Lemma traces_anything {A} (Q : request -> Prop) (c : M A) :
  traces Q c -> traces (fun _ => True) c.
Proof.
  intros Hc w r w' H. destruct (Hc _ _ _ H) as (new & Hs & _).
  exists new. split; [exact Hs|]. apply Forall_forall. auto.
Qed.

Lemma traces_print line : traces (fun _ => True) (py_print E line).
Proof.
  apply traces_quiet. intros w r w'. unfold py_print.
  destruct (stdout E (printed w) line); intros [= _ <-]; reflexivity.
Qed.

Lemma traces_print_cameras cams : traces (fun _ => True) (print_cameras E cams).
Proof.
  induction cams as [|c cams IH]; cbn [print_cameras]; [apply traces_ret|].
  apply traces_bind; [apply traces_lift | intro].
  apply traces_bind; [apply traces_print | intro; exact IH].
Qed.

(** A computation that has sent [rq] first still has after whatever
    follows it. *)
Lemma first_then {A B} (c : M A) (k : A -> M B) w rq :
  (exists more, sent (snd (c w)) = sent w ++ rq :: more) ->
  (forall a, traces (fun _ => True) (k a)) ->
  exists more, sent (snd (bind c k w)) = sent w ++ rq :: more.
Proof.
  intros (more & Hs) Hk. unfold bind.
  destruct (c w) as [[a|e] w1]; cbn [snd] in *; [|eauto].
  destruct (k a w1) as [r w2] eqn:Hrun. cbn [snd].
  destruct (Hk a _ _ _ Hrun) as (new & Hnew & _).
  exists (more ++ new). rewrite Hnew, Hs, <- app_assoc. reflexivity.
Qed.

Lemma login_sends_first depth email password api_key key_id hashed w :
  _hash_password (ucd E) password = Ok hashed ->
  exists more,
    sent (snd (wyze_login E depth email password api_key key_id w))
    = sent w ++ login_request email hashed api_key key_id (uuid4 E (uuids_drawn w))
                  :: more.
Proof.
  intros Hh. unfold wyze_login. unfold bind at 1. cbv beta iota zeta.
  unfold bind at 1, lift at 1. rewrite Hh.
  change (sent w) with (sent (tick_uuid w)).
  apply first_then.
  - unfold requests_post. rewrite send_run. cbn [snd sent log_request].
    exists []. reflexivity.
  - intros resp. apply traces_bind.
    + apply (traces_anything (fun rq => to_vendor rq \/ bare_get rq)).
      apply traces_validate.
    + intros data. destruct data; try apply traces_raise.
      apply traces_bind; [|intros _; apply traces_bind;
                                      [apply traces_save | intros _; apply traces_ret]].
      apply traces_quiet. intros w0 r w' [= _ <-]. reflexivity.
Qed.

Lemma authenticate_logs_in depth email password api_key api_id w :
  Py.truthy (creds w) = false ->
  login_variables email password api_key api_id = true ->
  authenticate E depth email password api_key api_id w
  = bind (py_print E (u "[wyze-server] Authenticating with Wyze..."))
      (fun _ =>
         bind (wyze_login E depth (opt_text email) (opt_text password)
                 (opt_text api_key) (opt_text api_id))
           (fun _ =>
              bind (fetch_cameras E depth)
                (fun cams =>
                   bind (py_print E (found_line cams (u ":")))
                     (fun _ => print_cameras E cams)))) w.
Proof.
  intros Hc Henv. unfold authenticate. unfold bind at 1, gets at 1.
  unfold login_variables in Henv. rewrite Hc, Henv. reflexivity.
Qed.

End StartUp.

(** C2 (as amended).  Loading returns false and leaves the credential as it
    is when the token file is missing, and [main] then goes on to the block
    that logs in when no credential is held; it installs the value of a
    file that parses and returns true.  On a file that cannot be read,
    whose bytes do not decode, or whose text is not JSON, it raises the
    error of that step ([OSError], [UnicodeDecodeError], the JSON decode
    error) and installs nothing, and [main], which has parsed [PORT]
    before, ends with that error having printed nothing, sent nothing and
    drawn no UUID: there is no fallback to a login.  A [PORT] that is not
    an integer ends [main] with [ValueError] before the file is looked
    at.  With the file missing, no credential held, the four login
    variables set, the first line printed and a password that hashes, the
    first request [main] sends is the login request. *)
Theorem load_tokens_by_file_state (E : env) (depth : nat) (w : world)
    (email password api_key api_id port : option pystr) :
  (token_file w = FileMissing -> _load_tokens w = (Ok false, w))
  /\ (forall j, token_file w = FileHolds j ->
        _load_tokens w = (Ok true, set_creds j w))
  /\ (forall e,
        match token_file w with
        | FileUnreadable => e = OSError
        | FileUndecodable => e = UnicodeDecodeError
        | FileCorrupt => e = JSONDecodeError
        | _ => False
        end ->
        _load_tokens w = (Raise e, w)
        /\ (int_of_text E (port_text port) <> None ->
            main E depth email password api_key api_id port w = (Raise e, w)))
  /\ (int_of_text E (port_text port) = None ->
      main E depth email password api_key api_id port w = (Raise ValueError, w))
  /\ (forall p, int_of_text E (port_text port) = Some p ->
      token_file w = FileMissing ->
      main E depth email password api_key api_id port w
      = bind (authenticate E depth email password api_key api_id)
          (fun _ => py_print E (u "[wyze-server] Starting on port " ++ Py.str (JNum p))) w)
  /\ (Py.truthy (creds w) = false ->
      login_variables email password api_key api_id = true ->
      authenticate E depth email password api_key api_id w
      = bind (py_print E (u "[wyze-server] Authenticating with Wyze..."))
          (fun _ =>
             bind (wyze_login E depth (opt_text email) (opt_text password)
                     (opt_text api_key) (opt_text api_id))
               (fun _ =>
                  bind (fetch_cameras E depth)
                    (fun cams =>
                       bind (py_print E (found_line cams (u ":")))
                         (fun _ => print_cameras E cams)))) w)
  /\ (forall p hashed,
        int_of_text E (port_text port) = Some p ->
        token_file w = FileMissing ->
        Py.truthy (creds w) = false ->
        login_variables email password api_key api_id = true ->
        stdout E (printed w) (u "[wyze-server] Authenticating with Wyze...") = Printed ->
        _hash_password (ucd E) (opt_text password) = Ok hashed ->
        exists more,
          sent (snd (main E depth email password api_key api_id port w))
          = sent w ++ login_request (opt_text email) hashed (opt_text api_key)
                        (opt_text api_id) (uuid4 E (uuids_drawn w)) :: more).
Proof.
  split; [unfold _load_tokens; intros ->; reflexivity|].
  split; [unfold _load_tokens; intros j ->; reflexivity|].
  split.
  { intros e He.
    assert (Hload : _load_tokens w = (Raise e, w)).
    { unfold _load_tokens. destruct (token_file w); try contradiction; subst e; reflexivity. }
    split; [exact Hload|]. intros Hport. unfold main.
    destruct (int_of_text E (port_text port)) as [p|]; [|congruence].
    unfold bind at 1, lift at 1. unfold bind at 1. rewrite Hload. reflexivity. }
  split.
  { intros Hport. unfold main. rewrite Hport. reflexivity. }
  split.
  { intros p Hport Hfile. unfold main. rewrite Hport.
    unfold bind at 1, lift at 1. unfold bind at 1, _load_tokens. rewrite Hfile.
    unfold bind at 1, ret at 1. reflexivity. }
  split.
  { intros Hc Henv. exact (authenticate_logs_in E depth _ _ _ _ w Hc Henv). }
  intros p hashed Hport Hfile Hc Henv Hout Hhash.
  assert (Hrun : main E depth email password api_key api_id port w
                 = bind (authenticate E depth email password api_key api_id)
                     (fun _ => py_print E
                                 (u "[wyze-server] Starting on port " ++ Py.str (JNum p)))
                     w).
  { unfold main. rewrite Hport.
    unfold bind at 1, lift at 1. unfold bind at 1, _load_tokens. rewrite Hfile.
    unfold bind at 1, ret at 1. reflexivity. }
  rewrite Hrun.
  apply first_then; [|intro; apply traces_print].
  rewrite (authenticate_logs_in E depth _ _ _ _ w Hc Henv).
  unfold bind at 1, py_print at 1. rewrite Hout.
  change (sent w) with (sent (log_line (u "[wyze-server] Authenticating with Wyze...") w)).
  change (uuids_drawn w)
    with (uuids_drawn (log_line (u "[wyze-server] Authenticating with Wyze...") w)).
  apply first_then; [exact (login_sends_first E depth _ _ _ _ hashed _ Hhash)|].
  intros _. apply traces_bind.
  { apply (traces_anything (fun rq => to_vendor rq \/ bare_get rq)).
    apply traces_fetch_cameras. }
  intros cams. apply traces_bind; [apply traces_print | intros _].
  apply traces_print_cameras.
Qed.

Lemma load_tokens_by_file_state_witness :
  _load_tokens (at_import FileUndecodable)
  = (Raise UnicodeDecodeError, at_import FileUndecodable)
  /\ main (scripted []) 3 (Some (u "me@example.com")) (Some (u "secret"))
       (Some (u "key")) (Some (u "id")) None (at_import FileUndecodable)
     = (Raise UnicodeDecodeError, at_import FileUndecodable).
Proof.
  destruct (proj1 (proj2 (proj2
              (load_tokens_by_file_state (scripted []) 3 (at_import FileUndecodable)
                 (Some (u "me@example.com")) (Some (u "secret"))
                 (Some (u "key")) (Some (u "id")) None)))
              UnicodeDecodeError eq_refl) as [Hload Hmain].
  split; [exact Hload|]. apply Hmain. discriminate.
Defined.

(** C2 (as stated) fails: with a token file that does not parse, loading
    raises the decode error instead of returning absent, and the main
    program ends with it although the four login variables are set: it
    sends no login request. *)
Lemma load_tokens_corrupt_file_raises :
  _load_tokens (at_import FileCorrupt) = (Raise JSONDecodeError, at_import FileCorrupt)
  /\ _load_tokens (at_import FileCorrupt) <> (Ok false, at_import FileCorrupt)
  /\ main (scripted []) 3 (Some (u "me@example.com")) (Some (u "secret"))
       (Some (u "key")) (Some (u "id")) None (at_import FileCorrupt)
     = (Raise JSONDecodeError, at_import FileCorrupt)
  /\ sent (at_import FileCorrupt) = [].
Proof.
  split; [reflexivity|]. split; [discriminate|]. split; reflexivity.
Qed.
